(** * MashOS core: time adapters, period ranges and flower analysis

    A shallow embedding of the TypeScript sources

      - [types.ts]       (Feature, TimeConfig, MashOSConfig, MashTime),
      - [timeService.ts] (resolveNow, createTimeAdapter),
      - mywebCore ([unnamed/part_002]: weekly and monthly period ranges and
        the report triggers),
      - flowerCore ([unnamed/part_000]: annotate, analyze),
      - [inputCore.ts]   (buildEntry, followed in the same file by the MashOS
        facade: mergeConfig, resolveTimeConfig, rebuildTimeAdapters,
        configure and the per-feature namespaces),

    together with the part of the ECMAScript [Date] built-in these files
    call.  Time values are milliseconds since the epoch as [Z]; a [Date]
    whose time value is NaN is [InvalidDate]; numbers read off a [Date]
    are [option Z] with [None] for NaN. *)

From Stdlib Require Import ZArith QArith Qminmax List Bool Ascii String Lia.
From stdpp Require Import base option gmap strings.

Local Open Scope Z_scope.

(* ===================================================================== *)
(** ** The ECMAScript time-value algorithms *)
(* ===================================================================== *)

Module ES.

Definition msPerDay : Z := 86400000.
Definition msPerHour : Z := 3600000.
Definition msPerMinute : Z := 60000.
Definition msPerSecond : Z := 1000.

(** Largest magnitude of a time value ([TimeClip]). *)
Definition maxTime : Z := 8640000000000000.

Definition Day (t : Z) : Z := t / msPerDay.
Definition TimeWithinDay (t : Z) : Z := t mod msPerDay.

Definition DaysInYear (y : Z) : Z :=
  if negb (y mod 4 =? 0) then 365
  else if negb (y mod 100 =? 0) then 366
  else if negb (y mod 400 =? 0) then 365
  else 366.

Definition DayFromYear (y : Z) : Z :=
  365 * (y - 1970) + (y - 1969) / 4 - (y - 1901) / 100 + (y - 1601) / 400.

Definition TimeFromYear (y : Z) : Z := msPerDay * DayFromYear y.

(** [YearFromDay d] is the largest [y] with [DayFromYear y <= d]
    (lemma [YearFromDay_spec]): an estimate from the mean year length,
    corrected by at most one. *)
Definition YearFromDay (d : Z) : Z :=
  let y := 1970 + (d * 400) / 146097 in
  if d <? DayFromYear y then y - 1
  else if DayFromYear (y + 1) <=? d then y + 1
  else y.

Definition YearFromTime (t : Z) : Z := YearFromDay (Day t).

(** 1 for a leap year, 0 otherwise. *)
Definition leapDays (y : Z) : Z := if DaysInYear y =? 366 then 1 else 0.

Definition InLeapYear (t : Z) : Z := leapDays (YearFromTime t).

Definition DayWithinYear (t : Z) : Z := Day t - DayFromYear (YearFromTime t).

(** First day-within-year of month [m] (0 = January), for a year with
    [leap] extra days. *)
Definition monthStart (leap m : Z) : Z :=
  match m with
  | 0 => 0
  | 1 => 31
  | 2 => 59 + leap
  | 3 => 90 + leap
  | 4 => 120 + leap
  | 5 => 151 + leap
  | 6 => 181 + leap
  | 7 => 212 + leap
  | 8 => 243 + leap
  | 9 => 273 + leap
  | 10 => 304 + leap
  | 11 => 334 + leap
  | _ => 365 + leap
  end.

Definition monthOfDay (leap k : Z) : Z :=
  if k <? 31 then 0
  else if k <? 59 + leap then 1
  else if k <? 90 + leap then 2
  else if k <? 120 + leap then 3
  else if k <? 151 + leap then 4
  else if k <? 181 + leap then 5
  else if k <? 212 + leap then 6
  else if k <? 243 + leap then 7
  else if k <? 273 + leap then 8
  else if k <? 304 + leap then 9
  else if k <? 334 + leap then 10
  else 11.

Definition MonthFromTime (t : Z) : Z :=
  monthOfDay (InLeapYear t) (DayWithinYear t).

Definition DateFromTime (t : Z) : Z :=
  DayWithinYear t - monthStart (InLeapYear t) (MonthFromTime t) + 1.

Definition WeekDay (t : Z) : Z := (Day t + 4) mod 7.

Definition HourFromTime (t : Z) : Z := (t / msPerHour) mod 24.
Definition MinFromTime (t : Z) : Z := (t / msPerMinute) mod 60.
Definition SecFromTime (t : Z) : Z := (t / msPerSecond) mod 60.
Definition msFromTime (t : Z) : Z := t mod msPerSecond.

Definition MakeTime (hour min sec ms : Z) : Z :=
  hour * msPerHour + min * msPerMinute + sec * msPerSecond + ms.

Definition MakeDay (year month date : Z) : Z :=
  let ym := year + month / 12 in
  let mn := month mod 12 in
  DayFromYear ym + monthStart (leapDays ym) mn + date - 1.

Definition MakeDate (day time : Z) : Z := day * msPerDay + time.

(** The constructor's treatment of a year argument: 0..99 mean 1900..1999. *)
Definition MakeFullYear (year : Z) : Z :=
  if (0 <=? year) && (year <=? 99) then 1900 + year else year.

(** Number of days of month [m] (0 = January) of year [y]. *)
Definition DaysInMonth (y m : Z) : Z :=
  match m with
  | 0 => 31
  | 1 => 28 + leapDays y
  | 2 => 31
  | 3 => 30
  | 4 => 31
  | 5 => 30
  | 6 => 31
  | 7 => 31
  | 8 => 30
  | 9 => 31
  | 10 => 30
  | _ => 31
  end.

End ES.

(* ===================================================================== *)
(** ** The host environment and the [Date] built-in *)
(* ===================================================================== *)

(** What the program takes from its host: the local time zone, as a fixed
    offset from UTC in milliseconds (daylight-saving shifts are outside
    this model), and [Date.parse], whose accepted formats beyond the ISO
    one are implementation-defined; what it returns is a time value or NaN. *)
Class HostEnv := {
  LocalTZA : Z;
  Date_parse : string -> option Z;
  LocalTZA_bound : - ES.msPerDay < LocalTZA < ES.msPerDay;
  Date_parse_range :
    forall s t, Date_parse s = Some t -> - ES.maxTime <= t <= ES.maxTime
}.

Module JsDate.
Import ES.

(** A JavaScript number as far as this program computes with it: an
    integer, or NaN. *)
Definition num : Type := option Z.

Definition nsub (a b : num) : num :=
  match a, b with
  | Some x, Some y => Some (x - y)
  | _, _ => None
  end.

Definition nadd (a b : num) : num :=
  match a, b with
  | Some x, Some y => Some (x + y)
  | _, _ => None
  end.

(** [a === k] for a number [a] and an integer literal [k]; NaN equals
    nothing. *)
Definition strict_eq (a : num) (k : Z) : bool :=
  match a with
  | Some x => x =? k
  | None => false
  end.

(** [a < k] and [a >= k]; both are false on NaN. *)
Definition lt_num (a : num) (k : Z) : bool :=
  match a with
  | Some x => x <? k
  | None => false
  end.

Definition ge_num (a : num) (k : Z) : bool :=
  match a with
  | Some x => k <=? x
  | None => false
  end.

Inductive Date : Type :=
  | Valid (t : Z)
  | InvalidDate.

Definition TimeClip (t : Z) : Date :=
  if maxTime <? Z.abs t then InvalidDate else Valid t.

Section Host.
Context `{HostEnv}.

(** Local time and back, by the one offset of the host: what is proved of
    the dates below is proved of a zone whose offset from UTC never changes.
    Where the offset changes (daylight saving) a local day can be 23 or 25
    hours long and a local time can be skipped or repeated. *)
Definition LocalTime (t : Z) : Z := t + LocalTZA.
Definition UTC (t : Z) : Z := t - LocalTZA.

(** [d.getTime()] *)
Definition getTime (d : Date) : num :=
  match d with
  | Valid t => Some t
  | InvalidDate => None
  end.

Definition local_field (f : Z -> Z) (d : Date) : num :=
  match d with
  | Valid t => Some (f (LocalTime t))
  | InvalidDate => None
  end.

Definition getFullYear : Date -> num := local_field YearFromTime.
Definition getMonth : Date -> num := local_field MonthFromTime.
Definition getDate : Date -> num := local_field DateFromTime.
Definition getDay : Date -> num := local_field WeekDay.
Definition getHours : Date -> num := local_field HourFromTime.
Definition getMinutes : Date -> num := local_field MinFromTime.
Definition getSeconds : Date -> num := local_field SecFromTime.
Definition getMilliseconds : Date -> num := local_field msFromTime.

(** [new Date(value)] for a number. *)
Definition new_Date_of_num (v : num) : Date :=
  match v with
  | Some t => TimeClip t
  | None => InvalidDate
  end.

(** [new Date(text)] *)
Definition new_Date_of_string (s : string) : Date :=
  new_Date_of_num (Date_parse s).

(** [new Date(year, month, date, hours, minutes, seconds, ms)], the
    fields read in local time. *)
Definition new_Date7 (year month date hours minutes seconds ms : num) : Date :=
  match year, month, date, hours, minutes, seconds, ms with
  | Some y, Some m, Some dt, Some h, Some mi, Some s, Some milli =>
      let yr := MakeFullYear y in
      let finalDate := MakeDate (MakeDay yr m dt) (MakeTime h mi s milli) in
      TimeClip (UTC finalDate)
  | _, _, _, _, _, _, _ => InvalidDate
  end.

(** [new Date(year, month, date)] *)
Definition new_Date3 (year month date : num) : Date :=
  new_Date7 year month date (Some 0) (Some 0) (Some 0) (Some 0).

(** [d.setDate(date)], returning the updated object. *)
Definition setDate (d : Date) (date : num) : Date :=
  match d, date with
  | Valid t0, Some dt =>
      let t := LocalTime t0 in
      let newDate :=
        MakeDate (MakeDay (YearFromTime t) (MonthFromTime t) dt) (TimeWithinDay t) in
      TimeClip (UTC newDate)
  | _, _ => InvalidDate
  end.

End Host.

(** *** [Date.prototype.toISOString] *)

Definition digit (n : Z) : ascii := ascii_of_nat (48 + Z.to_nat (n mod 10)).

(** The last [w] decimal digits of [n], most significant first. *)
Fixpoint digits (w : nat) (n : Z) : string :=
  match w with
  | O => EmptyString
  | S w' => (digits w' (n / 10) ++ String (digit n) EmptyString)%string
  end.

Definition isoYear (y : Z) : string :=
  if (0 <=? y) && (y <=? 9999) then digits 4 y
  else if y <? 0 then String "-" (digits 6 (- y))
  else String "+" (digits 6 y).

Definition isoString (t : Z) : string :=
  (isoYear (YearFromTime t) ++ "-" ++ digits 2 (MonthFromTime t + 1) ++ "-"
   ++ digits 2 (DateFromTime t) ++ "T" ++ digits 2 (HourFromTime t) ++ ":"
   ++ digits 2 (MinFromTime t) ++ ":" ++ digits 2 (SecFromTime t) ++ "."
   ++ digits 3 (msFromTime t) ++ "Z")%string.

(** *** Reading back the form [toISOString] writes *)

Definition digitVal (c : ascii) : option Z :=
  let n := Z.of_nat (nat_of_ascii c) in
  if (48 <=? n) && (n <=? 57) then Some (n - 48) else None.

Fixpoint numVal (acc : Z) (cs : list ascii) : option Z :=
  match cs with
  | [] => Some acc
  | c :: rest =>
      match digitVal c with
      | Some d => numVal (acc * 10 + d) rest
      | None => None
      end
  end.

Definition field (s : string) (pos len : nat) : option Z :=
  numVal 0 (list_ascii_of_string (substring pos len s)).

Definition sepAt (s : string) (pos : nat) (c : string) : bool :=
  String.eqb (substring pos 1 s) c.

(** The time value of a string of the exact form [YYYY-MM-DDTHH:mm:ss.sssZ]
    that names a calendar date and a clock time; [None] for any other
    string. *)
Definition parseIso (s : string) : option Z :=
  if Nat.eqb (String.length s) 24
     && sepAt s 4 "-" && sepAt s 7 "-" && sepAt s 10 "T" && sepAt s 13 ":"
     && sepAt s 16 ":" && sepAt s 19 "." && sepAt s 23 "Z"
  then
    match field s 0 4, field s 5 2, field s 8 2, field s 11 2, field s 14 2,
          field s 17 2, field s 20 3 with
    | Some y, Some m, Some d, Some h, Some mi, Some sec, Some ms =>
        if (1 <=? m) && (m <=? 12) && (1 <=? d) && (d <=? DaysInMonth y (m - 1))
           && (h <=? 23) && (mi <=? 59) && (sec <=? 59)
        then Some (MakeDate (MakeDay y (m - 1) d) (MakeTime h mi sec ms))
        else None
    | _, _, _, _, _, _, _ => None
    end
  else None.

(** Outcome of a call that may raise. *)
Inductive Completion (A : Type) : Type :=
  | Normal (a : A)
  | ThrowRangeError.
Arguments Normal {A} a.
Arguments ThrowRangeError {A}.

(** [d.toISOString()] raises a RangeError on an invalid date. *)
Definition toISOString (d : Date) : Completion string :=
  match d with
  | Valid t => Normal (isoString t)
  | InvalidDate => ThrowRangeError
  end.

End JsDate.

(* ===================================================================== *)
(** ** mywebCore *)
(* ===================================================================== *)

Module MyWebCore.
Import ES JsDate.

Record PeriodRange : Type := { start : Date; end_ : Date }.

Section Host.
Context `{HostEnv}.

Definition startOfDay (d : Date) : Date :=
  new_Date7 (getFullYear d) (getMonth d) (getDate d) (Some 0) (Some 0) (Some 0) (Some 0).

Definition endOfDay (d : Date) : Date :=
  new_Date7 (getFullYear d) (getMonth d) (getDate d)
            (Some 23) (Some 59) (Some 59) (Some 999).

Definition startOfWeekSunday (d : Date) : Date :=
  let day := getDay d in
  let s := startOfDay (new_Date3 (getFullYear d) (getMonth d) (getDate d)) in
  setDate s (nsub (getDate s) day).

Definition endOfWeekSaturday (d : Date) : Date :=
  let s := startOfWeekSunday d in
  new_Date7 (getFullYear s) (getMonth s) (nadd (getDate s) (Some 6))
            (Some 23) (Some 59) (Some 59) (Some 999).

Definition startOfMonth (d : Date) : Date :=
  new_Date7 (getFullYear d) (getMonth d) (Some 1) (Some 0) (Some 0) (Some 0) (Some 0).

Definition endOfMonth (d : Date) : Date :=
  new_Date7 (getFullYear d) (nadd (getMonth d) (Some 1)) (Some 0)
            (Some 23) (Some 59) (Some 59) (Some 999).

Definition isWeeklyReportTrigger (d : Date) : bool :=
  strict_eq (getDay d) 0 && strict_eq (getHours d) 7 && strict_eq (getMinutes d) 0.

Definition isMonthlyReportTrigger (d : Date) : bool :=
  strict_eq (getDate d) 1 && strict_eq (getHours d) 7 && strict_eq (getMinutes d) 0.

Definition getCompletedWeeklyRangeFrom (ref : Date) : PeriodRange :=
  let thisWeekStart := startOfWeekSunday ref in
  let lastWeekEnd := new_Date_of_num (nsub (getTime thisWeekStart) (Some 1)) in
  let lastWeekStart :=
    startOfWeekSunday
      (new_Date3 (getFullYear lastWeekEnd) (getMonth lastWeekEnd) (getDate lastWeekEnd)) in
  {| start := lastWeekStart; end_ := lastWeekEnd |}.

Definition getCurrentWeeklyRangeContaining (ref : Date) : PeriodRange :=
  {| start := startOfWeekSunday ref; end_ := endOfWeekSaturday ref |}.

Definition getCompletedMonthlyRangeFrom (ref : Date) : PeriodRange :=
  let thisMonthStart := startOfMonth ref in
  let lastMonthEnd := new_Date_of_num (nsub (getTime thisMonthStart) (Some 1)) in
  let lastMonthStart := startOfMonth lastMonthEnd in
  {| start := lastMonthStart; end_ := lastMonthEnd |}.

Definition getCurrentMonthlyRangeContaining (ref : Date) : PeriodRange :=
  {| start := startOfMonth ref; end_ := endOfMonth ref |}.

End Host.
End MyWebCore.

(* ===================================================================== *)
(** ** types.ts *)
(* ===================================================================== *)

Module Types.
Import JsDate.

Inductive Feature : Type := input | myweb | flower.

#[global] Instance Feature_eq_dec : EqDecision Feature.
Proof. solve_decision. Defined.

Inductive TimeMode : Type := off | snapshot | interval.

(** A value of the [freezeTo] property: [null], a [Date], a string or a
    number of epoch milliseconds. *)
Inductive FreezeTo : Type :=
  | FNull
  | FDate (d : Date)
  | FString (s : string)
  | FNumber (n : Z).

(** A [TimeConfig] object as it exists at run time: each property is
    present ([Some]) or absent ([None]).  The type requires [mode], but
    [mergeConfig] can build entries without it. *)
Record TimeConfig : Type := {
  mode : option TimeMode;
  intervalMs : option Z;
  freezeTo : option FreezeTo
}.

(** [MashOSConfig]: the [time.default] entry and the [time.perFeature]
    object, keyed by property name. *)
Record MashOSConfig : Type := {
  default : TimeConfig;
  perFeature : gmap string TimeConfig
}.

(** The [time] part of a [Partial<MashOSConfig>]. *)
Record PartialTime : Type := {
  p_default : option TimeConfig;
  p_perFeature : option (gmap string TimeConfig)
}.

Record PartialConfig : Type := { p_time : option PartialTime }.

(** [MashTime]: [now ()], as a function of the wall clock at the moment
    of the call. *)
Record MashTime : Type := { now : Z -> Date }.

Record EmotionEntry : Type := {
  emotions : list string;
  memo : option string;
  created_at : option string
}.

End Types.

(* ===================================================================== *)
(** ** timeService.ts *)
(* ===================================================================== *)

Module TimeService.
Import JsDate Types.

(** Identity of a subscriber callback. *)
Definition Callback : Type := nat.

(** The closure state of an interval adapter: the [listeners] set in
    insertion order and the [timer] variable. *)
Record AdapterState : Type := {
  listeners : list Callback;
  timer : option nat
}.

(** An adapter object: its identity, the configuration its closures
    captured, and whether it carries [subscribe] and [__dispose]. *)
Record Adapter : Type := {
  ad_id : nat;
  ad_cfg : TimeConfig;
  ad_interval : bool
}.

(** An interval timer of the host: the adapter whose closure it runs and
    its period. *)
Record Timer : Type := { tm_owner : nat; tm_interval : Z }.

(** The world the adapters live in: the wall clock, the closure states of
    the adapters created so far, the host's running interval timers, and
    the log of subscriber invocations (oldest first). *)
Record World : Type := {
  wall : Z;
  closures : gmap nat AdapterState;
  next_adapter : nat;
  timers : gmap nat Timer;
  next_timer : nat;
  calls : list (Callback * Date)
}.

Definition set_closure (a : nat) (s : AdapterState) (w : World) : World :=
  {| wall := wall w; closures := <[a := s]> (closures w);
     next_adapter := next_adapter w; timers := timers w;
     next_timer := next_timer w; calls := calls w |}.

Definition log_calls (l : list (Callback * Date)) (w : World) : World :=
  {| wall := wall w; closures := closures w; next_adapter := next_adapter w;
     timers := timers w; next_timer := next_timer w; calls := calls w ++ l |}.

(** [setInterval]: timer ids count from [next_timer], which starts at 1,
    so every id is truthy. *)
Definition setInterval (owner : nat) (ms : Z) (w : World) : nat * World :=
  (next_timer w,
   {| wall := wall w; closures := closures w; next_adapter := next_adapter w;
      timers := <[next_timer w := {| tm_owner := owner; tm_interval := ms |}]> (timers w);
      next_timer := S (next_timer w); calls := calls w |}).

Definition clearInterval (id : nat) (w : World) : World :=
  {| wall := wall w; closures := closures w; next_adapter := next_adapter w;
     timers := delete id (timers w); next_timer := next_timer w; calls := calls w |}.

Section Host.
Context `{HostEnv}.

(** [resolveNow freezeTo], the wall clock reading [clock]; [None] is
    [undefined]. *)
Definition resolveNow (clock : Z) (freezeTo : option FreezeTo) : Date :=
  match freezeTo with
  | None | Some FNull => Valid clock
  | Some (FDate d) => new_Date_of_num (getTime d)
  | Some (FNumber n) => new_Date_of_num (Some n)
  | Some (FString s) => new_Date_of_string s
  end.

(** [cfg.freezeTo ?? null] *)
Definition orNull (f : option FreezeTo) : option FreezeTo :=
  match f with
  | None => Some FNull
  | Some v => Some v
  end.

Definition baseNow (cfg : TimeConfig) (clock : Z) : Date :=
  resolveNow clock (orNull (freezeTo cfg)).

(** The [now] method of an adapter. *)
Definition adapter_time (a : Adapter) : MashTime :=
  {| now := baseNow (ad_cfg a) |}.

(** [stop()] in the closure of adapter [a]. *)
Definition stop (a : nat) (w : World) : World :=
  match closures w !! a with
  | Some s =>
      match timer s with
      | Some id =>
          set_closure a {| listeners := listeners s; timer := None |} (clearInterval id w)
      | None => w
      end
  | None => w
  end.

(** [start()] in the closure of adapter [a]. *)
Definition start_timer (a : nat) (ms : Z) (w : World) : World :=
  let w1 := stop a w in
  let '(id, w2) := setInterval a ms w1 in
  match closures w2 !! a with
  | Some s => set_closure a {| listeners := listeners s; timer := Some id |} w2
  | None => w2
  end.

Definition createTimeAdapter (cfg : TimeConfig) (w : World) : Adapter * World :=
  let a := next_adapter w in
  let w0 :=
    {| wall := wall w; closures := closures w; next_adapter := S a;
       timers := timers w; next_timer := next_timer w; calls := calls w |} in
  match mode cfg with
  | Some snapshot | Some off =>
      ({| ad_id := a; ad_cfg := cfg; ad_interval := false |}, w0)
  | _ =>
      let intervalMs := match intervalMs cfg with Some n => n | None => 60000 end in
      let w1 := set_closure a {| listeners := []; timer := None |} w0 in
      ({| ad_id := a; ad_cfg := cfg; ad_interval := true |}, start_timer a intervalMs w1)
  end.

(** [listeners.add(cb)] on a set kept in insertion order. *)
Definition set_add (cb : Callback) (l : list Callback) : list Callback :=
  if existsb (Nat.eqb cb) l then l else l ++ [cb].

(** [listeners.delete(cb)] *)
Definition set_delete (cb : Callback) (l : list Callback) : list Callback :=
  List.filter (fun x => negb (Nat.eqb cb x)) l.

(** [adapter.subscribe(cb)]: register, notify once, and hand back the
    unsubscribe closure, which is determined by the adapter and [cb].  A
    callback that raises is caught; what a callback does besides is not
    part of this model. *)
Definition subscribe (a : Adapter) (cb : Callback) (w : World) : World :=
  match closures w !! ad_id a with
  | Some s =>
      let w1 := set_closure (ad_id a)
                  {| listeners := set_add cb (listeners s); timer := timer s |} w in
      log_calls [(cb, baseNow (ad_cfg a) (wall w1))] w1
  | None => w
  end.

(** The closure returned by [subscribe a cb]. *)
Definition unsubscribe (a : Adapter) (cb : Callback) (w : World) : World :=
  match closures w !! ad_id a with
  | Some s =>
      set_closure (ad_id a)
        {| listeners := set_delete cb (listeners s); timer := timer s |} w
  | None => w
  end.

(** One firing of the interval timer of adapter [a]: every listener gets
    the same instant. *)
Definition tick (a : Adapter) (w : World) : World :=
  match closures w !! ad_id a with
  | Some s =>
      match timer s with
      | Some id =>
          match timers w !! id with
          | Some _ =>
              let t := baseNow (ad_cfg a) (wall w) in
              log_calls (map (fun fn => (fn, t)) (listeners s)) w
          | None => w
          end
      | None => w
      end
  | None => w
  end.

(** [adapter.__dispose()] *)
Definition dispose (a : nat) (w : World) : World := stop a w.

End Host.

(** The wall clock moves on. *)
Definition advance (clock : Z) (w : World) : World :=
  {| wall := clock; closures := closures w; next_adapter := next_adapter w;
     timers := timers w; next_timer := next_timer w; calls := calls w |}.

End TimeService.

(* ===================================================================== *)
(** ** inputCore.ts: buildEntry *)
(* ===================================================================== *)

Module InputCore.
Import JsDate Types.

Record BuildEntryPayload : Type := {
  bp_emotions : list string;
  bp_memo : option string
}.

Record BuildEntryOptions : Type := { bo_time : option MashTime }.

Definition buildEntry (clock : Z) (payload : BuildEntryPayload)
    (opts : option BuildEntryOptions) : Completion EmotionEntry :=
  let time := match opts with Some o => bo_time o | None => None end in
  match time with
  | Some tm =>
      match toISOString (now tm clock) with
      | Normal s =>
          Normal {| emotions := bp_emotions payload; memo := bp_memo payload;
                    created_at := Some s |}
      | ThrowRangeError => ThrowRangeError
      end
  | None =>
      Normal {| emotions := bp_emotions payload; memo := bp_memo payload;
                created_at := None |}
  end.

End InputCore.

(* ===================================================================== *)
(** ** flowerCore *)
(* ===================================================================== *)

Module Weather.
Inductive t : Type := sunny | cloudy | rainy | night.
End Weather.

Module TimeBand.
Inductive t : Type := night | morning | afternoon | evening.
End TimeBand.

Module FlowerCore.
Import JsDate Types.

Inductive Strength : Type := weak | medium | strong.

Record EmotionWithStrength : Type := {
  type_ : string;
  strength : option Strength
}.

Record AnalyzeArgs : Type := {
  emotions : list EmotionWithStrength;
  memo : option string;
  time : option MashTime
}.

(** Numbers of the flower state are decimal literals or sums and products
    of a few of them; they are kept as exact rationals. *)
Record ToneColor : Type := { h : Q; s : Q; l : Q }.
Record Shape : Type := { spread : Q }.
Record Animation : Type := { sway : Q; breathAmplitude : Q; bloomSpeed : Q }.
Record Flower : Type := {
  toneColor : ToneColor;
  shape : Shape;
  animation : Animation
}.
Record Climate : Type := { weather : Weather.t }.

Record FlowerState : Type := {
  flower : Flower;
  climate : option Climate;
  annotated_at : option string
}.

Record AnnotateInput (T : Type) : Type := {
  ai_data : T;
  ai_time : option MashTime
}.
Arguments ai_data {T} _.
Arguments ai_time {T} _.

Record Annotation (T : Type) : Type := {
  data : T;
  timeBand : option TimeBand.t;
  an_annotated_at : option string
}.
Arguments data {T} _.
Arguments timeBand {T} _.
Arguments an_annotated_at {T} _.

(** [types.includes(x)] *)
Definition includes (types : list string) (x : string) : bool :=
  existsb (String.eqb x) types.

(** Truthiness of a number that is 0 or 1. *)
Definition truthy (n : Z) : bool := negb (n =? 0).

(** [now ? now.toISOString() : undefined] *)
Definition isoOrUndefined (now : option Date) : Completion (option string) :=
  match now with
  | Some d =>
      match toISOString d with
      | Normal s => Normal (Some s)
      | ThrowRangeError => ThrowRangeError
      end
  | None => Normal None
  end.

Section Host.
Context `{HostEnv}.

(** [typeof now?.getHours === "function" ? now.getHours() : undefined]:
    [None] is [undefined], [Some None] is NaN. *)
Definition hourOf (now : option Date) : option num :=
  match now with
  | Some d => Some (getHours d)
  | None => None
  end.

Definition annotate {T : Type} (clock : Z) (input : AnnotateInput T)
    : Completion (Annotation T) :=
  let now := match ai_time input with Some tm => Some (Types.now tm clock) | None => None end in
  let hr := hourOf now in
  let timeBand :=
    match hr with
    | Some hr =>
        Some (if lt_num hr 5 then TimeBand.night
              else if lt_num hr 11 then TimeBand.morning
              else if lt_num hr 17 then TimeBand.afternoon
              else TimeBand.evening)
    | None => None
    end in
  match isoOrUndefined now with
  | Normal at_ =>
      Normal {| data := ai_data input; timeBand := timeBand; an_annotated_at := at_ |}
  | ThrowRangeError => ThrowRangeError
  end.

Definition analyze (clock : Z) (args : AnalyzeArgs) : Completion FlowerState :=
  let now := match time args with Some tm => Some (Types.now tm clock) | None => None end in
  let types := map type_ (emotions args) in
  let joy : Z := if includes types "喜び" then 1 else 0 in
  let sad : Z := if includes types "悲しみ" then 1 else 0 in
  let anger : Z := if includes types "怒り" then 1 else 0 in
  let anxiety : Z := if includes types "不安" then 1 else 0 in
  let peace : Z := if includes types "平穏" then 1 else 0 in
  let h : Q :=
    (if truthy joy then 50 else if truthy sad then 220 else if truthy anger then 0
     else if truthy anxiety then 200 else if truthy peace then 120 else 200)%Q in
  let s : Q :=
    (if truthy joy || truthy anger then 0.70 else if truthy sad then 0.45
     else if truthy anxiety then 0.55 else if truthy peace then 0.35 else 0.5)%Q in
  let l : Q :=
    (if truthy peace then 0.70 else if truthy joy then 0.60 else if truthy sad then 0.45
     else if truthy anger then 0.45 else 0.55)%Q in
  let spread : Q :=
    Qmin 1 (inject_Z (joy + peace) * 0.6
            + (if (3 <=? Z.of_nat (length types))%Z then 0.2 else 0))%Q in
  let sway : Q :=
    (if truthy anxiety then 0.8 else if truthy peace then 0.2 else 0.5)%Q in
  let breathAmplitude : Q :=
    (if truthy joy then 0.20 else if truthy sad then 0.10 else 0.15)%Q in
  let bloomSpeed : Q :=
    (if truthy joy then 1.0 else if truthy sad then 0.6 else if truthy anxiety then 0.7
     else if truthy anger then 0.8 else 0.9)%Q in
  let hour := hourOf now in
  let weather :=
    match hour with
    | Some hour =>
        if lt_num hour 5 || ge_num hour 22 then Weather.night
        else if truthy joy then Weather.sunny
        else if truthy sad then Weather.rainy
        else Weather.cloudy
    | None => Weather.cloudy
    end in
  match isoOrUndefined now with
  | Normal at_ =>
      Normal
        {| flower :=
             {| toneColor := {| h := h; s := s; l := l |};
                shape := {| spread := spread |};
                animation := {| sway := sway; breathAmplitude := breathAmplitude;
                                bloomSpeed := bloomSpeed |} |};
           climate := Some {| weather := weather |};
           annotated_at := at_ |}
  | ThrowRangeError => ThrowRangeError
  end.

End Host.
End FlowerCore.

(* ===================================================================== *)
(** ** inputCore.ts: the MashOS facade *)
(* ===================================================================== *)

Module MashOS.
Import JsDate Types TimeService.

Definition FEATURES : list Feature := [input; myweb; flower].

(** The property name of a feature. *)
Definition featureKey (f : Feature) : string :=
  match f with
  | input => "input"
  | myweb => "myweb"
  | flower => "flower"
  end.

Definition Feature_eqb (f g : Feature) : bool :=
  match f, g with
  | input, input | myweb, myweb | flower, flower => true
  | _, _ => false
  end.

(** [m[f] = v] on a record indexed by feature. *)
Definition upd {A : Type} (f : Feature) (v : A) (m : Feature -> A) : Feature -> A :=
  fun g => if Feature_eqb f g then v else m g.

(** The module state: [config], [timeMap] and [disposers]; a disposer is
    the [__dispose] closure of the adapter with the recorded identity. *)
Record State : Type := {
  config : MashOSConfig;
  timeMap : Feature -> option Adapter;
  disposers : Feature -> option nat
}.

Definition initialConfig : MashOSConfig :=
  {| default := {| mode := Some snapshot; intervalMs := None; freezeTo := None |};
     perFeature := ∅ |}.

(** *** [JSON.parse(JSON.stringify(base))]

    A [Date] is written as its ISO string, an invalid [Date] as [null];
    strings, numbers and [null] come back as they were, and an absent
    property stays absent. *)
Definition jsonFreezeTo (f : FreezeTo) : FreezeTo :=
  match f with
  | FDate (Valid t) => FString (isoString t)
  | FDate InvalidDate => FNull
  | FNull => FNull
  | FString s => FString s
  | FNumber n => FNumber n
  end.

Definition jsonTimeConfig (tc : TimeConfig) : TimeConfig :=
  {| mode := mode tc; intervalMs := intervalMs tc;
     freezeTo := option_map jsonFreezeTo (freezeTo tc) |}.

Definition jsonClone (c : MashOSConfig) : MashOSConfig :=
  {| default := jsonTimeConfig (default c);
     perFeature := jsonTimeConfig <$> perFeature c |}.

(** [{ ...prev, ...src }] on two [TimeConfig] objects each property of
    which carries a value or is left out: a property of [src] replaces that
    of [prev], and a property [src] leaves out keeps it.  (A property set to
    [undefined], which the spread would copy too, is not a value of this
    model.) *)
Definition spread (prev src : TimeConfig) : TimeConfig :=
  {| mode := match mode src with Some v => Some v | None => mode prev end;
     intervalMs := match intervalMs src with Some v => Some v | None => intervalMs prev end;
     freezeTo := match freezeTo src with Some v => Some v | None => freezeTo prev end |}.

(** The empty object [{}]. *)
Definition emptyTimeConfig : TimeConfig :=
  {| mode := None; intervalMs := None; freezeTo := None |}.

(** One round of the loop over [Object.keys(src)]. *)
Definition mergeEntry (k : string) (v : TimeConfig) (out : gmap string TimeConfig)
    : gmap string TimeConfig :=
  let prev := match out !! k with Some p => p | None => emptyTimeConfig end in
  <[k := spread prev v]> out.

Definition mergeConfig (base : MashOSConfig) (next : PartialConfig) : MashOSConfig :=
  let out := jsonClone base in
  match p_time next with
  | Some nt =>
      let out1 :=
        match p_default nt with
        | Some d => {| default := spread (default out) d; perFeature := perFeature out |}
        | None => out
        end in
      match p_perFeature nt with
      | Some src =>
          {| default := default out1;
             perFeature := map_fold mergeEntry (perFeature out1) src |}
      | None => out1
      end
  | None => out
  end.

Definition resolveTimeConfig (c : MashOSConfig) (feature : Feature) : TimeConfig :=
  match perFeature c !! featureKey feature with
  | Some tc => tc
  | None => default c
  end.

Section Host.
Context `{HostEnv}.

(** The first loop of [rebuildTimeAdapters], one feature. *)
Definition disposeStep (sw : State * World) (f : Feature) : State * World :=
  let '(st, w) := sw in
  match disposers st f with
  | Some a =>
      ({| config := config st; timeMap := timeMap st;
          disposers := upd f None (disposers st) |},
       dispose a w)
  | None => sw
  end.

(** The second loop, one feature. *)
Definition rebuildStep (sw : State * World) (f : Feature) : State * World :=
  let '(st, w) := sw in
  let tc := resolveTimeConfig (config st) f in
  match mode tc with
  | Some off =>
      ({| config := config st; timeMap := upd f None (timeMap st);
          disposers := disposers st |}, w)
  | _ =>
      let '(adapter, w') := createTimeAdapter tc w in
      ({| config := config st;
          timeMap := upd f (Some adapter) (timeMap st);
          disposers := if ad_interval adapter
                       then upd f (Some (ad_id adapter)) (disposers st)
                       else disposers st |},
       w')
  end.

Definition rebuildTimeAdapters (sw : State * World) : State * World :=
  fold_left rebuildStep FEATURES (fold_left disposeStep FEATURES sw).

(** [MashOS.configure(next)] *)
Definition configure (next : PartialConfig) (sw : State * World) : State * World :=
  let '(st, w) := sw in
  rebuildTimeAdapters
    ({| config := mergeConfig (config st) next; timeMap := timeMap st;
        disposers := disposers st |}, w).

(** The world before the module is loaded, the wall clock reading [clock]. *)
Definition emptyWorld (clock : Z) : World :=
  {| wall := clock; closures := ∅; next_adapter := 0%nat; timers := ∅;
     next_timer := 1%nat; calls := [] |}.

(** Loading the module: the initial state and the first rebuild. *)
Definition boot (clock : Z) : State * World :=
  rebuildTimeAdapters
    ({| config := initialConfig; timeMap := fun _ => None; disposers := fun _ => None |},
     emptyWorld clock).

(** [timeMap.f] as the [time] argument of the core functions. *)
Definition timeOf (st : State) (f : Feature) : option MashTime :=
  option_map adapter_time (timeMap st f).

(** *** The [input] namespace *)
Definition input_buildEntry (payload : InputCore.BuildEntryPayload) (st : State) (w : World)
    : Completion EmotionEntry :=
  InputCore.buildEntry (wall w) payload (Some {| InputCore.bo_time := timeOf st input |}).

(** *** The [myweb] namespace *)

(** [timeMap.myweb?.now() ?? new Date()] *)
Definition mywebNow (st : State) (w : World) : Date :=
  match timeOf st myweb with
  | Some tm => now tm (wall w)
  | None => Valid (wall w)
  end.

Definition isWeeklyReportNow (st : State) (w : World) : bool :=
  MyWebCore.isWeeklyReportTrigger (mywebNow st w).
Definition isMonthlyReportNow (st : State) (w : World) : bool :=
  MyWebCore.isMonthlyReportTrigger (mywebNow st w).
Definition completedWeeklyRangeForNow (st : State) (w : World) : MyWebCore.PeriodRange :=
  MyWebCore.getCompletedWeeklyRangeFrom (mywebNow st w).
Definition completedMonthlyRangeForNow (st : State) (w : World) : MyWebCore.PeriodRange :=
  MyWebCore.getCompletedMonthlyRangeFrom (mywebNow st w).
Definition currentWeeklyRange (st : State) (w : World) : MyWebCore.PeriodRange :=
  MyWebCore.getCurrentWeeklyRangeContaining (mywebNow st w).
Definition currentMonthlyRange (st : State) (w : World) : MyWebCore.PeriodRange :=
  MyWebCore.getCurrentMonthlyRangeContaining (mywebNow st w).

(** *** The [flower] namespace (the deprecated [mymodel] namespace forwards
    to the same calls after a console warning) *)
Definition flower_annotate {T : Type} (data : T) (st : State) (w : World)
    : Completion (FlowerCore.Annotation T) :=
  FlowerCore.annotate (wall w)
    {| FlowerCore.ai_data := data; FlowerCore.ai_time := timeOf st flower |}.

Definition flower_analyze (emotions : list FlowerCore.EmotionWithStrength)
    (memo : option string) (st : State) (w : World) : Completion FlowerCore.FlowerState :=
  FlowerCore.analyze (wall w)
    {| FlowerCore.emotions := emotions; FlowerCore.memo := memo;
       FlowerCore.time := timeOf st flower |}.

(** *** Runs of the program

    After loading, the program is reconfigured, the clock moves, timers
    fire, and holders of an adapter subscribe and unsubscribe. *)
Inductive Reachable : State -> World -> Prop :=
  | R_boot clock : Reachable (fst (boot clock)) (snd (boot clock))
  | R_configure st w next :
      Reachable st w ->
      Reachable (fst (configure next (st, w))) (snd (configure next (st, w)))
  | R_advance st w clock : Reachable st w -> Reachable st (advance clock w)
  | R_tick st w a : Reachable st w -> Reachable st (tick a w)
  | R_subscribe st w a cb : Reachable st w -> Reachable st (subscribe a cb w)
  | R_unsubscribe st w a cb : Reachable st w -> Reachable st (unsubscribe a cb w).

End Host.
End MashOS.

(** *** Reference instants of the period functions

    The period functions rebuild dates through the [Date] constructor, which
    reads a year argument in 0..99 as 1900..1999, and step back by up to a
    month, which must stay inside the range of time values.  [supportedRef t]
    holds of the time values whose local year is outside 0..100 and that lie
    at least a hundred days above the lower end of the range. *)
Definition supportedRef `{HostEnv} (t : Z) : bool :=
  (- ES.maxTime + 100 * ES.msPerDay <=? t) && (t <=? ES.maxTime)
  && ((ES.YearFromTime (JsDate.LocalTime t) <? 0)
      || (100 <? ES.YearFromTime (JsDate.LocalTime t))).

(** The seven local fields of a date, as the getters report them. *)
Definition localFields `{HostEnv} (d : JsDate.Date) : list JsDate.num :=
  [JsDate.getFullYear d; JsDate.getMonth d; JsDate.getDate d; JsDate.getHours d;
   JsDate.getMinutes d; JsDate.getSeconds d; JsDate.getMilliseconds d].

(** The four clock fields of a date. *)
Definition clockFields `{HostEnv} (d : JsDate.Date) : list JsDate.num :=
  [JsDate.getHours d; JsDate.getMinutes d; JsDate.getSeconds d;
   JsDate.getMilliseconds d].

(** What the specification says of the completed weekly range at the
    reference instant [t]: it ends one millisecond before the start of the
    current week's range, spans seven days less a millisecond, runs from a
    local Sunday 00:00:00.000 to a local Saturday 23:59:59.999, and is the
    week before the week of [t]. *)
Definition completedWeekIsPreviousWeek `{HostEnv} (t : Z) : Prop :=
  let r := MyWebCore.getCompletedWeeklyRangeFrom (JsDate.Valid t) in
  let c := MyWebCore.getCurrentWeeklyRangeContaining (JsDate.Valid t) in
  exists s e c0 : Z,
    MyWebCore.start r = JsDate.Valid s /\ MyWebCore.end_ r = JsDate.Valid e
    /\ MyWebCore.start c = JsDate.Valid c0
    /\ e = c0 - 1
    /\ e - s = 7 * ES.msPerDay - 1
    /\ JsDate.getDay (JsDate.Valid s) = Some 0
    /\ clockFields (JsDate.Valid s) = [Some 0; Some 0; Some 0; Some 0]
    /\ JsDate.getDay (JsDate.Valid e) = Some 6
    /\ clockFields (JsDate.Valid e) = [Some 23; Some 59; Some 59; Some 999]
    /\ ES.Day (JsDate.LocalTime s) + 7 <= ES.Day (JsDate.LocalTime t)
       < ES.Day (JsDate.LocalTime s) + 14.

(** What the specification says of the completed monthly range at the
    reference instant [t]: the first day 00:00:00.000 through the last day
    23:59:59.999 of the calendar month before that of [t]. *)
Definition completedMonthIsPreviousMonth `{HostEnv} (t : Z) : Prop :=
  let r := MyWebCore.getCompletedMonthlyRangeFrom (JsDate.Valid t) in
  let y := ES.YearFromTime (JsDate.LocalTime t) in
  let m := ES.MonthFromTime (JsDate.LocalTime t) in
  let py := if m =? 0 then y - 1 else y in
  let pm := if m =? 0 then 11 else m - 1 in
  localFields (MyWebCore.start r)
  = [Some py; Some pm; Some 1; Some 0; Some 0; Some 0; Some 0]
  /\ localFields (MyWebCore.end_ r)
    = [Some py; Some pm; Some (ES.DaysInMonth py pm);
       Some 23; Some 59; Some 59; Some 999].

(** [d] is an instant of a local Sunday, at 07:00 and any second and
    millisecond: day [day] is a Sunday (day 0 of the epoch was a Thursday). *)
Definition sundaySevenSharp `{HostEnv} (d : JsDate.Date) : Prop :=
  exists t day s ms : Z,
    d = JsDate.Valid t /\ (day + 4) mod 7 = 0
    /\ 0 <= s <= 59 /\ 0 <= ms <= 999
    /\ JsDate.LocalTime t = ES.MakeDate day (ES.MakeTime 7 0 s ms).

(** [d] is an instant of the first day of a local calendar month, at 07:00
    and any second and millisecond. *)
Definition firstOfMonthSevenSharp `{HostEnv} (d : JsDate.Date) : Prop :=
  exists t y m s ms : Z,
    d = JsDate.Valid t /\ 0 <= m <= 11
    /\ 0 <= s <= 59 /\ 0 <= ms <= 999
    /\ JsDate.LocalTime t = ES.MakeDate (ES.MakeDay y m 1) (ES.MakeTime 7 0 s ms).

(** *** The specification's reading of the flower analysis *)

Module FlowerSpec.
Import JsDate Types FlowerCore.

(** The date a call reads off its time source, if it has one. *)
Definition reading (clock : Z) (tm : option MashTime) : option Date :=
  match tm with
  | Some tm => Some (now tm clock)
  | None => None
  end.

(** The five canonical emotion labels and the strings that carry them. *)
Inductive Label : Type := joy | sadness | anger | anxiety | calm.

Definition labelText (x : Label) : string :=
  match x with
  | joy => "喜び"
  | sadness => "悲しみ"
  | anger => "怒り"
  | anxiety => "不安"
  | calm => "平穏"
  end.

(** The label occurs among the emotions. *)
Definition present (x : Label) (es : list EmotionWithStrength) : Prop :=
  In (labelText x) (map type_ es).

Definition presentb (x : Label) (es : list EmotionWithStrength) : bool :=
  if in_dec string_dec (labelText x) (map type_ es) then true else false.

(** The per-label table: the tone of an input that carries the label alone
    (lemma [toneOf_single]). *)
Definition toneOf (x : Label) : ToneColor :=
  match x with
  | joy => {| h := 50; s := 0.70; l := 0.60 |}
  | sadness => {| h := 220; s := 0.45; l := 0.45 |}
  | anger => {| h := 0; s := 0.70; l := 0.45 |}
  | anxiety => {| h := 200; s := 0.55; l := 0.55 |}
  | calm => {| h := 120; s := 0.35; l := 0.70 |}
  end%Q.

Definition defaultTone : ToneColor := {| h := 200; s := 0.5; l := 0.55 |}%Q.

(** The first label of [order] that is present. *)
Fixpoint firstPresent (order : list Label) (es : list EmotionWithStrength)
    : option Label :=
  match order with
  | [] => None
  | x :: rest => if presentb x es then Some x else firstPresent rest es
  end.

(** First match in the order [order], else the default. *)
Definition toneByPriority (order : list Label) (es : list EmotionWithStrength)
    : ToneColor :=
  match firstPresent order es with
  | Some x => toneOf x
  | None => defaultTone
  end.

(** The priority order of the specification. *)
Definition priority : list Label := [joy; sadness; anger; anxiety; calm].

(** The orders the saturation and the lightness follow in the code. *)
Definition saturationOrder : list Label := [joy; anger; sadness; anxiety; calm].
Definition lightnessOrder : list Label := [calm; joy; sadness; anger; anxiety].

(** The weather of the specification, for a local hour and the emotions. *)
Definition weatherAt (hour : Z) (es : list EmotionWithStrength) : Weather.t :=
  if (hour <? 5) || (22 <=? hour) then Weather.night
  else if presentb joy es then Weather.sunny
  else if presentb sadness es then Weather.rainy
  else Weather.cloudy.

(** The time band of the specification, for a local hour. *)
Definition bandAt (hour : Z) : TimeBand.t :=
  if hour <? 5 then TimeBand.night
  else if (5 <=? hour) && (hour <? 11) then TimeBand.morning
  else if (11 <=? hour) && (hour <? 17) then TimeBand.afternoon
  else TimeBand.evening.

(** An emotion carrying a label, without strength. *)
Definition emotion (x : Label) : EmotionWithStrength :=
  {| type_ := labelText x; strength := None |}.

(** What the specification says of the tone: hue, saturation and lightness
    are those of the first label present in the one priority order. *)
Definition tonePicksByPriority `{HostEnv} (clock : Z) (args : AnalyzeArgs) : Prop :=
  exists r,
    analyze clock args = Normal r
    /\ toneColor (flower r) = toneByPriority priority (emotions args).

(** What the specification says of [annotate] on every input: it returns,
    with the data as given. *)
Definition annotateKeepsData `{HostEnv} {T : Type} (clock : Z) (input : AnnotateInput T)
    : Prop :=
  exists r, annotate clock input = Normal r /\ data r = ai_data input.

End FlowerSpec.

(** *** The specification's reading of the time adapter *)

Module AdapterSpec.
Import JsDate Types TimeService.

(** A [Date] object holds a time value within the range, or NaN. *)
Definition wfDate (d : Date) : Prop :=
  match d with
  | Valid t => - ES.maxTime <= t <= ES.maxTime
  | InvalidDate => True
  end.

Definition wfFreezeTo (f : FreezeTo) : Prop :=
  match f with
  | FDate d => wfDate d
  | _ => True
  end.

(** The instant a [freezeTo] value names: the date itself, the number as
    epoch milliseconds, the string as the host parses it; a number outside
    the range of time values or a string the host cannot parse names the
    invalid instant. *)
Definition frozenInstant `{HostEnv} (f : FreezeTo) : Date :=
  match f with
  | FNull => InvalidDate
  | FDate d => d
  | FNumber n =>
      if (- ES.maxTime <=? n) && (n <=? ES.maxTime) then Valid n else InvalidDate
  | FString s =>
      match Date_parse s with
      | Some t => Valid t
      | None => InvalidDate
      end
  end.

(** Adapter [a] has its interval timer running in [w]. *)
Definition running (a : Adapter) (w : World) : Prop :=
  exists s id tmr,
    closures w !! ad_id a = Some s /\ timer s = Some id /\ timers w !! id = Some tmr.

(** Callback [fn] is among the listeners of adapter [a] in [w]. *)
Definition registered (a : Adapter) (fn : Callback) (w : World) : Prop :=
  exists s, closures w !! ad_id a = Some s /\ In fn (listeners s).

End AdapterSpec.

(** *** The specification's reading of the facade *)

Module MashOSSpec.
Import JsDate Types TimeService MashOS.

Section Host.
Context `{HostEnv}.

Definition orEmpty (o : option TimeConfig) : TimeConfig :=
  match o with
  | Some p => p
  | None => emptyTimeConfig
  end.

(** The default entry of a partial configuration, if it has one. *)
Definition partialDefault (next : PartialConfig) : option TimeConfig :=
  match p_time next with
  | Some nt => p_default nt
  | None => None
  end.

(** The entry of key [k] in the override map of a partial configuration,
    if it has one. *)
Definition partialEntry (next : PartialConfig) (k : string) : option TimeConfig :=
  match p_time next with
  | Some nt =>
      match p_perFeature nt with
      | Some src => src !! k
      | None => None
      end
  | None => None
  end.


(** The timer variable of the closure of adapter [n], if there is one, is
    [null]. *)
Definition stopped (n : nat) (w : World) : Prop :=
  forall s, closures w !! n = Some s -> timer s = None.

(** No interval timer of the host belongs to adapter [n]. *)
Definition noTimerOf (n : nat) (w : World) : Prop :=
  forall id tmr, timers w !! id = Some tmr -> tm_owner tmr <> n.

(** Consistency of the world: closures belong to allocated adapters, and
    every running timer is the one its owner's closure holds. *)
Record WorldInv (w : World) : Prop := {
  closures_allocated :
    forall n s, closures w !! n = Some s -> (n < next_adapter w)%nat;
  timers_owned :
    forall id tmr, timers w !! id = Some tmr ->
      (id < next_timer w)%nat
      /\ exists s, closures w !! tm_owner tmr = Some s /\ timer s = Some id
}.

(** Consistency of the module state with the world. *)
Record StateInv (st : State) (w : World) : Prop := {
  adapters_allocated :
    forall f a, timeMap st f = Some a -> (ad_id a < next_adapter w)%nat;
  disposers_allocated :
    forall f n, disposers st f = Some n -> (n < next_adapter w)%nat;
  off_absent :
    forall f, mode (resolveTimeConfig (config st) f) = Some off -> timeMap st f = None;
  adapters_resolved :
    forall f a, timeMap st f = Some a -> ad_cfg a = resolveTimeConfig (config st) f;
  interval_disposer :
    forall f a, timeMap st f = Some a -> ad_interval a = true ->
                disposers st f = Some (ad_id a)
}.

(** What the first loop of [rebuildTimeAdapters] keeps, started from
    [st0] and [w0]: only disposers are cleared, and an adapter whose
    disposer was cleared is stopped. *)
Definition disposing (st0 : State) (w0 : World) (sw : State * World) : Prop :=
  WorldInv (snd sw) /\ config (fst sw) = config st0 /\ timeMap (fst sw) = timeMap st0
  /\ next_adapter (snd sw) = next_adapter w0 /\ wall (snd sw) = wall w0
  /\ forall f,
       disposers (fst sw) f = disposers st0 f
       \/ (disposers (fst sw) f = None
           /\ forall n, disposers st0 f = Some n -> stopped n (snd sw)).

(** What the second loop keeps, started from the world [w1] with the
    configuration [c]: adapters are only added, the adapters stopped before
    stay stopped, and every disposer belongs to an adapter of this loop. *)
Definition rebuilding (c : MashOSConfig) (w1 : World) (sw : State * World) : Prop :=
  WorldInv (snd sw) /\ config (fst sw) = c
  /\ (next_adapter w1 <= next_adapter (snd sw))%nat /\ wall (snd sw) = wall w1
  /\ (forall n, (n < next_adapter w1)%nat -> stopped n w1 -> stopped n (snd sw))
  /\ (forall f n, disposers (fst sw) f = Some n ->
                  (next_adapter w1 <= n < next_adapter (snd sw))%nat).

(** What the second loop establishes for feature [f]: no adapter when the
    resolved mode is off, and otherwise an adapter of this loop built from
    the resolved configuration; an interval adapter is running and its
    disposer is recorded. *)
Definition rebuilt (c : MashOSConfig) (w1 : World) (f : Feature)
    (sw : State * World) : Prop :=
  match mode (resolveTimeConfig c f) with
  | Some off => timeMap (fst sw) f = None
  | _ =>
      exists a,
        timeMap (fst sw) f = Some a /\ ad_cfg a = resolveTimeConfig c f
        /\ (next_adapter w1 <= ad_id a < next_adapter (snd sw))%nat
        /\ (ad_interval a = true ->
            disposers (fst sw) f = Some (ad_id a) /\ AdapterSpec.running a (snd sw))
  end.


(** What the specification says of a feature [f] switched off, in state
    [st] and world [w]: no adapter, every operation returns, and every
    timestamp is the wall clock's. *)
Definition offSubstitutesWallClock (f : Feature) (st : State) (w : World)
    : Prop :=
  timeMap st f = None
  /\ match f with
     | input =>
         forall payload, exists e,
           input_buildEntry payload st w = Normal e
           /\ created_at e = Some (isoString (wall w))
     | myweb => mywebNow st w = Valid (wall w)
     | flower =>
         (forall (T : Type) (d : T), exists r,
            flower_annotate d st w = Normal r
            /\ FlowerCore.an_annotated_at r = Some (isoString (wall w)))
         /\ (forall es memo, exists r,
               flower_analyze es memo st w = Normal r
               /\ FlowerCore.annotated_at r = Some (isoString (wall w)))
     end.

End Host.
End MashOSSpec.

(** [Date.parse] of a host that reads what [parse] reads, as far as it is a
    time value. *)
Definition clipParse (parse : string -> option Z) (s : string) : option Z :=
  match parse s with
  | Some t => if (- ES.maxTime <=? t) && (t <=? ES.maxTime) then Some t else None
  | None => None
  end.

Definition clipParse_range (parse : string -> option Z) (s : string) (t : Z)
    (E : clipParse parse s = Some t) : - ES.maxTime <= t <= ES.maxTime.
Proof.
  unfold clipParse in E. destruct (parse s) as [t0 |]; [| discriminate].
  destruct (Z.leb_spec (- ES.maxTime) t0), (Z.leb_spec t0 ES.maxTime);
    simpl in E; try discriminate.
  injection E as <-. split; assumption.
Qed.

(** A host in Japan Standard Time whose [Date.parse] reads exactly the
    form that [toISOString] writes for the years 0000 to 9999. *)
Definition jst : HostEnv :=
  {| LocalTZA := 32400000;
     Date_parse := clipParse JsDate.parseIso;
     LocalTZA_bound := conj eq_refl eq_refl;
     Date_parse_range := clipParse_range JsDate.parseIso |}.

(** *** Concrete inputs *)

Module Inputs.
Import JsDate Types TimeService FlowerCore FlowerSpec MashOS.

(** Joy, sadness and calm together. *)
Definition joySadnessCalm : AnalyzeArgs :=
  {| emotions := [emotion joy; emotion sadness; emotion calm];
     memo := None; time := None |}.

(** A time source frozen to a string the host cannot parse. *)
Definition brokenClock : MashTime :=
  adapter_time (H := jst)
    (fst (createTimeAdapter
            {| mode := Some snapshot; intervalMs := None;
               freezeTo := Some (FString "tomorrow") |}
            (emptyWorld 0))).

(** The instant of the comment in [types.ts], frozen by its ISO string in
    an interval adapter. *)
Definition frozenConfig : TimeConfig :=
  {| mode := Some interval; intervalMs := Some 60000;
     freezeTo := Some (FString "2025-10-24T07:00:00.000Z") |}.

(** An interval adapter with the default period. *)
Definition tickingConfig : TimeConfig :=
  {| mode := Some interval; intervalMs := None; freezeTo := None |}.

(** [configure({ time: { default: { mode: "off" } } })] *)
Definition allOff : PartialConfig :=
  {| p_time :=
       Some {| p_default := Some {| mode := Some off; intervalMs := None; freezeTo := None |};
               p_perFeature := None |} |}.

End Inputs.

(* ===================================================================== *)
(** ** Further parts of the sources *)
(* ===================================================================== *)

(** *** types.ts: subscription tiers and profile modes *)

(** The [String] built-ins the normalizers call, taken from the host, with
    what this development uses of them: on a string of the letters a to z
    neither [trim] nor [toLowerCase] changes anything. *)
Definition lowerLetter (c : ascii) : bool :=
  (97 <=? nat_of_ascii c)%nat && (nat_of_ascii c <=? 122)%nat.

Definition lowerLetters (s : string) : bool :=
  forallb lowerLetter (list_ascii_of_string s).

Class StringEnv := {
  trim : string -> string;
  toLowerCase : string -> string;
  trim_letters : forall s, lowerLetters s = true -> trim s = s;
  toLowerCase_letters : forall s, lowerLetters s = true -> toLowerCase s = s
}.

Module Subscription.

Inductive SubscriptionTier : Type := free | plus | premium.
Inductive MyProfileMode : Type := light | standard | deep.

(** The string a tier or a mode is at run time. *)
Definition tierText (t : SubscriptionTier) : string :=
  match t with
  | free => "free"
  | plus => "plus"
  | premium => "premium"
  end.

Definition modeText (m : MyProfileMode) : string :=
  match m with
  | light => "light"
  | standard => "standard"
  | deep => "deep"
  end.

Definition TIER_PERMISSION_MAP (tier : SubscriptionTier) : list MyProfileMode :=
  match tier with
  | free => [light]
  | plus => [light; standard]
  | premium => [light; standard; deep]
  end.

Definition MyProfileMode_eqb (a b : MyProfileMode) : bool :=
  String.eqb (modeText a) (modeText b).

Definition isMyProfileModeAllowed (tier : SubscriptionTier) (mode : MyProfileMode) : bool :=
  existsb (MyProfileMode_eqb mode) (TIER_PERMISSION_MAP tier).

Section Host.
Context `{StringEnv}.

(** [raw] is [None] for [null] and [undefined]; [fallback] is [None] when
    the argument is left out. *)
Definition normalizeSubscriptionTier (raw : option string)
    (fallback : option SubscriptionTier) : SubscriptionTier :=
  let fallback := match fallback with Some f => f | None => free end in
  let s := trim (match raw with Some r => r | None => "" end) in
  if String.eqb s "" then fallback
  else if String.eqb s "無料" || String.eqb s "無課金" || String.eqb s "フリー" then free
  else if String.eqb s "プラス" then plus
  else if String.eqb s "プレミアム" then premium
  else
    let low := toLowerCase s in
    if String.eqb low "free" then free
    else if String.eqb low "plus" then plus
    else if String.eqb low "premium" then premium
    else fallback.

Definition normalizeMyProfileMode (raw : option string)
    (fallback : option MyProfileMode) : MyProfileMode :=
  let fallback := match fallback with Some f => f | None => light end in
  let s := trim (match raw with Some r => r | None => "" end) in
  if String.eqb s "" then fallback
  else if String.eqb s "ライト" then light
  else if String.eqb s "スタンダード" then standard
  else if String.eqb s "ディープ" then deep
  else
    let low := toLowerCase s in
    if String.eqb low "light" then light
    else if String.eqb low "standard" then standard
    else if String.eqb low "deep" then deep
    else fallback.

End Host.
End Subscription.

(** A host whose strings are ASCII: [trim] strips the ASCII white space
    and line terminators at both ends, [toLowerCase] maps the letters A to
    Z. *)
Module AsciiStrings.

Definition isSpace (c : ascii) : bool :=
  let n := nat_of_ascii c in
  ((9 <=? n)%nat && (n <=? 13)%nat) || (n =? 32)%nat.

Fixpoint trimStart (s : string) : string :=
  match s with
  | EmptyString => EmptyString
  | String c rest => if isSpace c then trimStart rest else s
  end.

Fixpoint trimEnd (s : string) : string :=
  match s with
  | EmptyString => EmptyString
  | String c rest =>
      match trimEnd rest with
      | EmptyString => if isSpace c then EmptyString else String c EmptyString
      | r => String c r
      end
  end.

Definition trim (s : string) : string := trimEnd (trimStart s).

Definition lowerChar (c : ascii) : ascii :=
  let n := nat_of_ascii c in
  if (65 <=? n)%nat && (n <=? 90)%nat then ascii_of_nat (n + 32) else c.

Fixpoint toLowerCase (s : string) : string :=
  match s with
  | EmptyString => EmptyString
  | String c rest => String (lowerChar c) (toLowerCase rest)
  end.

End AsciiStrings.

Definition ascii_trim_letters (s : string) (L : lowerLetters s = true)
    : AsciiStrings.trim s = s.
Proof.
  assert (Sp : forall c, lowerLetter c = true -> AsciiStrings.isSpace c = false).
  { intros c Hc. unfold lowerLetter in Hc. unfold AsciiStrings.isSpace. cbv zeta.
    apply andb_prop in Hc as [Lo _]. apply Nat.leb_le in Lo.
    destruct (Nat.leb_spec (nat_of_ascii c) 13), (Nat.eqb_spec (nat_of_ascii c) 32);
      try lia; rewrite ?andb_false_r; reflexivity. }
  unfold AsciiStrings.trim, lowerLetters in *.
  assert (St : AsciiStrings.trimStart s = s).
  { destruct s as [| c rest]; [reflexivity |]. cbn in L |- *.
    apply andb_prop in L as [Hc _]. rewrite (Sp c Hc). reflexivity. }
  rewrite St. clear St. induction s as [| c rest IH]; [reflexivity |].
  cbn in L. apply andb_prop in L as [Hc Hr]. cbn [AsciiStrings.trimEnd].
  rewrite (IH Hr), (Sp c Hc). destruct rest; reflexivity.
Qed.

Definition ascii_toLowerCase_letters (s : string) (L : lowerLetters s = true)
    : AsciiStrings.toLowerCase s = s.
Proof.
  unfold lowerLetters in L. induction s as [| c rest IH]; [reflexivity |].
  cbn in L. apply andb_prop in L as [Hc Hr]. cbn [AsciiStrings.toLowerCase].
  rewrite (IH Hr). f_equal. unfold AsciiStrings.lowerChar. cbv zeta.
  unfold lowerLetter in Hc. apply andb_prop in Hc as [Lo _]. apply Nat.leb_le in Lo.
  destruct (Nat.leb_spec (nat_of_ascii c) 90); [lia |].
  rewrite andb_false_r. reflexivity.
Qed.

Definition asciiStrings : StringEnv :=
  {| trim := AsciiStrings.trim;
     toLowerCase := AsciiStrings.toLowerCase;
     trim_letters := ascii_trim_letters;
     toLowerCase_letters := ascii_toLowerCase_letters |}.

(** *** Reference instants of the ranges that reach forward

    The current week ends up to six days after the reference instant and
    the current month up to thirty days after it; [supportedSpan t] holds
    of the supported reference instants that lie at least a hundred days
    below the upper end of the range of time values. *)
Definition supportedSpan `{HostEnv} (t : Z) : bool :=
  supportedRef t && (t <=? ES.maxTime - 100 * ES.msPerDay).

(** *** The specification's reading of the weather *)

Module WeatherSpec.
Import JsDate Types FlowerCore FlowerSpec.

(** The weather the emotions give where the hour decides nothing. *)
Definition emotionWeather (es : list EmotionWithStrength) : Weather.t :=
  if presentb joy es then Weather.sunny
  else if presentb sadness es then Weather.rainy
  else Weather.cloudy.

(** The weather of the specification for the emotions [es] and the time
    source [tm]: cloudy without a time source; with one, night when the
    local hour is below 5 or at least 22, and otherwise the weather of the
    emotions.  The hour of an invalid date is NaN, which is neither below 5
    nor at least 22. *)
Definition specWeather `{HostEnv} (clock : Z) (es : list EmotionWithStrength)
    (tm : option MashTime) : Weather.t :=
  match reading clock tm with
  | None => Weather.cloudy
  | Some d =>
      match getHours d with
      | Some hour => if (hour <? 5) || (22 <=? hour) then Weather.night else emotionWeather es
      | None => emotionWeather es
      end
  end.

(** What the specification says of the weather on every input: [analyze]
    returns, with that weather. *)
Definition weatherByHourThenEmotion `{HostEnv} (clock : Z)
    (es : list EmotionWithStrength) (memo : option string) (tm : option MashTime) : Prop :=
  exists r,
    analyze clock {| emotions := es; memo := memo; time := tm |} = Normal r
    /\ climate r = Some {| weather := specWeather clock es tm |}.

End WeatherSpec.

(** *** Reference instants of the completed ranges

    [getCompletedWeeklyRangeFrom] hands two local years to the [Date]
    constructor, which reads a year in 0..99 as 1900..1999: the year of the
    reference instant and the year of the Saturday before its week.  It
    returns dates if the Sunday a week before the week of the reference
    instant is still a time value. *)

(** A year the [Date] constructor takes as written. *)
Definition plainYear (y : Z) : bool := (y <? 0) || (99 <? y).

(** The local day that [new Date(y, m, d)] names when [y], [m] and [d] are
    the local year, month and date of the time value [t]. *)
Definition constructorDay `{HostEnv} (t : Z) : Z :=
  ES.MakeDay (ES.MakeFullYear (ES.YearFromTime (JsDate.LocalTime t)))
             (ES.MonthFromTime (JsDate.LocalTime t))
             (ES.DateFromTime (JsDate.LocalTime t)).

(** The local day of the Sunday on or before the local day of [t]. *)
Definition weekStartDay `{HostEnv} (t : Z) : Z :=
  ES.Day (JsDate.LocalTime t) - ES.WeekDay (JsDate.LocalTime t).

(** The reference instants at which the completed weekly range is the
    week before: both years are taken as written, the Sunday a week before
    the week of [t] is not below the range of time values, and [t] is not
    above it. *)
Definition completedWeekRef `{HostEnv} (t : Z) : bool :=
  plainYear (ES.YearFromTime (JsDate.LocalTime t))
  && plainYear (ES.YearFromDay (weekStartDay t - 1))
  && (- ES.maxTime <=? JsDate.UTC (ES.MakeDate (weekStartDay t - 7) 0))
  && (t <=? ES.maxTime).

(** The year and the month of the calendar month before that of [t]. *)
Definition previousMonth `{HostEnv} (t : Z) : Z * Z :=
  let y := ES.YearFromTime (JsDate.LocalTime t) in
  let m := ES.MonthFromTime (JsDate.LocalTime t) in
  (if m =? 0 then y - 1 else y, if m =? 0 then 11 else m - 1).

(** [getCompletedMonthlyRangeFrom] hands the constructor the year of the
    reference instant and the year of the month before.  The reference
    instants at which the completed monthly range is the month before: both
    years are taken as written, the first day of the month before is not
    below the range of time values, and [t] is not above it. *)
Definition completedMonthRef `{HostEnv} (t : Z) : bool :=
  plainYear (ES.YearFromTime (JsDate.LocalTime t))
  && plainYear (fst (previousMonth t))
  && (- ES.maxTime
      <=? JsDate.UTC (ES.MakeDate (ES.MakeDay (fst (previousMonth t)) (snd (previousMonth t)) 1) 0))
  && (t <=? ES.maxTime).

(** *** The specification's reading of the merge

    The configuration entries of this development give each property of a
    [TimeConfig] a value or leave it out; a property set to [undefined],
    which the object spread would copy over the old value, and the numbers
    NaN and Infinity, which the JSON copy turns into [null], are not among
    them. *)

Module ConfigureSpec.
Import JsDate Types MashOS.

(** [copy] is what [JSON.parse(JSON.stringify(old))] makes of the entry
    [old]: the mode and the period as they were; a [freezeTo] that is a
    [Date] as its ISO string, the invalid date as [null], and any other as
    it was. *)
Definition jsonCopyOf (old copy : TimeConfig) : Prop :=
  mode copy = mode old
  /\ intervalMs copy = intervalMs old
  /\ freezeTo copy
     = match freezeTo old with
       | Some (FDate (Valid t)) => Some (FString (isoString t))
       | Some (FDate InvalidDate) => Some FNull
       | other => other
       end.




End ConfigureSpec.

(** *** The timers and listeners of a run *)

Module RunSpec.
Import JsDate Types TimeService MashOS.

(** The period of the timer of an interval adapter built from [cfg]. *)
Definition periodOf (cfg : TimeConfig) : Z :=
  match intervalMs cfg with
  | Some n => n
  | None => 60000
  end.

(** Timer [id] is the timer of the interval adapter that feature [f]
    holds, with the period of the feature's resolved configuration. *)
Definition timerOfFeature (st : State) (w : World) (f : Feature) (id : nat) (tmr : Timer)
    : Prop :=
  exists a s,
    timeMap st f = Some a /\ ad_interval a = true /\ tm_owner tmr = ad_id a
    /\ tm_interval tmr = periodOf (resolveTimeConfig (config st) f)
    /\ closures w !! ad_id a = Some s /\ timer s = Some id.

(** A timer id held by a closure has been handed out by the host and,
    while it runs, is a timer of that closure's adapter. *)
Definition closureTimers (w : World) : Prop :=
  forall n s id, closures w !! n = Some s -> timer s = Some id ->
    (id < next_timer w)%nat
    /\ forall tmr, timers w !! id = Some tmr -> tm_owner tmr = n.

(** The bookkeeping of a run: the timers of the closures are in order; the
    adapters the features hold have been created and are pairwise
    different; every disposer is the one of the interval adapter its
    feature holds; and every running timer belongs to the adapter of a
    disposer and has the period of that feature's resolved configuration. *)
Record RunInv (st : State) (w : World) : Prop := {
  closure_timer : closureTimers w;
  adapters_fresh :
    forall f a, timeMap st f = Some a -> (ad_id a < next_adapter w)%nat;
  adapters_distinct :
    forall f g a b, timeMap st f = Some a -> timeMap st g = Some b ->
      ad_id a = ad_id b -> f = g;
  disposer_held :
    forall f n, disposers st f = Some n ->
      exists a, timeMap st f = Some a /\ ad_id a = n /\ ad_interval a = true;
  timer_disposed :
    forall id tmr, timers w !! id = Some tmr ->
      exists f, disposers st f = Some (tm_owner tmr)
                /\ tm_interval tmr = periodOf (resolveTimeConfig (config st) f)
}.

(** Two worlds with the same timers, in the host and in the closures. *)
Definition sameTimers (w w' : World) : Prop :=
  timers w' = timers w /\ next_timer w' = next_timer w
  /\ next_adapter w' = next_adapter w
  /\ forall n, timer <$> closures w' !! n = timer <$> closures w !! n.

(** No closure lists a listener twice. *)
Definition listenersDistinct (w : World) : Prop :=
  forall n s, closures w !! n = Some s -> NoDup (listeners s).

(** Two states that differ in their configurations only, and in those
    only where no feature reads them. *)
Definition sameAdapters (st st' : State) : Prop :=
  timeMap st = timeMap st' /\ disposers st = disposers st'
  /\ forall f, resolveTimeConfig (config st) f = resolveTimeConfig (config st') f.

End RunSpec.

(** *** Runs of the time service and runs of the facade *)

Module Runs.
Import JsDate Types TimeService MashOS.

Section Host.
Context `{HostEnv}.

(** A program that uses [timeService.ts] by itself: it creates adapters and
    keeps them, in [held]; on an adapter it holds it subscribes callbacks,
    calls the closures [subscribe] returned, and calls [__dispose]; the
    clock moves and the timers of its adapters fire. *)
Inductive AdapterRun : list Adapter -> World -> Prop :=
  | AR_start clock : AdapterRun [] (emptyWorld clock)
  | AR_create held w cfg :
      AdapterRun held w ->
      AdapterRun (fst (createTimeAdapter cfg w) :: held) (snd (createTimeAdapter cfg w))
  | AR_subscribe held w a cb :
      AdapterRun held w -> In a held -> AdapterRun held (subscribe a cb w)
  | AR_unsubscribe held w a cb :
      AdapterRun held w -> In a held -> AdapterRun held (unsubscribe a cb w)
  | AR_dispose held w a :
      AdapterRun held w -> In a held -> AdapterRun held (dispose (ad_id a) w)
  | AR_tick held w a :
      AdapterRun held w -> In a held -> AdapterRun held (tick a w)
  | AR_advance held w clock : AdapterRun held w -> AdapterRun held (advance clock w).

(** The facade by its own operations: the module is loaded and
    reconfigured, the clock moves and timers fire.  No step subscribes:
    [inputCore.ts] keeps [timeMap] to itself, none of the operations of
    [MashOS] hands an adapter out, and the core functions they pass the
    adapter to call its [now] only. *)
Inductive FacadeRun : State -> World -> Prop :=
  | F_boot clock : FacadeRun (fst (boot clock)) (snd (boot clock))
  | F_configure st w next :
      FacadeRun st w ->
      FacadeRun (fst (configure next (st, w))) (snd (configure next (st, w)))
  | F_advance st w clock : FacadeRun st w -> FacadeRun st (advance clock w)
  | F_tick st w a : FacadeRun st w -> FacadeRun st (tick a w).

End Host.

(** No adapter has a listener. *)
Definition noListeners (w : World) : Prop :=
  forall n s, closures w !! n = Some s -> listeners s = [].

End Runs.

(** *** config.example.ts *)

Module ConfigExample.
Import Types.

(** The object literal of the example, its [perFeature] entries added in
    the order written: [input], [myweb], [mymodel]. *)
Definition mashOSConfigExample : PartialConfig :=
  {| p_time :=
       Some {| p_default :=
                 Some {| mode := Some snapshot; intervalMs := None; freezeTo := None |};
               p_perFeature :=
                 Some (<["mymodel" := {| mode := Some off; intervalMs := None;
                                         freezeTo := None |}]>
                       (<["myweb" := {| mode := Some interval; intervalMs := Some 60000;
                                        freezeTo := None |}]>
                        (<["input" := {| mode := Some snapshot; intervalMs := None;
                                         freezeTo := None |}]> ∅))) |} |}.

End ConfigExample.

(** *** Further concrete inputs *)

Module MoreInputs.
Import JsDate Types.

(** [configure({ time: { default: { freezeTo: "tomorrow" } } })] *)
Definition frozenToNonsense : PartialConfig :=
  {| p_time :=
       Some {| p_default :=
                 Some {| mode := None; intervalMs := None;
                         freezeTo := Some (FString "tomorrow") |};
               p_perFeature := None |} |}.



End MoreInputs.

(* ===================================================================== *)
(** * Properties *)
(* ===================================================================== *)

(** ** Calendar arithmetic *)

Module ESFacts.
Import ES.

Ltac zdiv := Z.to_euclidean_division_equations; lia.

Lemma DaysInYear_cases y : DaysInYear y = 365 \/ DaysInYear y = 366.
Proof.
  unfold DaysInYear.
  destruct (y mod 4 =? 0), (y mod 100 =? 0), (y mod 400 =? 0); simpl; auto.
Qed.

Lemma DayFromYear_succ y : DayFromYear (y + 1) = DayFromYear y + DaysInYear y.
Proof.
  unfold DayFromYear, DaysInYear.
  destruct (Z.eqb_spec (y mod 4) 0), (Z.eqb_spec (y mod 100) 0),
    (Z.eqb_spec (y mod 400) 0); simpl; zdiv.
Qed.

Lemma DayFromYear_mono a b : a <= b -> DayFromYear a <= DayFromYear b.
Proof. unfold DayFromYear. intros. zdiv. Qed.

Lemma DayFromYear_strict a b : a < b -> DayFromYear a < DayFromYear b.
Proof.
  intros. assert (DayFromYear (a + 1) <= DayFromYear b)
    by (apply DayFromYear_mono; lia).
  rewrite DayFromYear_succ in *. destruct (DaysInYear_cases a); lia.
Qed.

Lemma YearFromDay_estimate d :
  DayFromYear (1970 + d * 400 / 146097 - 1) <= d
  < DayFromYear (1970 + d * 400 / 146097 + 2).
Proof. unfold DayFromYear. zdiv. Qed.

(** [YearFromDay d] is the year whose days contain [d]. *)
Lemma YearFromDay_spec d :
  DayFromYear (YearFromDay d) <= d < DayFromYear (YearFromDay d + 1).
Proof.
  pose proof (YearFromDay_estimate d) as E. unfold YearFromDay.
  set (y := 1970 + d * 400 / 146097) in *.
  destruct (Z.ltb_spec d (DayFromYear y)).
  - replace (y - 1 + 1) with y by lia. lia.
  - destruct (Z.leb_spec (DayFromYear (y + 1)) d).
    + replace (y + 1 + 1) with (y + 2) by lia. lia.
    + lia.
Qed.

Lemma YearFromDay_unique y d :
  DayFromYear y <= d < DayFromYear (y + 1) -> YearFromDay d = y.
Proof.
  intros Hy. pose proof (YearFromDay_spec d) as Hs.
  destruct (Z.lt_trichotomy (YearFromDay d) y) as [L | [E | G]]; [| exact E |].
  - assert (DayFromYear (YearFromDay d + 1) <= DayFromYear y)
      by (apply DayFromYear_mono; lia). lia.
  - assert (DayFromYear (y + 1) <= DayFromYear (YearFromDay d))
      by (apply DayFromYear_mono; lia). lia.
Qed.

Lemma YearFromDay_mono a b : a <= b -> YearFromDay a <= YearFromDay b.
Proof.
  intros. pose proof (YearFromDay_spec a). pose proof (YearFromDay_spec b).
  destruct (Z.le_gt_cases (YearFromDay a) (YearFromDay b)); [assumption |].
  assert (DayFromYear (YearFromDay b + 1) <= DayFromYear (YearFromDay a))
    by (apply DayFromYear_mono; lia). lia.
Qed.

(** *** Months and dates within a year *)

Lemma leapDays_cases y :
  (leapDays y = 0 /\ DaysInYear y = 365) \/ (leapDays y = 1 /\ DaysInYear y = 366).
Proof. unfold leapDays. destruct (DaysInYear_cases y) as [-> | ->]; simpl; auto. Qed.

Lemma InLeapYear_leapDays t : InLeapYear t = leapDays (YearFromTime t).
Proof. reflexivity. Qed.

Lemma DayWithinYear_bound t : 0 <= DayWithinYear t < DaysInYear (YearFromTime t).
Proof.
  unfold DayWithinYear, YearFromTime.
  pose proof (YearFromDay_spec (Day t)) as S.
  rewrite DayFromYear_succ in S. lia.
Qed.

Lemma monthOfDay_bound leap k : 0 <= monthOfDay leap k <= 11.
Proof.
  unfold monthOfDay.
  repeat match goal with |- context [if ?b then _ else _] => destruct b end; lia.
Qed.

Lemma MonthFromTime_bound t : 0 <= MonthFromTime t <= 11.
Proof. apply monthOfDay_bound. Qed.

Lemma monthOfDay_start leap m dt :
  0 <= leap <= 1 -> 0 <= m <= 11 ->
  1 <= dt <= monthStart leap (m + 1) - monthStart leap m ->
  monthOfDay leap (monthStart leap m + dt - 1) = m.
Proof.
  intros Hl Hm Hd.
  assert (M : m = 0 \/ m = 1 \/ m = 2 \/ m = 3 \/ m = 4 \/ m = 5 \/ m = 6 \/
              m = 7 \/ m = 8 \/ m = 9 \/ m = 10 \/ m = 11) by lia.
  unfold monthOfDay.
  repeat (destruct M as [-> | M]; [simpl in *;
    repeat match goal with |- context [?a <? ?b] => destruct (Z.ltb_spec a b) end; lia |]).
  subst m; simpl in *.
  repeat match goal with |- context [?a <? ?b] => destruct (Z.ltb_spec a b) end; lia.
Qed.

Lemma DateFromTime_bound t : 1 <= DateFromTime t <= 31.
Proof.
  unfold DateFromTime, MonthFromTime. pose proof (DayWithinYear_bound t) as B.
  rewrite InLeapYear_leapDays.
  destruct (leapDays_cases (YearFromTime t)) as [[-> E] | [-> E]]; rewrite E in B;
    unfold monthOfDay;
    repeat match goal with |- context [?a <? ?b] => destruct (Z.ltb_spec a b) end;
    simpl; lia.
Qed.

(** Rebuilding a day from the year and month of [t] and any date [dt]
    lands [dt - DateFromTime t] days from the day of [t]. *)
Lemma MakeDay_of_fields t dt :
  MakeDay (YearFromTime t) (MonthFromTime t) dt = Day t - DateFromTime t + dt.
Proof.
  pose proof (MonthFromTime_bound t) as Hm.
  unfold MakeDay. cbv zeta.
  replace (MonthFromTime t / 12) with 0 by zdiv.
  replace (MonthFromTime t mod 12) with (MonthFromTime t) by zdiv.
  rewrite Z.add_0_r.
  unfold DateFromTime, DayWithinYear. rewrite InLeapYear_leapDays. lia.
Qed.

Lemma MakeDay_plain y m dt :
  0 <= m <= 11 -> MakeDay y m dt = DayFromYear y + monthStart (leapDays y) m + dt - 1.
Proof.
  intros. unfold MakeDay. cbv zeta.
  replace (m / 12) with 0 by zdiv. replace (m mod 12) with m by zdiv.
  rewrite Z.add_0_r. reflexivity.
Qed.

Lemma monthStart_year leap : monthStart leap 12 = 365 + leap.
Proof. reflexivity. Qed.

Lemma monthStart_mono leap m :
  0 <= leap <= 1 -> 0 <= m <= 11 ->
  0 <= monthStart leap m /\ 28 <= monthStart leap (m + 1) - monthStart leap m <= 31
  /\ monthStart leap (m + 1) <= 365 + leap.
Proof.
  intros Hl Hm.
  assert (M : m = 0 \/ m = 1 \/ m = 2 \/ m = 3 \/ m = 4 \/ m = 5 \/ m = 6 \/
              m = 7 \/ m = 8 \/ m = 9 \/ m = 10 \/ m = 11) by lia.
  repeat (destruct M as [-> | M]; [simpl; lia |]). subst m; simpl; lia.
Qed.

Lemma DaysInMonth_monthStart y m :
  0 <= m <= 11 ->
  DaysInMonth y m = monthStart (leapDays y) (m + 1) - monthStart (leapDays y) m.
Proof.
  intros Hm.
  assert (M : m = 0 \/ m = 1 \/ m = 2 \/ m = 3 \/ m = 4 \/ m = 5 \/ m = 6 \/
              m = 7 \/ m = 8 \/ m = 9 \/ m = 10 \/ m = 11) by lia.
  repeat (destruct M as [-> | M]; [simpl; lia |]). subst m; simpl; lia.
Qed.

(** The civil fields of a day built from a valid year, month and date. *)
Lemma fields_of_MakeDay y m dt t :
  0 <= m <= 11 -> 1 <= dt <= DaysInMonth y m -> Day t = MakeDay y m dt ->
  YearFromTime t = y /\ MonthFromTime t = m /\ DateFromTime t = dt.
Proof.
  intros Hm Hd Ht. rewrite MakeDay_plain in Ht by assumption.
  rewrite DaysInMonth_monthStart in Hd by assumption.
  assert (Hl : 0 <= leapDays y <= 1)
    by (destruct (leapDays_cases y) as [[-> _] | [-> _]]; lia).
  pose proof (monthStart_mono (leapDays y) m Hl Hm) as (M0 & M1 & M2).
  assert (Y : YearFromTime t = y).
  { unfold YearFromTime. apply YearFromDay_unique. rewrite DayFromYear_succ, Ht.
    destruct (leapDays_cases y) as [[L E] | [L E]]; rewrite L in *; lia. }
  assert (K : DayWithinYear t = monthStart (leapDays y) m + dt - 1).
  { unfold DayWithinYear. rewrite Y, Ht. lia. }
  assert (Mo : MonthFromTime t = m).
  { unfold MonthFromTime. rewrite InLeapYear_leapDays, Y, K.
    apply monthOfDay_start; assumption. }
  split; [exact Y |]. split; [exact Mo |].
  unfold DateFromTime. rewrite Mo, InLeapYear_leapDays, Y, K. lia.
Qed.

(** *** Time within the day *)

Lemma Day_MakeDate d time :
  0 <= time < msPerDay -> Day (MakeDate d time) = d.
Proof. unfold Day, MakeDate, msPerDay. intros. zdiv. Qed.

Lemma TimeWithinDay_MakeDate d time :
  0 <= time < msPerDay -> TimeWithinDay (MakeDate d time) = time.
Proof. unfold TimeWithinDay, MakeDate, msPerDay. intros. zdiv. Qed.

Lemma MakeDate_Day t : MakeDate (Day t) (TimeWithinDay t) = t.
Proof. unfold MakeDate, Day, TimeWithinDay, msPerDay. zdiv. Qed.

Lemma TimeWithinDay_bound t : 0 <= TimeWithinDay t < msPerDay.
Proof. unfold TimeWithinDay, msPerDay. zdiv. Qed.

Lemma MakeTime_bound h mi s ms :
  0 <= h <= 23 -> 0 <= mi <= 59 -> 0 <= s <= 59 -> 0 <= ms <= 999 ->
  0 <= MakeTime h mi s ms < msPerDay.
Proof.
  unfold MakeTime, msPerDay, msPerHour, msPerMinute, msPerSecond. lia.
Qed.

Lemma clock_of_MakeDate d h mi s ms :
  0 <= h <= 23 -> 0 <= mi <= 59 -> 0 <= s <= 59 -> 0 <= ms <= 999 ->
  let t := MakeDate d (MakeTime h mi s ms) in
  HourFromTime t = h /\ MinFromTime t = mi /\ SecFromTime t = s /\ msFromTime t = ms.
Proof.
  intros Hh Hmi Hs Hms t. subst t.
  unfold HourFromTime, MinFromTime, SecFromTime, msFromTime, MakeDate, MakeTime,
    msPerDay, msPerHour, msPerMinute, msPerSecond.
  repeat split; zdiv.
Qed.

Lemma WeekDay_bound t : 0 <= WeekDay t <= 6.
Proof. unfold WeekDay. zdiv. Qed.

End ESFacts.

(** ** The [Date] built-in *)

Module JsDateFacts.
Import ES ESFacts JsDate.

Lemma TimeClip_valid t : - maxTime <= t <= maxTime -> TimeClip t = Valid t.
Proof.
  intros. unfold TimeClip. destruct (Z.ltb_spec maxTime (Z.abs t)); [lia | reflexivity].
Qed.

Lemma MakeFullYear_plain y : y < 0 \/ 99 < y -> MakeFullYear y = y.
Proof.
  intros. unfold MakeFullYear.
  destruct (Z.leb_spec 0 y), (Z.leb_spec y 99); simpl; lia.
Qed.

(** The calendar fields depend on the day only. *)
Lemma YearFromTime_Day a b : Day a = Day b -> YearFromTime a = YearFromTime b.
Proof. unfold YearFromTime. congruence. Qed.

Lemma MonthFromTime_Day a b : Day a = Day b -> MonthFromTime a = MonthFromTime b.
Proof.
  intros E. unfold MonthFromTime, InLeapYear, DayWithinYear.
  rewrite (YearFromTime_Day a b E), E. reflexivity.
Qed.

Lemma DateFromTime_Day a b : Day a = Day b -> DateFromTime a = DateFromTime b.
Proof.
  intros E. unfold DateFromTime, InLeapYear, DayWithinYear.
  rewrite (MonthFromTime_Day a b E), (YearFromTime_Day a b E), E. reflexivity.
Qed.

Lemma WeekDay_Day a b : Day a = Day b -> WeekDay a = WeekDay b.
Proof. unfold WeekDay. congruence. Qed.

Section Host.
Context `{HostEnv}.

Lemma LocalTime_UTC t : LocalTime (UTC t) = t.
Proof. unfold LocalTime, UTC. lia. Qed.

Lemma UTC_LocalTime t : UTC (LocalTime t) = t.
Proof. unfold LocalTime, UTC. lia. Qed.

(** The constructor applied to the year and month of a local time [L]. *)
Lemma new_Date7_local L dt h mi s ms :
  MakeFullYear (YearFromTime L) = YearFromTime L ->
  new_Date7 (Some (YearFromTime L)) (Some (MonthFromTime L)) (Some dt)
            (Some h) (Some mi) (Some s) (Some ms)
  = TimeClip (UTC (MakeDate (Day L - DateFromTime L + dt) (MakeTime h mi s ms))).
Proof.
  intros Q. unfold new_Date7. cbv zeta. rewrite Q, MakeDay_of_fields. reflexivity.
Qed.

Lemma Day_bounds t : Day t * msPerDay <= t < Day t * msPerDay + msPerDay.
Proof. unfold Day, msPerDay. zdiv. Qed.

End Host.

Ltac getters :=
  unfold getFullYear, getMonth, getDate, getDay, getHours, getMinutes,
    getSeconds, getMilliseconds, getTime, local_field.

End JsDateFacts.

(** ** mywebCore: period ranges and triggers *)

Module MyWebFacts.
Import ES ESFacts JsDate JsDateFacts MyWebCore.

Section Host.
Context `{HostEnv}.

(** Local midnight of local day [d], as a time value. *)
Lemma local_midnight_fields d :
  let L := LocalTime (UTC (MakeDate d 0)) in
  Day L = d /\ TimeWithinDay L = 0.
Proof.
  cbv zeta. rewrite LocalTime_UTC. split.
  - apply Day_MakeDate. unfold msPerDay. lia.
  - apply TimeWithinDay_MakeDate. unfold msPerDay. lia.
Qed.

Lemma midnight_of_fields t :
  - maxTime + 2 * msPerDay <= t <= maxTime ->
  MakeFullYear (YearFromTime (LocalTime t)) = YearFromTime (LocalTime t) ->
  new_Date7 (getFullYear (Valid t)) (getMonth (Valid t)) (getDate (Valid t))
            (Some 0) (Some 0) (Some 0) (Some 0)
  = Valid (UTC (MakeDate (Day (LocalTime t)) 0)).
Proof.
  intros R Q. getters.
  rewrite new_Date7_local by exact Q.
  replace (Day (LocalTime t) - DateFromTime (LocalTime t) + DateFromTime (LocalTime t))
    with (Day (LocalTime t)) by lia.
  apply TimeClip_valid.
  pose proof (Day_bounds (LocalTime t)). pose proof LocalTZA_bound.
  unfold UTC, MakeDate, MakeTime, LocalTime, msPerDay, maxTime in *. lia.
Qed.

Lemma startOfDay_valid t :
  - maxTime + 2 * msPerDay <= t <= maxTime ->
  MakeFullYear (YearFromTime (LocalTime t)) = YearFromTime (LocalTime t) ->
  startOfDay (Valid t) = Valid (UTC (MakeDate (Day (LocalTime t)) 0)).
Proof. intros R Q. unfold startOfDay. apply midnight_of_fields; assumption. Qed.

(** [startOfWeekSunday] returns local midnight of the Sunday on or before
    the day of [t]. *)
Lemma startOfWeekSunday_valid t :
  - maxTime + 9 * msPerDay <= t <= maxTime ->
  MakeFullYear (YearFromTime (LocalTime t)) = YearFromTime (LocalTime t) ->
  startOfWeekSunday (Valid t)
  = Valid (UTC (MakeDate (Day (LocalTime t) - WeekDay (LocalTime t)) 0)).
Proof.
  intros R Q. unfold startOfWeekSunday, startOfDay, new_Date3.
  pose proof (Day_bounds (LocalTime t)) as B. pose proof LocalTZA_bound as TZ.
  pose proof (WeekDay_bound (LocalTime t)) as W.
  assert (R0 : - maxTime + 2 * msPerDay <= t <= maxTime)
    by (unfold msPerDay, maxTime in *; lia).
  rewrite (midnight_of_fields t R0 Q).
  destruct (local_midnight_fields (Day (LocalTime t))) as [D1 T1].
  set (t1 := UTC (MakeDate (Day (LocalTime t)) 0)) in *.
  assert (Q1 : MakeFullYear (YearFromTime (LocalTime t1)) = YearFromTime (LocalTime t1))
    by (rewrite (YearFromTime_Day _ _ D1); exact Q).
  assert (R1 : - maxTime + 2 * msPerDay <= t1 <= maxTime).
  { subst t1. unfold UTC, MakeDate, LocalTime, msPerDay, maxTime in *. lia. }
  rewrite (midnight_of_fields t1 R1 Q1). rewrite D1. fold t1.
  unfold setDate, nsub. getters.
  rewrite MakeDay_of_fields, T1, D1, (DateFromTime_Day _ _ D1).
  replace (Day (LocalTime t) - DateFromTime (LocalTime t)
           + (DateFromTime (LocalTime t) - WeekDay (LocalTime t)))
    with (Day (LocalTime t) - WeekDay (LocalTime t)) by lia.
  apply TimeClip_valid.
  unfold UTC, MakeDate, LocalTime, msPerDay, maxTime in *; lia.
Qed.

Lemma supportedRef_range t :
  supportedRef t = true ->
  - maxTime + 100 * msPerDay <= t <= maxTime
  /\ (YearFromTime (LocalTime t) < 0 \/ 100 < YearFromTime (LocalTime t)).
Proof.
  unfold supportedRef. intros S.
  apply andb_prop in S as [S Y]. apply andb_prop in S as [Lo Hi].
  apply Z.leb_le in Lo, Hi. apply orb_prop in Y.
  split; [lia |]. destruct Y as [Y | Y]; apply Z.ltb_lt in Y; auto.
Qed.

(** Within a hundred days before a supported reference instant the year is
    still one the constructor takes literally. *)
Lemma plain_year_before t d :
  supportedRef t = true ->
  Day (LocalTime t) - 100 <= d <= Day (LocalTime t) ->
  MakeFullYear (YearFromDay d) = YearFromDay d.
Proof.
  intros S Hd. apply supportedRef_range in S as [_ Y].
  apply MakeFullYear_plain. unfold YearFromTime in Y.
  destruct Y as [Y | Y].
  - left. pose proof (YearFromDay_mono d (Day (LocalTime t))). lia.
  - right. pose proof (YearFromDay_spec (Day (LocalTime t))) as [Lo _].
    assert (M : DayFromYear 101 <= DayFromYear (YearFromDay (Day (LocalTime t))))
      by (apply DayFromYear_mono; lia).
    assert (E100 : DayFromYear 100 = -683003) by (vm_compute; reflexivity).
    assert (E101 : DayFromYear 101 = -682638) by (vm_compute; reflexivity).
    assert (U : YearFromDay (DayFromYear 100) = 100).
    { apply YearFromDay_unique. change (100 + 1) with 101. rewrite E100, E101. lia. }
    pose proof (YearFromDay_mono (DayFromYear 100) d). lia.
Qed.

Lemma clockFields_MakeDate d h mi s ms :
  0 <= h <= 23 -> 0 <= mi <= 59 -> 0 <= s <= 59 -> 0 <= ms <= 999 ->
  clockFields (Valid (UTC (MakeDate d (MakeTime h mi s ms))))
  = [Some h; Some mi; Some s; Some ms].
Proof.
  intros. unfold clockFields. getters. rewrite LocalTime_UTC.
  destruct (clock_of_MakeDate d h mi s ms) as (-> & -> & -> & ->); auto.
Qed.

Lemma MakeTime_last : MakeTime 23 59 59 999 = msPerDay - 1.
Proof. reflexivity. Qed.

Lemma clockFields_midnight d :
  clockFields (Valid (UTC (MakeDate d 0))) = [Some 0; Some 0; Some 0; Some 0].
Proof.
  replace 0 with (MakeTime 0 0 0 0) at 1 by reflexivity.
  apply clockFields_MakeDate; lia.
Qed.

Lemma MakeDate_pred d : MakeDate d 0 - 1 = MakeDate (d - 1) (msPerDay - 1).
Proof. unfold MakeDate, msPerDay. lia. Qed.

Lemma clockFields_last_ms d :
  clockFields (Valid (UTC (MakeDate d 0) - 1))
  = [Some 23; Some 59; Some 59; Some 999].
Proof.
  replace (UTC (MakeDate d 0) - 1)
    with (UTC (MakeDate (d - 1) (MakeTime 23 59 59 999))).
  - apply clockFields_MakeDate; lia.
  - rewrite MakeTime_last, <- MakeDate_pred. unfold UTC. lia.
Qed.

(** The day before the first of a month is the last day of the month
    before, across the turn of the year too. *)
Lemma MakeDay_prev_month y m :
  0 <= m <= 11 ->
  let py := if m =? 0 then y - 1 else y in
  let pm := if m =? 0 then 11 else m - 1 in
  MakeDay y m 1 - 1 = MakeDay py pm (DaysInMonth py pm) /\ 0 <= pm <= 11
  /\ 28 <= DaysInMonth py pm <= 31.
Proof.
  intros Hm. cbv zeta. destruct (Z.eqb_spec m 0) as [-> | Hne].
  - rewrite !MakeDay_plain by lia.
    pose proof (DayFromYear_succ (y - 1)) as E.
    replace (y - 1 + 1) with y in E by lia.
    destruct (leapDays_cases (y - 1)) as [[L D] | [L D]];
      simpl; rewrite L; rewrite D in E; lia.
  - assert (Hp : 0 <= m - 1 <= 11) by lia.
    rewrite !MakeDay_plain by lia.
    pose proof (DaysInMonth_monthStart y (m - 1) Hp) as E.
    replace (m - 1 + 1) with m in E by lia.
    assert (Hl : 0 <= leapDays y <= 1)
      by (destruct (leapDays_cases y) as [[-> _] | [-> _]]; lia).
    pose proof (monthStart_mono (leapDays y) (m - 1) Hl Hp) as (_ & M1 & _).
    replace (m - 1 + 1) with m in M1 by lia. lia.
Qed.

Lemma localFields_of_MakeDay y m dt h mi s ms :
  0 <= m <= 11 -> 1 <= dt <= DaysInMonth y m ->
  0 <= h <= 23 -> 0 <= mi <= 59 -> 0 <= s <= 59 -> 0 <= ms <= 999 ->
  localFields (Valid (UTC (MakeDate (MakeDay y m dt) (MakeTime h mi s ms))))
  = [Some y; Some m; Some dt; Some h; Some mi; Some s; Some ms].
Proof.
  intros Hm Hd Hh Hmi Hs Hms. unfold localFields. getters. rewrite LocalTime_UTC.
  pose proof (MakeTime_bound h mi s ms Hh Hmi Hs Hms) as Tb.
  destruct (fields_of_MakeDay y m dt (MakeDate (MakeDay y m dt) (MakeTime h mi s ms)) Hm Hd)
    as (-> & -> & ->); [apply Day_MakeDate; exact Tb |].
  destruct (clock_of_MakeDate (MakeDay y m dt) h mi s ms) as (-> & -> & -> & ->); auto.
Qed.

(** *** The completed ranges, reference instant by reference instant *)

Lemma TimeClip_inv x v : TimeClip x = Valid v -> v = x /\ - maxTime <= x <= maxTime.
Proof.
  unfold TimeClip. destruct (Z.ltb_spec maxTime (Z.abs x)); [discriminate |].
  intros E. injection E as <-. lia.
Qed.

Lemma plainYear_spec y : plainYear y = true <-> (y < 0 \/ 99 < y).
Proof.
  unfold plainYear. rewrite orb_true_iff, !Z.ltb_lt. reflexivity.
Qed.

Lemma MakeFullYear_fixed y : MakeFullYear y = y <-> (y < 0 \/ 99 < y).
Proof.
  unfold MakeFullYear.
  destruct (Z.leb_spec 0 y), (Z.leb_spec y 99); simpl; lia.
Qed.

Lemma DayFromYear_100 : DayFromYear 100 = -683003.
Proof. vm_compute. reflexivity. Qed.

Lemma DayFromYear_1900 : DayFromYear 1900 = -25567.
Proof. vm_compute. reflexivity. Qed.

(** A day of local year 0..99 lies before year 100. *)
Lemma early_day d : 0 <= YearFromDay d <= 99 -> d < -683003.
Proof.
  intros Y. pose proof (YearFromDay_spec d) as [_ Hi].
  assert (DayFromYear (YearFromDay d + 1) <= DayFromYear 100)
    by (apply DayFromYear_mono; lia).
  rewrite DayFromYear_100 in *. lia.
Qed.

(** A day from 1899 on is in a year the constructor takes as written. *)
Lemma late_day d : -25933 <= d -> 99 < YearFromDay d.
Proof.
  intros Hd.
  assert (E : DayFromYear 1899 = -25932) by (vm_compute; reflexivity).
  assert (U : YearFromDay (-25933) = 1898).
  { apply YearFromDay_unique. split; [vm_compute; discriminate |].
    change (1898 + 1) with 1899. rewrite E. lia. }
  pose proof (YearFromDay_mono (-25933) d Hd). lia.
Qed.

(** The day the constructor names, by the year of [t]. *)
Lemma constructorDay_plain t :
  plainYear (YearFromTime (LocalTime t)) = true -> constructorDay t = Day (LocalTime t).
Proof.
  intros P. apply plainYear_spec in P. unfold constructorDay.
  rewrite MakeFullYear_plain by exact P. rewrite MakeDay_of_fields. lia.
Qed.

Lemma constructorDay_shifted t :
  plainYear (YearFromTime (LocalTime t)) = false -> -25567 <= constructorDay t.
Proof.
  intros P. unfold plainYear in P. apply orb_false_elim in P as [P1 P2].
  apply Z.ltb_ge in P1, P2. unfold constructorDay.
  set (y := YearFromTime (LocalTime t)) in *.
  pose proof (MonthFromTime_bound (LocalTime t)) as Mb.
  pose proof (DateFromTime_bound (LocalTime t)) as Db.
  assert (Q : MakeFullYear y = 1900 + y).
  { unfold MakeFullYear. destruct (Z.leb_spec 0 y), (Z.leb_spec y 99); simpl; lia. }
  rewrite Q, MakeDay_plain by exact Mb.
  assert (Hl : 0 <= leapDays (1900 + y) <= 1)
    by (destruct (leapDays_cases (1900 + y)) as [[-> _] | [-> _]]; lia).
  pose proof (monthStart_mono _ _ Hl Mb) as (M0 & _).
  assert (DayFromYear 1900 <= DayFromYear (1900 + y)) by (apply DayFromYear_mono; lia).
  rewrite DayFromYear_1900 in *. lia.
Qed.

(** Whatever the year of [t], the day the constructor names lies in a year
    the constructor takes as written. *)
Lemma constructorDay_year t :
  MakeFullYear (YearFromDay (constructorDay t)) = YearFromDay (constructorDay t).
Proof.
  apply MakeFullYear_fixed.
  destruct (plainYear (YearFromTime (LocalTime t))) eqn:P.
  - rewrite (constructorDay_plain t P). apply plainYear_spec in P. exact P.
  - right. apply late_day. pose proof (constructorDay_shifted t P). lia.
Qed.

(** [new Date(y, m, d)] on the local fields of [t]. *)
Lemma new_Date3_fields t :
  new_Date3 (getFullYear (Valid t)) (getMonth (Valid t)) (getDate (Valid t))
  = TimeClip (UTC (MakeDate (constructorDay t) 0)).
Proof.
  unfold new_Date3, new_Date7, constructorDay. getters. cbv zeta.
  replace (MakeTime 0 0 0 0) with 0 by reflexivity. reflexivity.
Qed.

(** [startOfDay] of a local midnight in a year taken as written. *)
Lemma startOfDay_midnight d :
  MakeFullYear (YearFromDay d) = YearFromDay d ->
  startOfDay (Valid (UTC (MakeDate d 0))) = TimeClip (UTC (MakeDate d 0)).
Proof.
  intros Q. destruct (local_midnight_fields d) as [D1 T1].
  unfold startOfDay. getters.
  rewrite new_Date7_local by (unfold YearFromTime; rewrite D1; exact Q).
  rewrite D1. f_equal. f_equal. f_equal. lia.
Qed.

(** [startOfWeekSunday] on any time value: the Sunday on or before the day
    the constructor names, if that day and the Sunday are time values. *)
Lemma startOfWeekSunday_eval t :
  startOfWeekSunday (Valid t)
  = match TimeClip (UTC (MakeDate (constructorDay t) 0)) with
    | Valid _ =>
        TimeClip (UTC (MakeDate (constructorDay t - WeekDay (LocalTime t)) 0))
    | InvalidDate => InvalidDate
    end.
Proof.
  unfold startOfWeekSunday. cbv zeta. rewrite new_Date3_fields.
  destruct (TimeClip (UTC (MakeDate (constructorDay t) 0))) as [t1 |] eqn:E1;
    [| reflexivity].
  pose proof (TimeClip_inv _ _ E1) as [-> R1].
  rewrite (startOfDay_midnight _ (constructorDay_year t)), E1.
  destruct (local_midnight_fields (constructorDay t)) as [D1 T1].
  unfold setDate, nsub. getters.
  rewrite MakeDay_of_fields, T1, D1. f_equal. f_equal. f_equal. lia.
Qed.

(** The parts of the weekly ranges. *)
Lemma completed_week_end ref :
  end_ (getCompletedWeeklyRangeFrom ref)
  = new_Date_of_num (nsub (getTime (startOfWeekSunday ref)) (Some 1)).
Proof. reflexivity. Qed.

Lemma completed_week_start ref :
  start (getCompletedWeeklyRangeFrom ref)
  = startOfWeekSunday
      (new_Date3 (getFullYear (end_ (getCompletedWeeklyRangeFrom ref)))
                 (getMonth (end_ (getCompletedWeeklyRangeFrom ref)))
                 (getDate (end_ (getCompletedWeeklyRangeFrom ref)))).
Proof. reflexivity. Qed.

Lemma current_week_start ref :
  start (getCurrentWeeklyRangeContaining ref) = startOfWeekSunday ref.
Proof. reflexivity. Qed.

(** [new Date(d.getTime() - 1)] *)
Lemma new_Date_pred c0 e :
  new_Date_of_num (nsub (getTime (Valid c0)) (Some 1)) = Valid e ->
  e = c0 - 1 /\ - maxTime <= c0 - 1 <= maxTime.
Proof. intros E. apply TimeClip_inv. exact E. Qed.

Lemma startOfWeekSunday_invalid : startOfWeekSunday InvalidDate = InvalidDate.
Proof. reflexivity. Qed.

(** The constructor names the day of a local midnight in a year taken as
    written. *)
Lemma constructorDay_midnight d :
  MakeFullYear (YearFromDay d) = YearFromDay d ->
  constructorDay (UTC (MakeDate d 0)) = d.
Proof.
  intros Q. destruct (local_midnight_fields d) as [D1 _].
  rewrite constructorDay_plain; [exact D1 |].
  apply plainYear_spec, MakeFullYear_fixed. unfold YearFromTime. rewrite D1. exact Q.
Qed.

Lemma WeekDay_midnight d : WeekDay (LocalTime (UTC (MakeDate d 0))) = (d + 4) mod 7.
Proof.
  destruct (local_midnight_fields d) as [D1 _]. unfold WeekDay. rewrite D1. reflexivity.
Qed.

Lemma weekStartDay_sunday t : (weekStartDay t + 4) mod 7 = 0.
Proof. unfold weekStartDay, WeekDay. zdiv. Qed.

Lemma completedWeekRef_spec t :
  completedWeekRef t = true
  <-> (plainYear (YearFromTime (LocalTime t)) = true
       /\ plainYear (YearFromDay (weekStartDay t - 1)) = true
       /\ - maxTime <= UTC (MakeDate (weekStartDay t - 7) 0)
       /\ t <= maxTime).
Proof.
  unfold completedWeekRef. rewrite !andb_true_iff, !Z.leb_le. tauto.
Qed.

(** On the reference instants of [completedWeekRef] the completed weekly
    range is the week before. *)
Lemma completed_week_sufficient t :
  completedWeekRef t = true -> completedWeekIsPreviousWeek t.
Proof.
  intros S. apply completedWeekRef_spec in S as (Py & Pe & Lo & Hi).
  pose proof (Day_bounds (LocalTime t)) as B. pose proof LocalTZA_bound as TZ.
  pose proof (WeekDay_bound (LocalTime t)) as W.
  pose proof (weekStartDay_sunday t) as Sun.
  pose proof (constructorDay_plain t Py) as C.
  assert (Hsun : weekStartDay t = Day (LocalTime t) - WeekDay (LocalTime t)) by reflexivity.
  set (sun := weekStartDay t) in *.
  assert (E0 : startOfWeekSunday (Valid t) = Valid (UTC (MakeDate sun 0))).
  { rewrite startOfWeekSunday_eval, C, <- Hsun.
    rewrite TimeClip_valid; [apply TimeClip_valid |];
      unfold UTC, MakeDate, LocalTime, msPerDay, maxTime in *; lia. }
  (* the last millisecond of the Saturday before *)
  set (e := UTC (MakeDate sun 0) - 1).
  assert (Le : LocalTime e = MakeDate (sun - 1) (msPerDay - 1)).
  { subst e. rewrite <- MakeDate_pred. unfold LocalTime, UTC. lia. }
  assert (De : Day (LocalTime e) = sun - 1).
  { rewrite Le. apply Day_MakeDate. unfold msPerDay. lia. }
  assert (Ee : new_Date_of_num (nsub (getTime (Valid (UTC (MakeDate sun 0)))) (Some 1))
               = Valid e).
  { unfold new_Date_of_num, nsub, getTime. apply TimeClip_valid.
    subst e. unfold UTC, MakeDate, LocalTime, msPerDay, maxTime in *. lia. }
  assert (Ce : constructorDay e = sun - 1).
  { rewrite constructorDay_plain; [exact De |]. unfold YearFromTime. rewrite De. exact Pe. }
  (* the date-only copy of that Saturday *)
  set (t2 := UTC (MakeDate (sun - 1) 0)).
  assert (R2 : - maxTime <= t2 <= maxTime)
    by (subst t2; unfold UTC, MakeDate, LocalTime, msPerDay, maxTime in *; lia).
  assert (E2 : new_Date3 (getFullYear (Valid e)) (getMonth (Valid e)) (getDate (Valid e))
               = Valid t2).
  { rewrite new_Date3_fields, Ce. apply TimeClip_valid. exact R2. }
  assert (Q2 : MakeFullYear (YearFromDay (sun - 1)) = YearFromDay (sun - 1))
    by (apply MakeFullYear_fixed, plainYear_spec; exact Pe).
  destruct (local_midnight_fields (sun - 1)) as [D2 T2]. fold t2 in D2, T2.
  assert (W2 : WeekDay (LocalTime t2) = 6).
  { unfold WeekDay. rewrite D2. zdiv. }
  assert (E3 : startOfWeekSunday (Valid t2) = Valid (UTC (MakeDate (sun - 7) 0))).
  { rewrite startOfWeekSunday_eval. unfold t2 at 1 2.
    rewrite (constructorDay_midnight _ Q2). fold t2.
    rewrite (TimeClip_valid t2 R2), W2.
    replace (sun - 1 - 6) with (sun - 7) by lia. apply TimeClip_valid.
    unfold UTC, MakeDate, LocalTime, msPerDay, maxTime in *; lia. }
  exists (UTC (MakeDate (sun - 7) 0)), e, (UTC (MakeDate sun 0)).
  unfold getCompletedWeeklyRangeFrom, getCurrentWeeklyRangeContaining. cbv zeta.
  cbn [start end_]. rewrite E0, Ee, E2, E3.
  destruct (local_midnight_fields (sun - 7)) as [D7 T7].
  repeat split.
  - subst e. unfold UTC, MakeDate, msPerDay. lia.
  - unfold getDay, local_field. f_equal. unfold WeekDay. rewrite D7. zdiv.
  - apply clockFields_midnight.
  - unfold getDay, local_field. f_equal. unfold WeekDay. rewrite De. zdiv.
  - subst e. apply clockFields_last_ms.
  - rewrite D7. lia.
  - rewrite D7. lia.
Qed.

(** Outside them it is not: a year in 0..99 sends the range to the
    twentieth century, and a Sunday before the first time value leaves it
    without dates. *)
Lemma completed_week_necessary t :
  - maxTime <= t <= maxTime -> completedWeekIsPreviousWeek t -> completedWeekRef t = true.
Proof.
  intros R (s & e & c0 & Es & Ee & Ec & He & _ & _ & _ & _ & _ & Hd).
  pose proof (WeekDay_bound (LocalTime t)) as W.
  pose proof (weekStartDay_sunday t) as Sun.
  assert (Hsun : weekStartDay t = Day (LocalTime t) - WeekDay (LocalTime t)) by reflexivity.
  rewrite completed_week_start in Es. rewrite Ee in Es.
  rewrite completed_week_end in Ee. rewrite current_week_start in Ec.
  rewrite Ec in Ee.
  (* the start of the current week *)
  rewrite startOfWeekSunday_eval in Ec.
  destruct (TimeClip (UTC (MakeDate (constructorDay t) 0))) as [t1 |] eqn:E1;
    [| discriminate].
  apply TimeClip_inv in Ec as [-> Rc].
  (* the end of the completed week *)
  apply new_Date_pred in Ee as [-> Re]. clear He.
  set (e := UTC (MakeDate (constructorDay t - WeekDay (LocalTime t)) 0) - 1) in *.
  assert (Le : LocalTime e
               = MakeDate (constructorDay t - WeekDay (LocalTime t) - 1) (msPerDay - 1)).
  { subst e. rewrite <- MakeDate_pred. unfold LocalTime, UTC. lia. }
  assert (De : Day (LocalTime e) = constructorDay t - WeekDay (LocalTime t) - 1).
  { rewrite Le. apply Day_MakeDate. unfold msPerDay. lia. }
  (* its start *)
  rewrite new_Date3_fields in Es.
  destruct (TimeClip (UTC (MakeDate (constructorDay e) 0))) as [t2 |] eqn:E2;
    [| rewrite startOfWeekSunday_invalid in Es; discriminate].
  apply TimeClip_inv in E2 as E2'. destruct E2' as [-> R2].
  rewrite startOfWeekSunday_eval in Es.
  rewrite (constructorDay_midnight _ (constructorDay_year e)), E2 in Es.
  apply TimeClip_inv in Es as [-> Rs].
  destruct (local_midnight_fields (constructorDay e)) as [D2 _].
  pose proof (WeekDay_bound (LocalTime (UTC (MakeDate (constructorDay e) 0)))) as W2.
  rewrite WeekDay_midnight in Rs, Hd, W2.
  set (w2 := (constructorDay e + 4) mod 7) in *.
  destruct (local_midnight_fields (constructorDay e - w2)) as [Ds _].
  rewrite Ds in Hd.
  (* the year of the reference instant *)
  destruct (plainYear (YearFromTime (LocalTime t))) eqn:Py.
  2:{ exfalso. pose proof (constructorDay_shifted t Py) as Ct.
      assert (Ce : -25575 <= constructorDay e).
      { destruct (plainYear (YearFromTime (LocalTime e))) eqn:Pe.
        - rewrite (constructorDay_plain e Pe), De. lia.
        - pose proof (constructorDay_shifted e Pe). lia. }
      assert (Et : Day (LocalTime t) < -683003).
      { apply early_day. change (0 <= YearFromTime (LocalTime t) <= 99).
        unfold plainYear in Py. apply orb_false_elim in Py as [P1 P2].
        apply Z.ltb_ge in P1, P2. lia. }
      lia. }
  pose proof (constructorDay_plain t Py) as C. rewrite C in *.
  rewrite <- Hsun in *.
  (* the year of the Saturday before *)
  destruct (plainYear (YearFromDay (weekStartDay t - 1))) eqn:Pe.
  2:{ exfalso.
      assert (Pe' : plainYear (YearFromTime (LocalTime e)) = false)
        by (unfold YearFromTime; rewrite De; exact Pe).
      pose proof (constructorDay_shifted e Pe') as Ce.
      assert (Et : weekStartDay t - 1 < -683003).
      { apply early_day. unfold plainYear in Pe. apply orb_false_elim in Pe as [P1 P2].
        apply Z.ltb_ge in P1, P2. lia. }
      lia. }
  assert (Ce : constructorDay e = weekStartDay t - 1).
  { rewrite constructorDay_plain; [exact De |]. unfold YearFromTime. rewrite De. exact Pe. }
  assert (W6 : w2 = 6) by (subst w2; rewrite Ce; zdiv).
  rewrite Ce, W6 in Rs.
  replace (weekStartDay t - 1 - 6) with (weekStartDay t - 7) in Rs by lia.
  apply completedWeekRef_spec. rewrite Py, Pe. repeat split; lia.
Qed.

(** *** The completed month *)

Lemma startOfMonth_eval t :
  startOfMonth (Valid t)
  = TimeClip (UTC (MakeDate (MakeDay (MakeFullYear (YearFromTime (LocalTime t)))
                                     (MonthFromTime (LocalTime t)) 1) 0)).
Proof.
  unfold startOfMonth, new_Date7. getters. cbv zeta.
  replace (MakeTime 0 0 0 0) with 0 by reflexivity. reflexivity.
Qed.

Lemma completedMonthRef_spec t :
  completedMonthRef t = true
  <-> (plainYear (YearFromTime (LocalTime t)) = true
       /\ plainYear (fst (previousMonth t)) = true
       /\ - maxTime <= UTC (MakeDate (MakeDay (fst (previousMonth t))
                                              (snd (previousMonth t)) 1) 0)
       /\ t <= maxTime).
Proof.
  unfold completedMonthRef. rewrite !andb_true_iff, !Z.leb_le. tauto.
Qed.

Lemma localFields_invalid :
  localFields InvalidDate = [None; None; None; None; None; None; None].
Proof. reflexivity. Qed.

(** The last millisecond before the first of month [m] of year [y]. *)
Lemma last_ms_of_previous_month y m :
  0 <= m <= 11 ->
  let py := if m =? 0 then y - 1 else y in
  let pm := if m =? 0 then 11 else m - 1 in
  UTC (MakeDate (MakeDay y m 1) 0) - 1
  = UTC (MakeDate (MakeDay py pm (DaysInMonth py pm)) (MakeTime 23 59 59 999)).
Proof.
  intros Hm. cbv zeta. destruct (MakeDay_prev_month y m Hm) as (P & _ & _).
  cbv zeta in P. rewrite <- P, MakeTime_last, <- MakeDate_pred. unfold UTC. lia.
Qed.

Lemma first_of_previous_month y m :
  0 <= m <= 11 ->
  let py := if m =? 0 then y - 1 else y in
  let pm := if m =? 0 then 11 else m - 1 in
  MakeDay py pm 1 = MakeDay y m 1 - DaysInMonth py pm.
Proof.
  intros Hm. cbv zeta. destruct (MakeDay_prev_month y m Hm) as (P & Pm & Pd).
  cbv zeta in P, Pm, Pd. rewrite !MakeDay_plain in P by lia.
  rewrite !MakeDay_plain by lia. lia.
Qed.

Lemma completed_month_end ref :
  end_ (getCompletedMonthlyRangeFrom ref)
  = new_Date_of_num (nsub (getTime (startOfMonth ref)) (Some 1)).
Proof. reflexivity. Qed.

Lemma completed_month_start ref :
  start (getCompletedMonthlyRangeFrom ref)
  = startOfMonth (end_ (getCompletedMonthlyRangeFrom ref)).
Proof. reflexivity. Qed.

Lemma startOfMonth_invalid : startOfMonth InvalidDate = InvalidDate.
Proof. reflexivity. Qed.

Lemma new_Date_pred_invalid :
  new_Date_of_num (nsub (getTime InvalidDate) (Some 1)) = InvalidDate.
Proof. reflexivity. Qed.

Lemma previousMonth_fst t :
  fst (previousMonth t)
  = if MonthFromTime (LocalTime t) =? 0 then YearFromTime (LocalTime t) - 1
    else YearFromTime (LocalTime t).
Proof. reflexivity. Qed.

Lemma previousMonth_snd t :
  snd (previousMonth t)
  = if MonthFromTime (LocalTime t) =? 0 then 11 else MonthFromTime (LocalTime t) - 1.
Proof. reflexivity. Qed.

Lemma DaysInMonth_min y m : 0 <= m <= 11 -> 28 <= DaysInMonth y m <= 31.
Proof.
  intros Hm. rewrite DaysInMonth_monthStart by exact Hm.
  assert (Hl : 0 <= leapDays y <= 1)
    by (destruct (leapDays_cases y) as [[-> _] | [-> _]]; lia).
  pose proof (monthStart_mono (leapDays y) m Hl Hm). lia.
Qed.

Lemma localFields_year x y m rest :
  localFields (Valid x) = Some y :: Some m :: rest ->
  YearFromTime (LocalTime x) = y /\ MonthFromTime (LocalTime x) = m.
Proof. intros E. injection E. auto. Qed.

(** The fields of the last millisecond before the first of the month the
    constructor builds from the year and the month of [t]. *)
Lemma month_end_fields t c0 :
  startOfMonth (Valid t) = Valid c0 ->
  localFields (Valid (c0 - 1))
  = [Some (if MonthFromTime (LocalTime t) =? 0
           then MakeFullYear (YearFromTime (LocalTime t)) - 1
           else MakeFullYear (YearFromTime (LocalTime t)));
     Some (if MonthFromTime (LocalTime t) =? 0 then 11 else MonthFromTime (LocalTime t) - 1);
     Some (DaysInMonth
             (if MonthFromTime (LocalTime t) =? 0
              then MakeFullYear (YearFromTime (LocalTime t)) - 1
              else MakeFullYear (YearFromTime (LocalTime t)))
             (if MonthFromTime (LocalTime t) =? 0 then 11
              else MonthFromTime (LocalTime t) - 1));
     Some 23; Some 59; Some 59; Some 999].
Proof.
  intros E0. pose proof (MonthFromTime_bound (LocalTime t)) as Mb.
  rewrite startOfMonth_eval in E0. apply TimeClip_inv in E0 as [-> _].
  rewrite (last_ms_of_previous_month _ _ Mb).
  destruct (MakeDay_prev_month (MakeFullYear (YearFromTime (LocalTime t)))
              (MonthFromTime (LocalTime t)) Mb) as (_ & Pm & Pd).
  apply localFields_of_MakeDay; lia.
Qed.

Lemma month_start_fields y m :
  0 <= m <= 11 ->
  localFields (Valid (UTC (MakeDate (MakeDay y m 1) 0)))
  = [Some y; Some m; Some 1; Some 0; Some 0; Some 0; Some 0].
Proof.
  intros Hm. pose proof (DaysInMonth_min y m Hm).
  replace 0 with (MakeTime 0 0 0 0) at 1 by reflexivity.
  apply localFields_of_MakeDay; lia.
Qed.

(** Local midnights between a time value and the day of another are time
    values, and so are the milliseconds before them. *)
Lemma midnight_range a b t :
  - maxTime <= UTC (MakeDate a 0) -> a <= b -> b <= Day (LocalTime t) -> t <= maxTime ->
  - maxTime <= UTC (MakeDate b 0) <= maxTime.
Proof.
  intros Lo Hab Hb Hi. pose proof (Day_bounds (LocalTime t)) as B.
  unfold UTC, MakeDate, LocalTime, msPerDay, maxTime in *. lia.
Qed.

Lemma last_ms_range a b t :
  - maxTime <= UTC (MakeDate a 0) -> a < b -> b <= Day (LocalTime t) -> t <= maxTime ->
  - maxTime <= UTC (MakeDate b 0) - 1 <= maxTime.
Proof.
  intros Lo Hab Hb Hi. pose proof (Day_bounds (LocalTime t)) as B.
  unfold UTC, MakeDate, LocalTime, msPerDay, maxTime in *. lia.
Qed.

(** The first of the month before, in days. *)
Lemma previous_month_days y m :
  0 <= m <= 11 ->
  0 <= (if m =? 0 then 11 else m - 1) <= 11
  /\ MakeDay (if m =? 0 then y - 1 else y) (if m =? 0 then 11 else m - 1) 1
     < MakeDay y m 1.
Proof.
  intros Hm. pose proof (first_of_previous_month y m Hm) as F1.
  destruct (MakeDay_prev_month y m Hm) as (_ & Pm & Pd).
  cbv zeta in F1. split; [exact Pm | lia].
Qed.

(** On the reference instants of [completedMonthRef] the completed monthly
    range is the calendar month before. *)
Lemma completed_month_sufficient t :
  completedMonthRef t = true -> completedMonthIsPreviousMonth t.
Proof.
  intros S. apply completedMonthRef_spec in S as (Py & Pp & Lo & Hi).
  rewrite previousMonth_fst in Pp, Lo. rewrite previousMonth_snd in Lo.
  pose proof (MonthFromTime_bound (LocalTime t)) as Mb.
  pose proof (DateFromTime_bound (LocalTime t)) as Db.
  assert (Qy : MakeFullYear (YearFromTime (LocalTime t)) = YearFromTime (LocalTime t))
    by (apply MakeFullYear_fixed, plainYear_spec; exact Py).
  destruct (previous_month_days (YearFromTime (LocalTime t))
              (MonthFromTime (LocalTime t)) Mb) as [Pm F1].
  pose proof (MakeDay_of_fields (LocalTime t) 1) as D1.
  unfold completedMonthIsPreviousMonth. cbv zeta.
  pose proof (month_end_fields t) as Fe. rewrite Qy in Fe.
  remember (if MonthFromTime (LocalTime t) =? 0 then YearFromTime (LocalTime t) - 1
            else YearFromTime (LocalTime t)) as py eqn:Hpy.
  remember (if MonthFromTime (LocalTime t) =? 0 then 11
            else MonthFromTime (LocalTime t) - 1) as pm eqn:Hpm.
  assert (Qp : MakeFullYear py = py)
    by (apply MakeFullYear_fixed, plainYear_spec; exact Pp).
  assert (E0 : startOfMonth (Valid t)
               = Valid (UTC (MakeDate (MakeDay (YearFromTime (LocalTime t))
                                               (MonthFromTime (LocalTime t)) 1) 0))).
  { rewrite startOfMonth_eval, Qy. apply TimeClip_valid.
    apply (midnight_range (MakeDay py pm 1) _ t); [exact Lo | lia | lia | exact Hi]. }
  specialize (Fe _ E0).
  assert (Ee : end_ (getCompletedMonthlyRangeFrom (Valid t))
               = Valid (UTC (MakeDate (MakeDay (YearFromTime (LocalTime t))
                                               (MonthFromTime (LocalTime t)) 1) 0) - 1)).
  { rewrite completed_month_end, E0. unfold new_Date_of_num, nsub, getTime.
    apply TimeClip_valid.
    apply (last_ms_range (MakeDay py pm 1) _ t); [exact Lo | lia | lia | exact Hi]. }
  rewrite completed_month_start, Ee. split; [| exact Fe].
  apply localFields_year in Fe as [Ye Me].
  rewrite startOfMonth_eval, Ye, Me, Qp.
  rewrite TimeClip_valid; [apply month_start_fields; exact Pm |].
  apply (midnight_range (MakeDay py pm 1) _ t); [exact Lo | lia | lia | exact Hi].
Qed.

(** Outside them it is not. *)
Lemma completed_month_necessary t :
  - maxTime <= t <= maxTime -> completedMonthIsPreviousMonth t ->
  completedMonthRef t = true.
Proof.
  intros R [Fs Fe].
  pose proof (MonthFromTime_bound (LocalTime t)) as Mb.
  rewrite completed_month_start in Fs. rewrite completed_month_end in Fs, Fe.
  destruct (startOfMonth (Valid t)) as [c0 |] eqn:E0;
    [| rewrite new_Date_pred_invalid, localFields_invalid in Fe; discriminate Fe].
  destruct (new_Date_of_num (nsub (getTime (Valid c0)) (Some 1))) as [e |] eqn:Ee;
    [| rewrite localFields_invalid in Fe; discriminate Fe].
  apply new_Date_pred in Ee as [-> Re].
  (* the year of the reference instant *)
  pose proof (month_end_fields t c0 E0) as Fe'. rewrite Fe in Fe'.
  assert (Qy : MakeFullYear (YearFromTime (LocalTime t)) = YearFromTime (LocalTime t)).
  { injection Fe' as Y _. destruct (MonthFromTime (LocalTime t) =? 0); lia. }
  (* the year of the month before *)
  apply localFields_year in Fe as [Ye Me].
  rewrite startOfMonth_eval, Ye, Me in Fs.
  destruct (MakeDay_prev_month (YearFromTime (LocalTime t))
              (MonthFromTime (LocalTime t)) Mb) as (_ & Pm & _).
  cbv zeta in Pm.
  destruct (TimeClip (UTC (MakeDate (MakeDay (MakeFullYear
              (if MonthFromTime (LocalTime t) =? 0 then YearFromTime (LocalTime t) - 1
               else YearFromTime (LocalTime t)))
              (if MonthFromTime (LocalTime t) =? 0 then 11
               else MonthFromTime (LocalTime t) - 1) 1) 0))) as [s0 |] eqn:Es;
    [| rewrite localFields_invalid in Fs; discriminate Fs].
  apply TimeClip_inv in Es as [-> Rs].
  rewrite month_start_fields in Fs by exact Pm.
  assert (Qp : MakeFullYear (if MonthFromTime (LocalTime t) =? 0
                             then YearFromTime (LocalTime t) - 1
                             else YearFromTime (LocalTime t))
               = if MonthFromTime (LocalTime t) =? 0 then YearFromTime (LocalTime t) - 1
                 else YearFromTime (LocalTime t))
    by (injection Fs as Y; exact Y).
  rewrite Qp in Rs.
  apply completedMonthRef_spec. rewrite previousMonth_fst, previousMonth_snd.
  repeat split.
  - apply plainYear_spec, MakeFullYear_fixed. exact Qy.
  - apply plainYear_spec, MakeFullYear_fixed. exact Qp.
  - lia.
  - lia.
Qed.



(** The constructor on a literal calendar date and clock time. *)
Lemma new_Date7_valid y m dt h mi s ms :
  y < 0 \/ 99 < y ->
  - maxTime + msPerDay <= MakeDate (MakeDay y m dt) (MakeTime h mi s ms)
    <= maxTime - msPerDay ->
  new_Date7 (Some y) (Some m) (Some dt) (Some h) (Some mi) (Some s) (Some ms)
  = Valid (UTC (MakeDate (MakeDay y m dt) (MakeTime h mi s ms))).
Proof.
  intros Y R. unfold new_Date7. rewrite MakeFullYear_plain by exact Y.
  apply TimeClip_valid. pose proof LocalTZA_bound. unfold UTC, msPerDay in *. lia.
Qed.

Lemma strict_eq_true a k : strict_eq a k = true <-> a = Some k.
Proof.
  destruct a as [x |]; simpl.
  - rewrite Z.eqb_eq. split; congruence.
  - split; discriminate.
Qed.

Lemma isWeeklyReportTrigger_fields d :
  isWeeklyReportTrigger d = true
  <-> getDay d = Some 0 /\ getHours d = Some 7 /\ getMinutes d = Some 0.
Proof.
  unfold isWeeklyReportTrigger. rewrite !andb_true_iff, !strict_eq_true. tauto.
Qed.

Lemma isMonthlyReportTrigger_fields d :
  isMonthlyReportTrigger d = true
  <-> getDate d = Some 1 /\ getHours d = Some 7 /\ getMinutes d = Some 0.
Proof.
  unfold isMonthlyReportTrigger. rewrite !andb_true_iff, !strict_eq_true. tauto.
Qed.

(** A local time with hour 7 and minute 0 is 07:00 of its day plus its
    seconds and milliseconds. *)
Lemma seven_sharp L :
  HourFromTime L = 7 -> MinFromTime L = 0 ->
  L = MakeDate (Day L) (MakeTime 7 0 (SecFromTime L) (msFromTime L))
  /\ 0 <= SecFromTime L <= 59 /\ 0 <= msFromTime L <= 999.
Proof.
  unfold HourFromTime, MinFromTime, SecFromTime, msFromTime, MakeDate, MakeTime, Day,
    msPerDay, msPerHour, msPerMinute, msPerSecond.
  intros. repeat split; zdiv.
Qed.

Lemma weekly_trigger_window d :
  isWeeklyReportTrigger d = true <-> sundaySevenSharp d.
Proof.
  rewrite isWeeklyReportTrigger_fields. unfold sundaySevenSharp. split.
  - intros (Hd & Hh & Hm). destruct d as [t |]; [| discriminate].
    unfold getDay, getHours, getMinutes, local_field in *.
    injection Hd as Hd. injection Hh as Hh. injection Hm as Hm.
    destruct (seven_sharp (LocalTime t) Hh Hm) as (E & Sb & Mb).
    exists t, (Day (LocalTime t)), (SecFromTime (LocalTime t)), (msFromTime (LocalTime t)).
    repeat split; try lia; exact Hd.
  - intros (t & day & s & ms & -> & Hw & Hs & Hms & E).
    getters. rewrite E.
    destruct (clock_of_MakeDate day 7 0 s ms) as (-> & -> & _); try lia.
    repeat split. f_equal. unfold WeekDay.
    rewrite Day_MakeDate by (apply MakeTime_bound; lia). exact Hw.
Qed.

Lemma monthly_trigger_window d :
  isMonthlyReportTrigger d = true <-> firstOfMonthSevenSharp d.
Proof.
  rewrite isMonthlyReportTrigger_fields. unfold firstOfMonthSevenSharp. split.
  - intros (Hd & Hh & Hm). destruct d as [t |]; [| discriminate].
    unfold getDate, getHours, getMinutes, local_field in *.
    injection Hd as Hd. injection Hh as Hh. injection Hm as Hm.
    destruct (seven_sharp (LocalTime t) Hh Hm) as (E & Sb & Mb).
    exists t, (YearFromTime (LocalTime t)), (MonthFromTime (LocalTime t)),
      (SecFromTime (LocalTime t)), (msFromTime (LocalTime t)).
    pose proof (MonthFromTime_bound (LocalTime t)).
    repeat split; try lia.
    rewrite MakeDay_of_fields, Hd.
    replace (Day (LocalTime t) - 1 + 1) with (Day (LocalTime t)) by lia. exact E.
  - intros (t & y & m & s & ms & -> & Hm & Hs & Hms & E).
    getters. rewrite E.
    destruct (clock_of_MakeDate (MakeDay y m 1) 7 0 s ms) as (-> & -> & _); try lia.
    assert (Dm : 1 <= 1 <= DaysInMonth y m).
    { rewrite DaysInMonth_monthStart by lia.
      assert (Hl : 0 <= leapDays y <= 1)
        by (destruct (leapDays_cases y) as [[-> _] | [-> _]]; lia).
      pose proof (monthStart_mono (leapDays y) m Hl Hm). lia. }
    destruct (fields_of_MakeDay y m 1 (MakeDate (MakeDay y m 1) (MakeTime 7 0 s ms)) Hm Dm)
      as (_ & _ & ->); [apply Day_MakeDate; apply MakeTime_bound; lia |].
    repeat split.
Qed.

(** The fields of a date built from a literal calendar date and clock time. *)
Lemma literal_date y m dt h mi s ms :
  y < 0 \/ 99 < y -> 0 <= m <= 11 -> 1 <= dt <= DaysInMonth y m ->
  0 <= h <= 23 -> 0 <= mi <= 59 -> 0 <= s <= 59 -> 0 <= ms <= 999 ->
  - maxTime + msPerDay <= MakeDay y m dt * msPerDay <= maxTime - 2 * msPerDay ->
  new_Date7 (Some y) (Some m) (Some dt) (Some h) (Some mi) (Some s) (Some ms)
  = Valid (UTC (MakeDate (MakeDay y m dt) (MakeTime h mi s ms)))
  /\ localFields
       (new_Date7 (Some y) (Some m) (Some dt) (Some h) (Some mi) (Some s) (Some ms))
     = [Some y; Some m; Some dt; Some h; Some mi; Some s; Some ms]
  /\ getDay (new_Date7 (Some y) (Some m) (Some dt) (Some h) (Some mi) (Some s) (Some ms))
     = Some ((MakeDay y m dt + 4) mod 7).
Proof.
  intros Y Hm Hd Hh Hmi Hs Hms R.
  pose proof (MakeTime_bound h mi s ms Hh Hmi Hs Hms) as Tb.
  rewrite new_Date7_valid;
    [| exact Y | unfold MakeDate, msPerDay in *; lia].
  split; [reflexivity |]. split; [apply localFields_of_MakeDay; assumption |].
  unfold getDay, local_field, WeekDay. rewrite LocalTime_UTC, Day_MakeDate by exact Tb.
  reflexivity.
Qed.

Lemma localFields_inv d y m dt h mi s ms :
  localFields d = [y; m; dt; h; mi; s; ms] ->
  getFullYear d = y /\ getMonth d = m /\ getDate d = dt /\ getHours d = h
  /\ getMinutes d = mi /\ getSeconds d = s /\ getMilliseconds d = ms.
Proof. unfold localFields. intros E. injection E. auto 10. Qed.

Ltac literal_side :=
  first [assumption | lia | vm_compute; intuition discriminate].

(** Sunday 26 October 2025, 07:01:00 local time: neither trigger fires. *)
Lemma sunday_0701_no_trigger :
  let d := new_Date7 (Some 2025) (Some 9) (Some 26) (Some 7) (Some 1) (Some 0) (Some 0) in
  getDay d = Some 0 /\ isWeeklyReportTrigger d = false
  /\ isMonthlyReportTrigger d = false.
Proof.
  cbv zeta.
  destruct (literal_date 2025 9 26 7 1 0 0) as (_ & F & W); [literal_side .. |].
  apply localFields_inv in F as (_ & _ & Fd & Fh & Fm & _).
  unfold isWeeklyReportTrigger, isMonthlyReportTrigger. rewrite W, Fd, Fh, Fm.
  repeat split.
Qed.

(** Monday 27 October 2025, 07:00:00 local time: no weekly trigger. *)
Lemma monday_0700_no_weekly_trigger :
  let d := new_Date7 (Some 2025) (Some 9) (Some 27) (Some 7) (Some 0) (Some 0) (Some 0) in
  getDay d = Some 1 /\ isWeeklyReportTrigger d = false.
Proof.
  cbv zeta.
  destruct (literal_date 2025 9 27 7 0 0 0) as (_ & F & W); [literal_side .. |].
  apply localFields_inv in F as (_ & _ & Fd & Fh & Fm & _).
  unfold isWeeklyReportTrigger. rewrite W, Fh, Fm. repeat split.
Qed.

(** Sunday 26 October 2025 at 07:00 and any second and millisecond: the
    weekly trigger fires. *)
Lemma sunday_0700_weekly_trigger s ms :
  0 <= s <= 59 -> 0 <= ms <= 999 ->
  isWeeklyReportTrigger
    (new_Date7 (Some 2025) (Some 9) (Some 26) (Some 7) (Some 0) (Some s) (Some ms)) = true.
Proof.
  intros Hs Hms.
  destruct (literal_date 2025 9 26 7 0 s ms) as (_ & F & W); [literal_side .. |].
  apply localFields_inv in F as (_ & _ & Fd & Fh & Fm & _).
  unfold isWeeklyReportTrigger. rewrite W, Fh, Fm. reflexivity.
Qed.

(** Claim C5.  [isWeeklyReportTrigger d] holds exactly when [d] is an
    instant of a local Sunday at hour 7, minute 0, with any second and
    millisecond, and [isMonthlyReportTrigger d] exactly when [d] is such an
    instant of the first day of a month; at Sunday 07:01:00 both are false,
    and at Monday 07:00:00 the weekly trigger is false. *)
Theorem report_triggers_fire_at_seven_sharp :
  (forall d, isWeeklyReportTrigger d = true <-> sundaySevenSharp d)
  /\ (forall d, isMonthlyReportTrigger d = true <-> firstOfMonthSevenSharp d)
  /\ (forall d,
        (isWeeklyReportTrigger d = true
         <-> getDay d = Some 0 /\ getHours d = Some 7 /\ getMinutes d = Some 0)
        /\ (isMonthlyReportTrigger d = true
            <-> getDate d = Some 1 /\ getHours d = Some 7 /\ getMinutes d = Some 0))
  /\ (let d := new_Date7 (Some 2025) (Some 9) (Some 26)
                         (Some 7) (Some 1) (Some 0) (Some 0) in
      getDay d = Some 0 /\ isWeeklyReportTrigger d = false
      /\ isMonthlyReportTrigger d = false)
  /\ (let d := new_Date7 (Some 2025) (Some 9) (Some 27)
                         (Some 7) (Some 0) (Some 0) (Some 0) in
      getDay d = Some 1 /\ isWeeklyReportTrigger d = false).
Proof.
  split; [exact weekly_trigger_window |].
  split; [exact monthly_trigger_window |].
  split; [intros d; split;
            [apply isWeeklyReportTrigger_fields | apply isMonthlyReportTrigger_fields] |].
  split; [exact sunday_0701_no_trigger | exact monday_0700_no_weekly_trigger].
Qed.

End Host.
End MyWebFacts.

(** ** Period ranges at concrete instants *)

Module MyWebExamples.
Import ES JsDate MyWebCore MyWebFacts.


(** The year 100: at noon of 2 March the Saturday before the week lies in
    the year 100 too; at noon of 2 January it is 26 December of the year
    99, which the constructor reads as 26 December 1999. *)
Lemma completed_weekly_range_year_100 :
  localFields (H := jst) (Valid (-59006264400000))
  = [Some 100; Some 2; Some 2; Some 12; Some 0; Some 0; Some 0]
  /\ completedWeekIsPreviousWeek (H := jst) (-59006264400000)
  /\ localFields (H := jst) (Valid (-59011362000000))
     = [Some 100; Some 0; Some 2; Some 12; Some 0; Some 0; Some 0]
  /\ ~ completedWeekIsPreviousWeek (H := jst) (-59011362000000).
Proof.
  split; [vm_compute; reflexivity |].
  split; [apply (completed_week_sufficient (H := jst)); vm_compute; reflexivity |].
  split; [vm_compute; reflexivity |].
  intros P. apply (completed_week_necessary (H := jst)) in P;
    [vm_compute in P; discriminate P | vm_compute; split; discriminate].
Qed.

(** The range computed at that instant: Sunday 19 October 00:00:00.000
    through Saturday 25 October 23:59:59.999. *)
Lemma completed_weekly_range_example :
  let r := getCompletedWeeklyRangeFrom (H := jst) (Valid 1761429600000) in
  localFields (H := jst) (start r)
  = [Some 2025; Some 9; Some 19; Some 0; Some 0; Some 0; Some 0]
  /\ localFields (H := jst) (end_ r)
     = [Some 2025; Some 9; Some 25; Some 23; Some 59; Some 59; Some 999].
Proof. vm_compute. split; reflexivity. Qed.


Lemma year_50_fields :
  localFields (H := jst) (Valid (-60575029200000))
  = [Some 50; Some 5; Some 15; Some 12; Some 0; Some 0; Some 0].
Proof. vm_compute. reflexivity. Qed.


(** The year 100: in March the month before lies in the year 100 too; in
    January it is December of the year 99, which the constructor reads as
    December 1999. *)
Lemma completed_monthly_range_year_100 :
  localFields (H := jst) (Valid (-59006264400000))
  = [Some 100; Some 2; Some 2; Some 12; Some 0; Some 0; Some 0]
  /\ completedMonthIsPreviousMonth (H := jst) (-59006264400000)
  /\ localFields (H := jst) (Valid (-59010238800000))
     = [Some 100; Some 0; Some 15; Some 12; Some 0; Some 0; Some 0]
  /\ ~ completedMonthIsPreviousMonth (H := jst) (-59010238800000).
Proof.
  split; [vm_compute; reflexivity |].
  split; [apply (completed_month_sufficient (H := jst)); vm_compute; reflexivity |].
  split; [vm_compute; reflexivity |].
  intros P. apply (completed_month_necessary (H := jst)) in P;
    [vm_compute in P; discriminate P | vm_compute; split; discriminate].
Qed.

(** Called at 1 March 07:00 the function returns 1 February 00:00:00.000
    through 29 February 23:59:59.999 in 2024 and through 28 February in
    2025; called in January it returns December of the year before. *)
Lemma completed_monthly_range_examples :
  (let r := getCompletedMonthlyRangeFrom (H := jst)
              (new_Date7 (H := jst) (Some 2024) (Some 2) (Some 1)
                         (Some 7) (Some 0) (Some 0) (Some 0)) in
   localFields (H := jst) (start r)
   = [Some 2024; Some 1; Some 1; Some 0; Some 0; Some 0; Some 0]
   /\ localFields (H := jst) (end_ r)
      = [Some 2024; Some 1; Some 29; Some 23; Some 59; Some 59; Some 999])
  /\ (let r := getCompletedMonthlyRangeFrom (H := jst)
                 (new_Date7 (H := jst) (Some 2025) (Some 2) (Some 1)
                            (Some 7) (Some 0) (Some 0) (Some 0)) in
      localFields (H := jst) (start r)
      = [Some 2025; Some 1; Some 1; Some 0; Some 0; Some 0; Some 0]
      /\ localFields (H := jst) (end_ r)
         = [Some 2025; Some 1; Some 28; Some 23; Some 59; Some 59; Some 999])
  /\ (let r := getCompletedMonthlyRangeFrom (H := jst)
                 (new_Date7 (H := jst) (Some 2026) (Some 0) (Some 1)
                            (Some 7) (Some 0) (Some 0) (Some 0)) in
      localFields (H := jst) (start r)
      = [Some 2025; Some 11; Some 1; Some 0; Some 0; Some 0; Some 0]
      /\ localFields (H := jst) (end_ r)
         = [Some 2025; Some 11; Some 31; Some 23; Some 59; Some 59; Some 999]).
Proof. vm_compute. repeat split; reflexivity. Qed.


End MyWebExamples.

(** ** flowerCore: annotate and analyze *)

Module FlowerFacts.
Import ES JsDate Types FlowerCore FlowerSpec WeatherSpec.

Lemma includes_In types x : includes types x = true <-> In x types.
Proof.
  unfold includes. rewrite existsb_exists. split.
  - intros (y & Hy & E). apply String.eqb_eq in E. subst. exact Hy.
  - intros Hx. exists x. split; [exact Hx | apply String.eqb_refl].
Qed.

Lemma includes_presentb x es :
  includes (map type_ es) (labelText x) = presentb x es.
Proof.
  unfold presentb. destruct (in_dec string_dec (labelText x) (map type_ es)) as [i | n].
  - apply includes_In. exact i.
  - destruct (includes (map type_ es) (labelText x)) eqn:E; [| reflexivity].
    apply includes_In in E. contradiction.
Qed.

Lemma presentb_present x es : presentb x es = true <-> present x es.
Proof.
  unfold presentb, present.
  destruct (in_dec string_dec (labelText x) (map type_ es)); split; auto; discriminate.
Qed.

Lemma truthy_flag (b : bool) : truthy (if b then 1 else 0) = b.
Proof. destruct b; reflexivity. Qed.

Section Host.
Context `{HostEnv}.

(** [analyze] raises exactly when its time source yields an invalid date. *)
Lemma analyze_throws clock args :
  analyze clock args = ThrowRangeError
  <-> reading clock (time args) = Some InvalidDate.
Proof.
  unfold analyze, reading. cbv zeta.
  destruct (time args) as [tm |]; simpl.
  - destruct (now tm clock); simpl; split; congruence.
  - split; discriminate.
Qed.

Lemma analyze_tone clock args r :
  analyze clock args = Normal r ->
  let es := emotions args in
  h (toneColor (flower r)) = h (toneByPriority priority es)
  /\ s (toneColor (flower r)) = s (toneByPriority saturationOrder es)
  /\ l (toneColor (flower r)) = l (toneByPriority lightnessOrder es).
Proof.
  unfold analyze. cbv zeta.
  destruct (isoOrUndefined _); [| discriminate].
  intros E. injection E as <-. cbn [flower toneColor h s l].
  rewrite !truthy_flag.
  rewrite (includes_presentb joy), (includes_presentb sadness),
    (includes_presentb anger), (includes_presentb anxiety), (includes_presentb calm).
  unfold toneByPriority, priority, saturationOrder, lightnessOrder, firstPresent.
  destruct (presentb joy (emotions args)), (presentb sadness (emotions args)),
    (presentb anger (emotions args)), (presentb anxiety (emotions args)),
    (presentb calm (emotions args)); repeat split.
Qed.

Lemma firstPresent_none es :
  firstPresent priority es = None ->
  toneByPriority priority es = defaultTone
  /\ toneByPriority saturationOrder es = defaultTone
  /\ toneByPriority lightnessOrder es = defaultTone.
Proof.
  unfold toneByPriority, priority, saturationOrder, lightnessOrder, firstPresent.
  destruct (presentb joy es), (presentb sadness es), (presentb anger es),
    (presentb anxiety es), (presentb calm es); try discriminate; auto.
Qed.

Lemma ToneColor_ext (a b : ToneColor) :
  h a = h b -> s a = s b -> l a = l b -> a = b.
Proof. destruct a, b; simpl; intros; subst; reflexivity. Qed.

(** The table [toneOf] is the tone [analyze] gives a label on its own. *)
Lemma toneOf_single clock x :
  exists r,
    analyze clock {| emotions := [emotion x]; memo := None; time := None |} = Normal r
    /\ toneColor (flower r) = toneOf x.
Proof. destruct x; eexists; split; reflexivity. Qed.

(** Claim C1, as amended.  For every emotion list, [analyze] picks the hue
    as the first match in the order joy > sadness > anger > anxiety > calm,
    the saturation as the first match in the order joy > anger > sadness >
    anxiety > calm, and the lightness as the first match in the order calm >
    joy > sadness > anger > anxiety, each from the per-label table and with
    the default (200, 0.5, 0.55) when none of the five labels is present;
    for an input with both joy and sadness and without calm the result
    carries joy's hue, saturation and lightness. *)
Theorem analyze_tone_orders clock args :
  match analyze clock args with
  | Normal r =>
      let es := emotions args in
      let tone := toneColor (flower r) in
      h tone = h (toneByPriority priority es)
      /\ s tone = s (toneByPriority saturationOrder es)
      /\ l tone = l (toneByPriority lightnessOrder es)
      /\ (firstPresent priority es = None -> tone = defaultTone)
      /\ (present joy es -> present sadness es -> ~ present calm es ->
          tone = toneOf joy)
  | ThrowRangeError => reading clock (time args) = Some InvalidDate
  end.
Proof.
  destruct (analyze clock args) as [r |] eqn:E; [| apply analyze_throws; exact E].
  cbv zeta. destruct (analyze_tone clock args r E) as (Hh & Hs & Hl).
  split; [exact Hh |]. split; [exact Hs |]. split; [exact Hl |]. split.
  - intros N. destruct (firstPresent_none _ N) as (P & S & L).
    apply ToneColor_ext; [rewrite Hh, P | rewrite Hs, S | rewrite Hl, L]; reflexivity.
  - intros J Sd C.
    apply presentb_present in J.
    assert (Cb : presentb calm (emotions args) = false).
    { destruct (presentb calm (emotions args)) eqn:Cb; [| reflexivity].
      apply presentb_present in Cb. contradiction. }
    apply ToneColor_ext; [rewrite Hh | rewrite Hs | rewrite Hl];
      unfold toneByPriority, priority, saturationOrder, lightnessOrder, firstPresent;
      rewrite ?J, ?Cb; reflexivity.
Qed.

(** The weather [analyze] computes. *)
Lemma analyze_weather clock args r :
  analyze clock args = Normal r ->
  climate r
  = Some {| weather :=
              match hourOf (reading clock (time args)) with
              | Some hour =>
                  if lt_num hour 5 || ge_num hour 22 then Weather.night
                  else if presentb joy (emotions args) then Weather.sunny
                  else if presentb sadness (emotions args) then Weather.rainy
                  else Weather.cloudy
              | None => Weather.cloudy
              end |}.
Proof.
  unfold analyze, reading. cbv zeta.
  destruct (isoOrUndefined _); [| discriminate].
  intros E. injection E as <-. cbn [climate].
  rewrite !truthy_flag, (includes_presentb joy), (includes_presentb sadness).
  reflexivity.
Qed.

(** The weather [analyze] computes is the weather of the specification. *)
Lemma analyze_specWeather clock es memo tm r :
  analyze clock {| emotions := es; memo := memo; time := tm |} = Normal r ->
  climate r = Some {| weather := specWeather clock es tm |}.
Proof.
  intros E. rewrite (analyze_weather _ _ _ E). cbn [time emotions].
  unfold specWeather, emotionWeather, hourOf.
  destruct (reading clock tm) as [d |]; [| reflexivity].
  destruct (getHours d) as [hour |]; reflexivity.
Qed.

(** Claim C7, as amended.  With no reference instant the weather is cloudy;
    with a reference instant that is a valid date, it is night when the
    local hour is below 5 or at least 22, whatever the emotions, and
    otherwise sunny when joy is present, else rainy when sadness is present,
    else cloudy; with a reference instant that is the invalid date
    [analyze] raises a RangeError and gives no weather.  So [analyze]
    returns with the weather of the specification exactly when its time
    source does not yield the invalid date. *)
Theorem analyze_weather_by_hour_then_emotion clock es memo :
  (exists r,
     analyze clock {| emotions := es; memo := memo; time := None |} = Normal r
     /\ climate r = Some {| weather := Weather.cloudy |})
  /\ (forall tm t,
        now tm clock = Valid t ->
        exists r,
          analyze clock {| emotions := es; memo := memo; time := Some tm |} = Normal r
          /\ climate r
             = Some {| weather := weatherAt (HourFromTime (LocalTime t)) es |})
  /\ (forall tm,
        now tm clock = InvalidDate ->
        analyze clock {| emotions := es; memo := memo; time := Some tm |}
        = ThrowRangeError)
  /\ (forall tm,
        weatherByHourThenEmotion clock es memo tm
        <-> reading clock tm <> Some InvalidDate).
Proof.
  split; [| split; [| split]].
  - destruct (analyze clock {| emotions := es; memo := memo; time := None |})
      as [r |] eqn:E.
    + exists r. split; [reflexivity |]. rewrite (analyze_weather _ _ _ E). reflexivity.
    + apply analyze_throws in E. discriminate E.
  - intros tm t Ht.
    destruct (analyze clock {| emotions := es; memo := memo; time := Some tm |})
      as [r |] eqn:E.
    + exists r. split; [reflexivity |]. rewrite (analyze_weather _ _ _ E).
      cbn [time emotions reading hourOf]. rewrite Ht. reflexivity.
    + apply analyze_throws in E. cbn [time reading] in E. congruence.
  - intros tm Ht. apply analyze_throws. cbn [time reading]. rewrite Ht. reflexivity.
  - intros tm. split.
    + intros (r & E & _) I.
      assert (T : analyze clock {| emotions := es; memo := memo; time := tm |}
                  = ThrowRangeError) by (apply analyze_throws; exact I).
      congruence.
    + intros N.
      destruct (analyze clock {| emotions := es; memo := memo; time := tm |})
        as [r |] eqn:E.
      * exists r. split; [exact E |]. apply (analyze_specWeather _ _ _ _ _ E).
      * apply analyze_throws in E. contradiction.
Qed.

(** Claim C10, as amended.  [annotate] returns the data unchanged whenever
    it returns: without a time source, with neither time band nor
    timestamp; with a time source that yields a valid instant, with the
    band night below hour 5, morning from 5 to below 11, afternoon from 11
    to below 17 and evening otherwise, and with the ISO-8601 rendering of
    the instant as timestamp. *)
Theorem annotate_bands {T : Type} clock (d : T) :
  annotate clock {| ai_data := d; ai_time := None |}
  = Normal {| data := d; timeBand := None; an_annotated_at := None |}
  /\ (forall tm t,
        now tm clock = Valid t ->
        annotate clock {| ai_data := d; ai_time := Some tm |}
        = Normal {| data := d;
                    timeBand := Some (bandAt (HourFromTime (LocalTime t)));
                    an_annotated_at := Some (isoString t) |}).
Proof.
  split; [reflexivity |].
  intros tm t Ht. unfold annotate. cbn [ai_time ai_data]. cbv zeta. rewrite Ht.
  cbn [hourOf isoOrUndefined toISOString getHours local_field lt_num].
  unfold getHours, local_field, lt_num. do 2 f_equal. unfold bandAt.
  set (hr := HourFromTime (LocalTime t)).
  destruct (Z.ltb_spec hr 5), (Z.ltb_spec hr 11), (Z.ltb_spec hr 17),
    (Z.leb_spec 5 hr), (Z.leb_spec 11 hr); simpl; try reflexivity; lia.
Qed.

(** [annotate] raises when its time source yields an invalid date. *)
Lemma annotate_invalid_date {T : Type} clock (d : T) tm :
  now tm clock = InvalidDate ->
  annotate clock {| ai_data := d; ai_time := Some tm |} = ThrowRangeError.
Proof. intros E. unfold annotate. cbn [ai_time]. cbv zeta. rewrite E. reflexivity. Qed.

End Host.
End FlowerFacts.

(** ** timeService.ts: the time adapter *)

Module TimeServiceFacts.
Import ES JsDate JsDateFacts Types TimeService AdapterSpec.

Section Host.
Context `{HostEnv}.

(** [createTimeAdapter] keeps the configuration it is given. *)
Lemma createTimeAdapter_cfg cfg w : ad_cfg (fst (createTimeAdapter cfg w)) = cfg.
Proof.
  unfold createTimeAdapter. cbv zeta.
  destruct (mode cfg) as [[| |] |]; reflexivity.
Qed.

Lemma createTimeAdapter_id cfg w : ad_id (fst (createTimeAdapter cfg w)) = next_adapter w.
Proof.
  unfold createTimeAdapter. cbv zeta.
  destruct (mode cfg) as [[| |] |]; reflexivity.
Qed.

Lemma resolveNow_frozen clock f :
  f <> FNull -> wfFreezeTo f ->
  resolveNow clock (orNull (Some f)) = frozenInstant f.
Proof.
  intros N W. destruct f as [| d | s | n]; simpl.
  - contradiction.
  - destruct d as [t |]; simpl in *; [apply TimeClip_valid; exact W | reflexivity].
  - unfold new_Date_of_string, new_Date_of_num.
    destruct (Date_parse s) as [t |] eqn:E; [| reflexivity].
    apply TimeClip_valid. exact (Date_parse_range s t E).
  - unfold TimeClip.
    destruct (Z.leb_spec (- maxTime) n), (Z.leb_spec n maxTime),
      (Z.ltb_spec maxTime (Z.abs n)); simpl; try reflexivity; lia.
Qed.

(** Claim C6.  For every configuration whose [freezeTo] is set to a date, a
    string or a number, [now ()] of the adapter returns the instant that
    value names, whatever the mode, the wall clock and the number of calls;
    a string the host cannot parse gives the invalid date, not the wall
    clock. *)
Theorem now_returns_frozen_instant cfg f w :
  freezeTo cfg = Some f -> f <> FNull -> wfFreezeTo f ->
  let a := fst (createTimeAdapter cfg w) in
  (forall clock, now (adapter_time a) clock = frozenInstant f)
  /\ (forall clocks, map (now (adapter_time a)) clocks
                     = repeat (frozenInstant f) (length clocks))
  /\ (forall s, f = FString s -> Date_parse s = None ->
                forall clock, now (adapter_time a) clock = InvalidDate).
Proof.
  intros E N W. cbv zeta.
  assert (K : forall clock,
             now (adapter_time (fst (createTimeAdapter cfg w))) clock = frozenInstant f).
  { intros clock. unfold adapter_time, baseNow. cbn [now].
    rewrite createTimeAdapter_cfg, E. apply resolveNow_frozen; assumption. }
  split; [exact K |]. split.
  - intros clocks. induction clocks as [| c cs IH]; [reflexivity |].
    cbn [map length repeat]. rewrite K, IH. reflexivity.
  - intros s -> P clock. rewrite K. simpl. rewrite P. reflexivity.
Qed.

(** Without [freezeTo], or with [null], [now ()] reads the wall clock. *)
Lemma now_reads_wall_clock cfg w clock :
  freezeTo cfg = None \/ freezeTo cfg = Some FNull ->
  now (adapter_time (fst (createTimeAdapter cfg w))) clock = Valid clock.
Proof.
  intros E. unfold adapter_time, baseNow. cbn [now]. rewrite createTimeAdapter_cfg.
  destruct E as [-> | ->]; reflexivity.
Qed.

(** *** Subscribing *)

Lemma set_add_In cb l fn : In fn (set_add cb l) <-> In fn l \/ fn = cb.
Proof.
  unfold set_add. destruct (existsb (Nat.eqb cb) l) eqn:E.
  - split; [auto |]. intros [I | ->]; [exact I |].
    apply existsb_exists in E as (x & Hx & Ex). apply Nat.eqb_eq in Ex. subst. exact Hx.
  - rewrite in_app_iff. simpl. intuition congruence.
Qed.

Lemma set_delete_In cb l fn : In fn (set_delete cb l) <-> In fn l /\ fn <> cb.
Proof.
  unfold set_delete. rewrite filter_In, negb_true_iff, Nat.eqb_neq. intuition congruence.
Qed.

(** A fresh interval adapter has its timer running and no listener. *)
Lemma createTimeAdapter_running cfg w :
  mode cfg <> Some snapshot -> mode cfg <> Some off ->
  let (a, w') := createTimeAdapter cfg w in
  ad_interval a = true /\ running a w'
  /\ closures w' !! ad_id a = Some {| listeners := []; timer := Some (next_timer w) |}.
Proof.
  intros S O. unfold createTimeAdapter. cbv zeta.
  destruct (mode cfg) as [[| |] |]; try congruence.
  - unfold start_timer, stop, set_closure, setInterval. cbn.
    rewrite !lookup_insert_eq. cbn. rewrite !lookup_insert_eq. cbn.
    split; [reflexivity |]. split; [| rewrite insert_insert_eq; apply lookup_insert_eq].
    eexists _, _, _. cbn. rewrite insert_insert_eq, lookup_insert_eq.
    split; [reflexivity |]. split; [reflexivity |]. cbn. apply lookup_insert_eq.
  - unfold start_timer, stop, set_closure, setInterval. cbn.
    rewrite !lookup_insert_eq. cbn. rewrite !lookup_insert_eq. cbn.
    split; [reflexivity |]. split; [| rewrite insert_insert_eq; apply lookup_insert_eq].
    eexists _, _, _. cbn. rewrite insert_insert_eq, lookup_insert_eq.
    split; [reflexivity |]. split; [reflexivity |]. cbn. apply lookup_insert_eq.
Qed.

Lemma running_closure a w :
  running a w ->
  exists s id, closures w !! ad_id a = Some s /\ timer s = Some id
               /\ is_Some (timers w !! id).
Proof. intros (s & id & tmr & C & T & R). exists s, id. eauto. Qed.

Lemma subscribe_effect a cb w s :
  closures w !! ad_id a = Some s ->
  let w1 := subscribe a cb w in
  calls w1 = calls w ++ [(cb, now (adapter_time a) (wall w))]
  /\ closures w1 !! ad_id a
     = Some {| listeners := set_add cb (listeners s); timer := timer s |}
  /\ timers w1 = timers w /\ wall w1 = wall w.
Proof.
  intros C. unfold subscribe. rewrite C. cbn.
  rewrite lookup_insert_eq. repeat split.
Qed.

Lemma unsubscribe_effect a cb w s :
  closures w !! ad_id a = Some s ->
  let w1 := unsubscribe a cb w in
  calls w1 = calls w
  /\ closures w1 !! ad_id a
     = Some {| listeners := set_delete cb (listeners s); timer := timer s |}
  /\ timers w1 = timers w /\ wall w1 = wall w.
Proof.
  intros C. unfold unsubscribe. rewrite C. cbn.
  rewrite lookup_insert_eq. repeat split.
Qed.

Lemma tick_effect a w s id :
  closures w !! ad_id a = Some s -> timer s = Some id -> is_Some (timers w !! id) ->
  calls (tick a w)
  = calls w ++ map (fun fn => (fn, now (adapter_time a) (wall w))) (listeners s).
Proof.
  intros C T [tmr R]. unfold tick. rewrite C, T, R. reflexivity.
Qed.

(** On an adapter whose interval timer runs, [subscribe cb] invokes [cb]
    once with the adapter's current instant, and the closure it returns
    removes [cb] and nothing else. *)
Lemma subscribe_unsubscribe_effects a cb w :
  running a w ->
  let w1 := subscribe a cb w in
  calls w1 = calls w ++ [(cb, now (adapter_time a) (wall w))]
  /\ running a w1 /\ registered a cb w1
  /\ (forall w2,
        running a w2 ->
        let w3 := unsubscribe a cb w2 in
        running a w3 /\ timers w3 = timers w2 /\ calls w3 = calls w2
        /\ (forall fn, registered a fn w3 <-> registered a fn w2 /\ fn <> cb)
        /\ (exists fired,
              calls (tick a w3) = calls w3 ++ fired
              /\ (forall fn, registered a fn w2 -> fn <> cb ->
                             In (fn, now (adapter_time a) (wall w3)) fired)
              /\ ~ In cb (map fst fired))).
Proof.
  intros R. cbv zeta.
  destruct (running_closure a w R) as (s & id & C & T & I).
  destruct (subscribe_effect a cb w s C) as (L1 & C1 & T1 & _).
  split; [exact L1 |]. split.
  { destruct I as [tmr I]. eexists _, id, tmr. rewrite C1, T1. auto. }
  split.
  { eexists. split; [exact C1 |]. cbn. apply set_add_In. auto. }
  intros w2 R2.
  destruct (running_closure a w2 R2) as (s2 & id2 & C2 & T2 & I2).
  destruct (unsubscribe_effect a cb w2 s2 C2) as (L3 & C3 & T3 & W3).
  split.
  { destruct I2 as [tmr I2]. eexists _, id2, tmr. rewrite C3, T3. auto. }
  split; [exact T3 |]. split; [exact L3 |]. split.
  { intros fn. unfold registered. rewrite C3, C2. split.
    - intros (x & E & Hin). injection E as <-. cbn in Hin.
      apply set_delete_In in Hin as [Hin Hne]. split; [eauto | exact Hne].
    - intros [(x & E & Hin) Hne]. injection E as <-.
      eexists. split; [reflexivity |]. cbn. apply set_delete_In. auto. }
  eexists. split.
  { apply (tick_effect a _ _ id2 C3); cbn; [exact T2 | rewrite T3; exact I2]. }
  cbn [listeners]. split.
  - intros fn (x & E & Hin) Hne. rewrite C2 in E. injection E as <-.
    apply in_map_iff. exists fn. split; [reflexivity |]. apply set_delete_In. auto.
  - rewrite map_map. cbn. rewrite map_id. intros Hin.
    apply set_delete_In in Hin as [_ Hne]. congruence.
Qed.

(** Claim C9.  The adapter [createTimeAdapter] returns in interval mode has
    its timer running, and as long as it runs: [subscribe cb] invokes [cb]
    exactly once, within the call and so before any tick, with the
    adapter's current instant; the unsubscribe closure it returns removes
    [cb] and nothing else: the timer keeps running, the other listeners
    stay registered, and the next tick notifies each of them and not
    [cb]. *)
Theorem subscribe_notifies_once_unsubscribe_removes_one cfg w0 cb :
  mode cfg <> Some snapshot -> mode cfg <> Some off ->
  let a := fst (createTimeAdapter cfg w0) in
  ad_interval a = true
  /\ running a (snd (createTimeAdapter cfg w0))
  /\ forall w,
       running a w ->
       let w1 := subscribe a cb w in
       calls w1 = calls w ++ [(cb, now (adapter_time a) (wall w))]
       /\ running a w1 /\ registered a cb w1
       /\ (forall w2,
             running a w2 ->
             let w3 := unsubscribe a cb w2 in
             running a w3 /\ timers w3 = timers w2 /\ calls w3 = calls w2
             /\ (forall fn, registered a fn w3 <-> registered a fn w2 /\ fn <> cb)
             /\ (exists fired,
                   calls (tick a w3) = calls w3 ++ fired
                   /\ (forall fn, registered a fn w2 -> fn <> cb ->
                                  In (fn, now (adapter_time a) (wall w3)) fired)
                   /\ ~ In cb (map fst fired))).
Proof.
  intros Sn Of. cbv zeta.
  pose proof (createTimeAdapter_running cfg w0 Sn Of) as R.
  destruct (createTimeAdapter cfg w0) as [a w']. cbn [fst snd].
  destruct R as (Iv & Rn & _).
  split; [exact Iv |]. split; [exact Rn |].
  intros w Rw. exact (subscribe_unsubscribe_effects a cb w Rw).
Qed.

End Host.
End TimeServiceFacts.

(** ** The facade: merging configurations *)

Module MergeFacts.
Import JsDate Types MashOS MashOSSpec ConfigureSpec.

(** The loop over the keys of [src] merges each entry of [src] into the
    entry of the same key, and leaves the other keys alone. *)
Lemma mergeEntries_lookup (out src : gmap string TimeConfig) k :
  map_fold mergeEntry out src !! k
  = match src !! k with
    | Some v => Some (spread (orEmpty (out !! k)) v)
    | None => out !! k
    end.
Proof.
  revert k.
  apply (map_fold_weak_ind
           (fun r (m : gmap string TimeConfig) =>
              forall k, r !! k = match m !! k with
                                 | Some v => Some (spread (orEmpty (out !! k)) v)
                                 | None => out !! k
                                 end)).
  - intros k. rewrite lookup_empty. reflexivity.
  - intros i x m r Hi IH k. unfold mergeEntry. cbv zeta.
    destruct (decide (i = k)) as [-> | Hne].
    + rewrite !lookup_insert_eq. rewrite (IH k), Hi. reflexivity.
    + rewrite !lookup_insert_ne by exact Hne. apply IH.
Qed.

Lemma mergeConfig_default base next :
  default (mergeConfig base next)
  = match partialDefault next with
    | Some d => spread (jsonTimeConfig (default base)) d
    | None => jsonTimeConfig (default base)
    end.
Proof.
  unfold mergeConfig, partialDefault. cbv zeta.
  destruct (p_time next) as [nt |]; [| reflexivity].
  destruct (p_default nt), (p_perFeature nt); reflexivity.
Qed.

Lemma mergeConfig_entry base next k :
  perFeature (mergeConfig base next) !! k
  = match partialEntry next k with
    | Some v => Some (spread (orEmpty (jsonTimeConfig <$> perFeature base !! k)) v)
    | None => jsonTimeConfig <$> perFeature base !! k
    end.
Proof.
  unfold mergeConfig, partialEntry. cbv zeta.
  destruct (p_time next) as [nt |]; [| cbn; apply lookup_fmap].
  destruct (p_perFeature nt) as [src |].
  - cbn [perFeature]. rewrite mergeEntries_lookup.
    destruct (p_default nt); cbn [perFeature jsonClone]; rewrite lookup_fmap; reflexivity.
  - destruct (p_default nt); cbn [perFeature jsonClone]; rewrite lookup_fmap; reflexivity.
Qed.

(** [spread] is the field-for-field merge. *)
Lemma spread_fields prev src :
  mode (spread prev src) = (if mode src is Some v then Some v else mode prev)
  /\ intervalMs (spread prev src)
     = (if intervalMs src is Some v then Some v else intervalMs prev)
  /\ freezeTo (spread prev src)
     = (if freezeTo src is Some v then Some v else freezeTo prev).
Proof. repeat split. Qed.



(** The JSON copy of an entry is determined by the entry. *)
Lemma jsonCopyOf_unique tc a b : jsonCopyOf tc a -> jsonCopyOf tc b -> a = b.
Proof.
  intros (Ma & Ia & Fa) (Mb & Ib & Fb). destruct a, b. cbn in *. congruence.
Qed.



End MergeFacts.

(** ** The world of adapters and timers *)

Module WorldFacts.
Import JsDate Types TimeService AdapterSpec MashOS MashOSSpec.

Section Host.
Context `{HostEnv}.

(** *** [stop] *)

Lemma stop_frame n w :
  wall (stop n w) = wall w /\ next_adapter (stop n w) = next_adapter w
  /\ next_timer (stop n w) = next_timer w /\ calls (stop n w) = calls w.
Proof.
  unfold stop. destruct (closures w !! n) as [s |]; [| auto].
  destruct (timer s); auto.
Qed.

Lemma stop_closure_other n m w :
  m <> n -> closures (stop n w) !! m = closures w !! m.
Proof.
  intros Hne. unfold stop. destruct (closures w !! n) as [s |]; [| reflexivity].
  destruct (timer s); [| reflexivity]. cbn. apply lookup_insert_ne. congruence.
Qed.

Lemma stop_closure_self n w s :
  closures w !! n = Some s ->
  closures (stop n w) !! n = Some {| listeners := listeners s; timer := None |}.
Proof.
  intros C. unfold stop. rewrite C. destruct (timer s) eqn:T.
  - cbn. apply lookup_insert_eq.
  - rewrite C. destruct s; cbn in *. congruence.
Qed.

Lemma stop_stopped n w : stopped n (stop n w).
Proof.
  intros s C. destruct (closures w !! n) as [s0 |] eqn:C0.
  - rewrite (stop_closure_self n w s0 C0) in C. injection C as <-. reflexivity.
  - unfold stop in C. rewrite C0 in C. congruence.
Qed.

Lemma stop_keeps_stopped n m w : stopped m w -> stopped m (stop n w).
Proof.
  intros St. destruct (decide (m = n)) as [-> | Hne]; [apply stop_stopped |].
  intros s C. rewrite stop_closure_other in C by exact Hne. exact (St s C).
Qed.

Lemma stop_timers n w id tmr :
  timers (stop n w) !! id = Some tmr -> timers w !! id = Some tmr.
Proof.
  unfold stop. destruct (closures w !! n) as [s |]; [| auto].
  destruct (timer s) as [id0 |]; [| auto]. cbn.
  intros L. apply lookup_delete_Some in L as [_ L]. exact L.
Qed.

Lemma stop_WorldInv n w : WorldInv w -> WorldInv (stop n w).
Proof.
  intros [CA TO]. destruct (stop_frame n w) as (_ & NA & NT & _). split.
  - intros m s C. rewrite NA. destruct (decide (m = n)) as [-> | Hne].
    + destruct (closures w !! n) as [s0 |] eqn:C0; [exact (CA n s0 C0) |].
      unfold stop in C. rewrite C0 in C. congruence.
    + rewrite stop_closure_other in C by exact Hne. exact (CA m s C).
  - intros id tmr T. rewrite NT.
    pose proof (stop_timers n w id tmr T) as T0.
    destruct (TO id tmr T0) as (Lt & s & C & Ts). split; [exact Lt |].
    destruct (decide (tm_owner tmr = n)) as [E | Hne].
    + exfalso. subst n. unfold stop in T. rewrite C, Ts in T. cbn in T.
      rewrite lookup_delete_eq in T. discriminate.
    + exists s. rewrite stop_closure_other by exact Hne. auto.
Qed.

(** Under the invariant a stopped adapter owns no timer. *)
Lemma stopped_noTimerOf n w : WorldInv w -> stopped n w -> noTimerOf n w.
Proof.
  intros [_ TO] St id tmr T E. destruct (TO id tmr T) as (_ & s & C & Ts).
  rewrite E in C. rewrite (St s C) in Ts. discriminate.
Qed.

(** *** [createTimeAdapter] *)

Lemma createTimeAdapter_frame cfg w :
  let (a, w') := createTimeAdapter cfg w in
  ad_id a = next_adapter w /\ ad_cfg a = cfg
  /\ next_adapter w' = S (next_adapter w) /\ wall w' = wall w /\ calls w' = calls w
  /\ (forall m, m <> next_adapter w -> closures w' !! m = closures w !! m)
  /\ (ad_interval a = true -> running a w').
Proof.
  unfold createTimeAdapter. cbv zeta.
  assert (I : forall ms,
    let w1 := set_closure (next_adapter w) {| listeners := []; timer := None |}
      {| wall := wall w; closures := closures w; next_adapter := S (next_adapter w);
         timers := timers w; next_timer := next_timer w; calls := calls w |} in
    let w' := start_timer (next_adapter w) ms w1 in
    next_adapter w' = S (next_adapter w) /\ wall w' = wall w /\ calls w' = calls w
    /\ (forall m, m <> next_adapter w -> closures w' !! m = closures w !! m)
    /\ running {| ad_id := next_adapter w; ad_cfg := cfg; ad_interval := true |} w').
  { intros ms. cbv zeta. unfold start_timer, stop, set_closure, setInterval. cbn.
    rewrite !lookup_insert_eq. cbn. rewrite !lookup_insert_eq. cbn.
    repeat split.
    - intros m Hne. rewrite !lookup_insert_ne by congruence. reflexivity.
    - eexists _, _, _. cbn. rewrite lookup_insert_eq.
      split; [reflexivity |]. split; [reflexivity |]. cbn. apply lookup_insert_eq. }
  destruct (mode cfg) as [[| |] |]; cbn [ad_id ad_cfg ad_interval];
    try (repeat split; auto; discriminate);
    destruct (I (match intervalMs cfg with Some n => n | None => 60000 end))
      as (A & B & C & D & E); auto 10.
Qed.

Lemma createTimeAdapter_WorldInv cfg w :
  WorldInv w -> WorldInv (snd (createTimeAdapter cfg w)).
Proof.
  intros [CA TO]. unfold createTimeAdapter. cbv zeta.
  assert (P : WorldInv
    {| wall := wall w; closures := closures w; next_adapter := S (next_adapter w);
       timers := timers w; next_timer := next_timer w; calls := calls w |}).
  { split; cbn; [intros n s C; specialize (CA n s C); lia | exact TO]. }
  destruct (mode cfg) as [[| |] |]; cbn [snd]; try exact P.
  - unfold start_timer, stop, set_closure, setInterval. cbn.
    rewrite !lookup_insert_eq. cbn. rewrite !lookup_insert_eq. cbn. split; cbn.
    + intros n s C. destruct (decide (n = next_adapter w)) as [-> | Hne]; [lia |].
      rewrite !lookup_insert_ne in C by congruence. specialize (CA n s C). lia.
    + intros id tmr T. destruct (decide (id = next_timer w)) as [-> | Hne].
      * rewrite lookup_insert_eq in T. injection T as <-. cbn. split; [lia |].
        eexists. rewrite lookup_insert_eq. split; reflexivity.
      * rewrite lookup_insert_ne in T by congruence.
        destruct (TO id tmr T) as (Lt & s & C & Ts). split; [lia |].
        exists s. split; [| exact Ts].
        rewrite !lookup_insert_ne; [exact C | |];
          intros E; rewrite <- E in C; specialize (CA _ _ C); lia.
  - unfold start_timer, stop, set_closure, setInterval. cbn.
    rewrite !lookup_insert_eq. cbn. rewrite !lookup_insert_eq. cbn. split; cbn.
    + intros n s C. destruct (decide (n = next_adapter w)) as [-> | Hne]; [lia |].
      rewrite !lookup_insert_ne in C by congruence. specialize (CA n s C). lia.
    + intros id tmr T. destruct (decide (id = next_timer w)) as [-> | Hne].
      * rewrite lookup_insert_eq in T. injection T as <-. cbn. split; [lia |].
        eexists. rewrite lookup_insert_eq. split; reflexivity.
      * rewrite lookup_insert_ne in T by congruence.
        destruct (TO id tmr T) as (Lt & s & C & Ts). split; [lia |].
        exists s. split; [| exact Ts].
        rewrite !lookup_insert_ne; [exact C | |];
          intros E; rewrite <- E in C; specialize (CA _ _ C); lia.
Qed.

Lemma createTimeAdapter_keeps_stopped cfg w n :
  (n < next_adapter w)%nat -> stopped n w ->
  stopped n (snd (createTimeAdapter cfg w)).
Proof.
  intros Lt St s C. pose proof (createTimeAdapter_frame cfg w) as F.
  destruct (createTimeAdapter cfg w) as [a w']. cbn in C.
  destruct F as (_ & _ & _ & _ & _ & Cl & _).
  rewrite (Cl n) in C; [exact (St s C) | lia].
Qed.

(** An adapter created earlier keeps running when another is created. *)
Lemma createTimeAdapter_keeps_running cfg w b :
  WorldInv w -> running b w -> running b (snd (createTimeAdapter cfg w)).
Proof.
  intros [CA TO] (s & id & tmr & C & Ts & T).
  pose proof (CA _ _ C) as Lt. destruct (TO _ _ T) as (Lid & _).
  unfold createTimeAdapter. cbv zeta.
  destruct (mode cfg) as [[| |] |]; cbn [snd];
    try solve [exists s, id, tmr; cbn; auto];
    unfold start_timer, stop, set_closure, setInterval; cbn;
    rewrite !lookup_insert_eq; cbn; rewrite !lookup_insert_eq; cbn;
    exists s, id, tmr; cbn;
    (split; [rewrite !lookup_insert_ne by lia; exact C |]);
    (split; [exact Ts |]); rewrite lookup_insert_ne by lia; exact T.
Qed.

End Host.
End WorldFacts.

(** ** The facade: rebuilding the adapters *)

Module RebuildFacts.
Import JsDate Types TimeService AdapterSpec MashOS MashOSSpec WorldFacts.

Lemma Feature_eqb_eq f g : Feature_eqb f g = true <-> f = g.
Proof. destruct f, g; simpl; split; congruence. Qed.

Lemma upd_same {A} f (v : A) m : upd f v m f = v.
Proof. unfold upd. destruct f; reflexivity. Qed.

Lemma upd_other {A} f g (v : A) m : f <> g -> upd f v m g = m g.
Proof.
  intros Hne. unfold upd. destruct (Feature_eqb f g) eqn:E; [| reflexivity].
  apply Feature_eqb_eq in E. contradiction.
Qed.

(** A loop over [FEATURES]: what every round keeps is kept, and what the
    round of a feature establishes and the other rounds keep holds of every
    feature at the end. *)
Lemma fold_features {S : Type} (step : S -> Feature -> S)
    (I : S -> Prop) (Q : Feature -> S -> Prop) :
  (forall s f, I s -> I (step s f)) ->
  (forall s f, I s -> Q f (step s f)) ->
  (forall s f g, f <> g -> I s -> Q f s -> Q f (step s g)) ->
  forall s, I s ->
    I (fold_left step FEATURES s) /\ forall f, Q f (fold_left step FEATURES s).
Proof.
  intros Hi He Hk s Is. unfold FEATURES. cbn [fold_left].
  pose proof (Hi _ input Is) as I1. pose proof (Hi _ myweb I1) as I2.
  pose proof (Hi _ flower I2) as I3. split; [exact I3 |].
  intros [].
  - apply Hk; [discriminate | exact I2 |]. apply Hk; [discriminate | exact I1 |].
    apply He. exact Is.
  - apply Hk; [discriminate | exact I2 |]. apply He. exact I1.
  - apply He. exact I2.
Qed.

Section Host.
Context `{HostEnv}.

(** *** The first loop: disposing *)

Lemma disposeStep_disposing st0 w0 sw f :
  disposing st0 w0 sw -> disposing st0 w0 (disposeStep sw f).
Proof.
  destruct sw as [st w]. intros (WI & Cf & Tm & Na & Wa & D). cbn [fst snd] in *.
  unfold disposeStep. destruct (disposers st f) as [a |] eqn:Da.
  - destruct (stop_frame a w) as (Wl & Nx & _ & _).
    unfold disposing, dispose. cbn [fst snd config timeMap disposers].
    split; [apply stop_WorldInv; exact WI |].
    split; [exact Cf |]. split; [exact Tm |].
    split; [congruence |]. split; [congruence |].
    intros g. destruct (decide (f = g)) as [<- | Hne].
    + right. rewrite upd_same. split; [reflexivity |]. intros n Hn.
      destruct (D f) as [E | [E _]]; [| congruence].
      assert (n = a) as -> by congruence. apply stop_stopped.
    + rewrite upd_other by exact Hne.
      destruct (D g) as [E | [E K]]; [left; exact E |].
      right. split; [exact E |]. intros n Hn. apply stop_keeps_stopped. auto.
  - split; [exact WI |]. auto 10.
Qed.

Lemma disposeStep_clears st0 w0 sw f :
  disposing st0 w0 sw -> disposers (fst (disposeStep sw f)) f = None.
Proof.
  destruct sw as [st w]. intros _. unfold disposeStep.
  destruct (disposers st f) eqn:Da; cbn; [apply upd_same | exact Da].
Qed.

Lemma disposeStep_keeps_cleared sw f g :
  f <> g -> disposers (fst sw) f = None -> disposers (fst (disposeStep sw g)) f = None.
Proof.
  destruct sw as [st w]. intros Hne E. unfold disposeStep.
  destruct (disposers st g) eqn:Da; cbn; [| exact E].
  rewrite upd_other by congruence. exact E.
Qed.

(** After the first loop no disposer is left, every adapter that had one is
    stopped, and nothing else has changed. *)
Lemma dispose_loop st w :
  WorldInv w ->
  let sw1 := fold_left disposeStep FEATURES (st, w) in
  WorldInv (snd sw1) /\ config (fst sw1) = config st /\ timeMap (fst sw1) = timeMap st
  /\ next_adapter (snd sw1) = next_adapter w /\ wall (snd sw1) = wall w
  /\ (forall f, disposers (fst sw1) f = None)
  /\ (forall f n, disposers st f = Some n -> stopped n (snd sw1)).
Proof.
  intros WI. cbv zeta.
  destruct (fold_features disposeStep (disposing st w)
              (fun f sw => disposers (fst sw) f = None)) with (s := (st, w))
    as [(W1 & Cf & Tm & Na & Wa & D) Q].
  - intros s f. apply disposeStep_disposing.
  - intros s f. apply disposeStep_clears.
  - intros s f g Hne _. apply disposeStep_keeps_cleared. exact Hne.
  - split; [exact WI |]. cbn. auto 10.
  - split; [exact W1 |]. split; [exact Cf |]. split; [exact Tm |].
    split; [exact Na |]. split; [exact Wa |]. split; [exact Q |].
    intros f n Hn. destruct (D f) as [E | [_ K]]; [| auto].
    rewrite Q in E. congruence.
Qed.

(** *** The second loop: rebuilding *)

Lemma rebuildStep_rebuilding c w1 sw f :
  rebuilding c w1 sw -> rebuilding c w1 (rebuildStep sw f).
Proof.
  destruct sw as [st w]. intros (WI & Cf & Na & Wa & St & D). cbn [fst snd] in *.
  unfold rebuildStep. cbv zeta.
  assert (Off : rebuilding c w1
            ({| config := config st; timeMap := upd f None (timeMap st);
                disposers := disposers st |}, w)).
  { split; [exact WI |]. cbn. auto 10. }
  pose proof (createTimeAdapter_frame (resolveTimeConfig (config st) f) w) as F.
  pose proof (createTimeAdapter_WorldInv (resolveTimeConfig (config st) f) w WI) as WI'.
  pose proof (createTimeAdapter_keeps_stopped (resolveTimeConfig (config st) f) w) as KS.
  destruct (createTimeAdapter (resolveTimeConfig (config st) f) w) as [a w'].
  destruct F as (Ia & _ & Nx & Wl & _ & _ & _). cbn [snd] in *.
  assert (On : rebuilding c w1
            ({| config := config st; timeMap := upd f (Some a) (timeMap st);
                disposers := if ad_interval a
                             then upd f (Some (ad_id a)) (disposers st)
                             else disposers st |}, w')).
  { split; [exact WI' |]. cbn [fst snd config timeMap disposers].
    split; [exact Cf |]. split; [lia |]. split; [congruence |]. split.
    - intros n Lt S1. apply KS; [lia | auto].
    - intros g n. destruct (ad_interval a).
      + destruct (decide (f = g)) as [<- | Hne].
        * rewrite upd_same. intros E. injection E as <-. lia.
        * rewrite upd_other by exact Hne. intros E. specialize (D g n E). lia.
      + intros E. specialize (D g n E). lia. }
  destruct (mode (resolveTimeConfig (config st) f)) as [[| |] |]; assumption.
Qed.

Lemma rebuildStep_rebuilt c w1 sw f :
  rebuilding c w1 sw -> rebuilt c w1 f (rebuildStep sw f).
Proof.
  destruct sw as [st w]. intros (WI & Cf & Na & Wa & St & D). cbn [fst snd] in *.
  unfold rebuildStep, rebuilt. cbv zeta. rewrite Cf.
  pose proof (createTimeAdapter_frame (resolveTimeConfig c f) w) as F.
  destruct (createTimeAdapter (resolveTimeConfig c f) w) as [a w'].
  destruct F as (Ia & Ic & Nx & _ & _ & _ & Ru).
  assert (On : exists b,
            upd f (Some a) (timeMap st) f = Some b /\ ad_cfg b = resolveTimeConfig c f
            /\ (next_adapter w1 <= ad_id b < next_adapter w')%nat
            /\ (ad_interval b = true ->
                (if ad_interval a then upd f (Some (ad_id a)) (disposers st)
                 else disposers st) f = Some (ad_id b)
                /\ running b w')).
  { exists a. rewrite upd_same. split; [reflexivity |]. split; [exact Ic |].
    split; [lia |]. intros E. rewrite E, upd_same. auto. }
  destruct (mode (resolveTimeConfig c f)) as [[| |] |];
    cbn [fst snd timeMap disposers]; [apply upd_same | exact On ..].
Qed.

Lemma rebuildStep_keeps_rebuilt c w1 sw f g :
  f <> g -> rebuilding c w1 sw -> rebuilt c w1 f sw -> rebuilt c w1 f (rebuildStep sw g).
Proof.
  destruct sw as [st w]. intros Hne (WI & Cf & Na & Wa & St & D). cbn [fst snd] in *.
  unfold rebuildStep, rebuilt. cbv zeta. cbn [fst snd]. intros Q.
  pose proof (createTimeAdapter_frame (resolveTimeConfig (config st) g) w) as F.
  pose proof (createTimeAdapter_keeps_running (resolveTimeConfig (config st) g) w) as KR.
  destruct (createTimeAdapter (resolveTimeConfig (config st) g) w) as [a w'].
  destruct F as (_ & _ & Nx & _). cbn [snd] in KR.
  destruct (mode (resolveTimeConfig c f)) as [[| |] |] eqn:Mf;
    destruct (mode (resolveTimeConfig (config st) g)) as [[| |] |];
    cbn [fst snd timeMap disposers]; rewrite ?upd_other by congruence; try exact Q;
    destruct Q as (b & Tb & Cb & Ib & Rb); exists b;
    (split; [exact Tb |]); (split; [exact Cb |]); (split; [lia |]);
    intros E; destruct (Rb E) as [Db Rn];
    (split; [| apply KR; auto]);
    destruct (ad_interval a); rewrite ?upd_other by congruence; exact Db.
Qed.

(** After the second loop every feature is rebuilt. *)
Lemma rebuild_loop c st w :
  WorldInv w -> config st = c -> (forall f, disposers st f = None) ->
  let sw2 := fold_left rebuildStep FEATURES (st, w) in
  rebuilding c w sw2 /\ forall f, rebuilt c w f sw2.
Proof.
  intros WI Cf D. cbv zeta.
  apply (fold_features rebuildStep (rebuilding c w) (rebuilt c w)).
  - intros s f. apply rebuildStep_rebuilding.
  - intros s f. apply rebuildStep_rebuilt.
  - intros s f g. apply rebuildStep_keeps_rebuilt.
  - split; [exact WI |]. cbn [fst snd]. split; [exact Cf |]. split; [lia |].
    split; [reflexivity |]. split; [auto |]. intros f n E. rewrite D in E. discriminate.
Qed.

(** *** [rebuildTimeAdapters] *)

(** What a rebuild leaves: the configuration as it was; a consistent world
    and state; every adapter that had a disposer stopped, its timer
    cleared; and for every feature no adapter if its resolved mode is off,
    and otherwise an adapter that did not exist before, built from the
    resolved configuration. *)
Lemma rebuildTimeAdapters_result st w :
  WorldInv w -> (forall f n, disposers st f = Some n -> (n < next_adapter w)%nat) ->
  let st' := fst (rebuildTimeAdapters (st, w)) in
  let w' := snd (rebuildTimeAdapters (st, w)) in
  config st' = config st /\ wall w' = wall w
  /\ WorldInv w' /\ StateInv st' w'
  /\ (forall f n, disposers st f = Some n -> stopped n w' /\ noTimerOf n w')
  /\ (forall f,
        match mode (resolveTimeConfig (config st) f) with
        | Some off => timeMap st' f = None
        | _ =>
            exists a,
              timeMap st' f = Some a /\ ad_cfg a = resolveTimeConfig (config st) f
              /\ (next_adapter w <= ad_id a < next_adapter w')%nat
              /\ (ad_interval a = true ->
                  disposers st' f = Some (ad_id a) /\ running a w')
        end).
Proof.
  intros WI DA. cbv zeta. unfold rebuildTimeAdapters.
  destruct (dispose_loop st w WI) as (W1 & C1 & T1 & N1 & Wa1 & D1 & S1).
  destruct (fold_left disposeStep FEATURES (st, w)) as [st1 w1]. cbn [fst snd] in *.
  destruct (rebuild_loop (config st) st1 w1 W1 C1 D1)
    as [(W2 & C2 & N2 & Wa2 & S2 & D2) Q].
  destruct (fold_left rebuildStep FEATURES (st1, w1)) as [st2 w2]. cbn [fst snd] in *.
  split; [exact C2 |]. split; [congruence |]. split; [exact W2 |].
  assert (Q' : forall f,
            match mode (resolveTimeConfig (config st) f) with
            | Some off => timeMap st2 f = None
            | _ =>
                exists a,
                  timeMap st2 f = Some a /\ ad_cfg a = resolveTimeConfig (config st) f
                  /\ (next_adapter w <= ad_id a < next_adapter w2)%nat
                  /\ (ad_interval a = true ->
                      disposers st2 f = Some (ad_id a) /\ running a w2)
            end).
  { intros f. specialize (Q f). unfold rebuilt in Q. cbn [fst snd] in Q.
    rewrite N1 in Q. exact Q. }
  split; [| split; [| exact Q']].
  - split.
    + intros f a E. specialize (Q' f).
      destruct (mode (resolveTimeConfig (config st) f)) as [[| |] |];
        try (rewrite E in Q'; discriminate);
        destruct Q' as (b & Tb & _ & Ib & _); assert (a = b) as -> by congruence; lia.
    + intros f n E. specialize (D2 f n E). lia.
    + intros f Mo. rewrite C2 in Mo. specialize (Q' f). rewrite Mo in Q'. exact Q'.
    + intros f a E. rewrite C2. specialize (Q' f).
      destruct (mode (resolveTimeConfig (config st) f)) as [[| |] |];
        try (rewrite E in Q'; discriminate);
        destruct Q' as (b & Tb & Cb & _); assert (a = b) as -> by congruence; exact Cb.
    + intros f a E Iv. specialize (Q' f).
      destruct (mode (resolveTimeConfig (config st) f)) as [[| |] |];
        try (rewrite E in Q'; discriminate);
        destruct Q' as (b & Tb & _ & _ & Rb); assert (a = b) as -> by congruence;
        exact (proj1 (Rb Iv)).
  - intros f n E.
    assert (St : stopped n w2).
    { apply S2; [| exact (S1 f n E)]. rewrite N1. exact (DA f n E). }
    split; [exact St |]. apply stopped_noTimerOf; assumption.
Qed.

End Host.
End RebuildFacts.

(** ** The facade in every run *)

Module FacadeFacts.
Import JsDate Types TimeService AdapterSpec MashOS MashOSSpec ConfigureSpec.
Import MergeFacts WorldFacts RebuildFacts FlowerFacts.

Section Host.
Context `{HostEnv}.

(** *** The invariants hold in every run *)

Lemma emptyWorld_WorldInv clock : WorldInv (emptyWorld clock).
Proof. split; cbn; intros ? ? E; rewrite lookup_empty in E; discriminate. Qed.

Lemma subscribe_WorldInv a cb w : WorldInv w -> WorldInv (subscribe a cb w).
Proof.
  intros [CA TO]. unfold subscribe.
  destruct (closures w !! ad_id a) as [s |] eqn:C; [| split; assumption].
  split; cbn.
  - intros n s0 E. destruct (decide (ad_id a = n)) as [<- | Hne]; [exact (CA _ _ C) |].
    rewrite lookup_insert_ne in E by exact Hne. exact (CA _ _ E).
  - intros id tmr T. destruct (TO id tmr T) as (Lt & s0 & C0 & T0). split; [exact Lt |].
    destruct (decide (ad_id a = tm_owner tmr)) as [E | Hne].
    + rewrite <- E, lookup_insert_eq. eexists. split; [reflexivity |]. cbn.
      rewrite <- E in C0. congruence.
    + rewrite lookup_insert_ne by exact Hne. eauto.
Qed.

Lemma unsubscribe_WorldInv a cb w : WorldInv w -> WorldInv (unsubscribe a cb w).
Proof.
  intros [CA TO]. unfold unsubscribe.
  destruct (closures w !! ad_id a) as [s |] eqn:C; [| split; assumption].
  split; cbn.
  - intros n s0 E. destruct (decide (ad_id a = n)) as [<- | Hne]; [exact (CA _ _ C) |].
    rewrite lookup_insert_ne in E by exact Hne. exact (CA _ _ E).
  - intros id tmr T. destruct (TO id tmr T) as (Lt & s0 & C0 & T0). split; [exact Lt |].
    destruct (decide (ad_id a = tm_owner tmr)) as [E | Hne].
    + rewrite <- E, lookup_insert_eq. eexists. split; [reflexivity |]. cbn.
      rewrite <- E in C0. congruence.
    + rewrite lookup_insert_ne by exact Hne. eauto.
Qed.

Lemma tick_WorldInv a w : WorldInv w -> WorldInv (tick a w).
Proof.
  intros [CA TO]. unfold tick.
  destruct (closures w !! ad_id a) as [s |]; [| split; assumption].
  destruct (timer s) as [id |]; [| split; assumption].
  destruct (timers w !! id); split; assumption.
Qed.

Lemma tick_next_adapter a w : next_adapter (tick a w) = next_adapter w.
Proof.
  unfold tick. destruct (closures w !! ad_id a) as [s |]; [| reflexivity].
  destruct (timer s) as [id |]; [| reflexivity]. destruct (timers w !! id); reflexivity.
Qed.

Lemma subscribe_next_adapter a cb w : next_adapter (subscribe a cb w) = next_adapter w.
Proof. unfold subscribe. destruct (closures w !! ad_id a); reflexivity. Qed.

Lemma unsubscribe_next_adapter a cb w :
  next_adapter (unsubscribe a cb w) = next_adapter w.
Proof. unfold unsubscribe. destruct (closures w !! ad_id a); reflexivity. Qed.

Lemma StateInv_world st w w' :
  next_adapter w' = next_adapter w -> StateInv st w -> StateInv st w'.
Proof. intros E [A B C D F]. split; try rewrite E; assumption. Qed.

Lemma configure_unfold next st w :
  configure next (st, w)
  = rebuildTimeAdapters
      ({| config := mergeConfig (config st) next; timeMap := timeMap st;
          disposers := disposers st |}, w).
Proof. reflexivity. Qed.

Lemma reachable_inv st w : Reachable st w -> WorldInv w /\ StateInv st w.
Proof.
  induction 1 as [clock | st w next R [WI SI] | st w clock R [WI SI] | st w a R [WI SI]
                 | st w a cb R [WI SI] | st w a cb R [WI SI]].
  - unfold boot.
    destruct (rebuildTimeAdapters_result
                {| config := initialConfig; timeMap := fun _ => None;
                   disposers := fun _ => None |} (emptyWorld clock)
                (emptyWorld_WorldInv clock))
      as (_ & _ & WI & SI & _); [discriminate | auto].
  - rewrite configure_unfold.
    destruct (rebuildTimeAdapters_result
                {| config := mergeConfig (config st) next; timeMap := timeMap st;
                   disposers := disposers st |} w WI)
      as (_ & _ & WI' & SI' & _); [exact (disposers_allocated st w SI) | auto].
  - split; [destruct WI; split; assumption |].
    apply (StateInv_world st w); [reflexivity | exact SI].
  - split; [apply tick_WorldInv; exact WI |].
    apply (StateInv_world st w); [apply tick_next_adapter | exact SI].
  - split; [apply subscribe_WorldInv; exact WI |].
    apply (StateInv_world st w); [apply subscribe_next_adapter | exact SI].
  - split; [apply unsubscribe_WorldInv; exact WI |].
    apply (StateInv_world st w); [apply unsubscribe_next_adapter | exact SI].
Qed.

(** *** A feature switched off *)

Lemma timeOf_absent st f : timeMap st f = None -> timeOf st f = None.
Proof. unfold timeOf. intros ->. reflexivity. Qed.

(** Claim C2, as amended.  In every run, a feature whose resolved mode is
    off has no adapter, and each of its operations returns: the [myweb]
    operations work on a direct reading of the wall clock;
    [input.buildEntry] leaves [created_at] out; [flower.annotate] leaves the
    time band and the timestamp out; [flower.analyze] gives the weather
    cloudy and leaves the timestamp out. *)
Theorem off_feature_runs_without_adapter st w f :
  Reachable st w ->
  mode (resolveTimeConfig (config st) f) = Some off ->
  timeMap st f = None
  /\ match f with
     | input =>
         forall payload,
           input_buildEntry payload st w
           = Normal {| emotions := InputCore.bp_emotions payload;
                       memo := InputCore.bp_memo payload;
                       created_at := None |}
     | myweb =>
         mywebNow st w = Valid (wall w)
         /\ isWeeklyReportNow st w = MyWebCore.isWeeklyReportTrigger (Valid (wall w))
         /\ isMonthlyReportNow st w = MyWebCore.isMonthlyReportTrigger (Valid (wall w))
         /\ completedWeeklyRangeForNow st w
            = MyWebCore.getCompletedWeeklyRangeFrom (Valid (wall w))
         /\ completedMonthlyRangeForNow st w
            = MyWebCore.getCompletedMonthlyRangeFrom (Valid (wall w))
         /\ currentWeeklyRange st w
            = MyWebCore.getCurrentWeeklyRangeContaining (Valid (wall w))
         /\ currentMonthlyRange st w
            = MyWebCore.getCurrentMonthlyRangeContaining (Valid (wall w))
     | flower =>
         (forall (T : Type) (d : T),
            flower_annotate d st w
            = Normal {| FlowerCore.data := d; FlowerCore.timeBand := None;
                        FlowerCore.an_annotated_at := None |})
         /\ (forall es memo, exists r,
               flower_analyze es memo st w = Normal r
               /\ FlowerCore.climate r
                  = Some {| FlowerCore.weather := Weather.cloudy |}
               /\ FlowerCore.annotated_at r = None)
     end.
Proof.
  intros R Off. destruct (reachable_inv st w R) as [_ SI].
  pose proof (off_absent st w SI f Off) as A. split; [exact A |].
  pose proof (timeOf_absent st f A) as TA.
  destruct f.
  - intros payload. unfold input_buildEntry. rewrite TA. reflexivity.
  - assert (N : mywebNow st w = Valid (wall w)) by (unfold mywebNow; rewrite TA; reflexivity).
    unfold isWeeklyReportNow, isMonthlyReportNow, completedWeeklyRangeForNow,
      completedMonthlyRangeForNow, currentWeeklyRange, currentMonthlyRange.
    rewrite N. repeat split.
  - split.
    + intros T d. unfold flower_annotate. rewrite TA. reflexivity.
    + intros es memo. unfold flower_analyze. rewrite TA.
      eexists. split; [reflexivity |]. cbn. split; reflexivity.
Qed.

(** *** [configure] *)

Lemma resolveTimeConfig_json c f :
  resolveTimeConfig (jsonClone c) f = jsonTimeConfig (resolveTimeConfig c f).
Proof.
  unfold resolveTimeConfig, jsonClone. cbn. rewrite lookup_fmap.
  destruct (perFeature c !! featureKey f); reflexivity.
Qed.

(** A feature the partial does not mention keeps its override entry, and
    so its resolved configuration, as the JSON copy of what it was, unless
    it has no override and the partial updates the default. *)
Lemma mergeConfig_absent_feature base next f :
  partialEntry next (featureKey f) = None ->
  perFeature (mergeConfig base next) !! featureKey f
  = jsonTimeConfig <$> perFeature base !! featureKey f
  /\ (is_Some (perFeature base !! featureKey f) \/ partialDefault next = None ->
      resolveTimeConfig (mergeConfig base next) f
      = jsonTimeConfig (resolveTimeConfig base f)).
Proof.
  intros A. pose proof (mergeConfig_entry base next (featureKey f)) as E.
  rewrite A in E. split; [exact E |].
  intros C. unfold resolveTimeConfig. rewrite E, mergeConfig_default.
  destruct (perFeature base !! featureKey f) as [tc |]; [reflexivity |].
  destruct C as [[x C] | C]; [discriminate |]. rewrite C. reflexivity.
Qed.


End Host.
End FacadeFacts.

(** ** Concrete inputs *)

Module Examples.
Import ES JsDate Types TimeService AdapterSpec FlowerCore FlowerSpec WeatherSpec.
Import MashOS MashOSSpec ConfigureSpec.
Import Inputs MoreInputs TimeServiceFacts FlowerFacts MergeFacts WorldFacts RebuildFacts FacadeFacts.

#[local] Existing Instance jst.

(** *** Flower analysis *)

(** Claim C1 as stated fails on joy, sadness and calm together: the
    priority order gives joy's tone, with lightness 0.60, and the code takes
    the lightness 0.70 of calm. *)
Lemma analyze_tone_not_one_priority :
  toneByPriority priority (emotions joySadnessCalm) = toneOf joy
  /\ (exists r, analyze 0 joySadnessCalm = Normal r
                /\ toneColor (flower r) = {| h := 50; s := 0.70; l := 0.70 |}%Q)
  /\ ~ tonePicksByPriority 0 joySadnessCalm.
Proof.
  split; [reflexivity |]. split; [eexists; split; reflexivity |].
  intros (r & E & T). vm_compute in E. injection E as <-.
  vm_compute in T. discriminate T.
Qed.

(** Sadness with anger: the saturation is anger's 0.70, not the 0.45 of
    sadness, which comes first in the priority order. *)
Lemma analyze_saturation_of_sadness_and_anger :
  let args := {| emotions := [emotion sadness; emotion anger];
                 memo := None; time := None |} in
  s (toneByPriority priority (emotions args)) = 0.45%Q
  /\ exists r, analyze 0 args = Normal r
               /\ s (toneColor (flower r)) = 0.70%Q.
Proof. split; [reflexivity |]. eexists; split; reflexivity. Qed.

(** Joy alone at 10:00 local time: sunny, hue 50, spread 0.6. *)
Lemma analyze_joy_at_ten :
  let ten := new_Date7 (Some 2025) (Some 9) (Some 24)
                       (Some 10) (Some 0) (Some 0) (Some 0) in
  exists r,
    analyze 0
      {| emotions := [emotion joy]; memo := None;
         time := Some {| now := fun _ => ten |} |} = Normal r
    /\ climate r = Some {| weather := Weather.sunny |}
    /\ h (toneColor (flower r)) = 50%Q
    /\ (FlowerCore.spread (shape (flower r)) == 0.6)%Q.
Proof. eexists. split; [vm_compute; reflexivity |]. repeat split. Qed.

(** Claim C7 as stated fails on a time source that yields an invalid date:
    the hour is NaN, so the specification gives the weather of the
    emotions, cloudy for none, and [analyze] raises in [toISOString]. *)
Lemma analyze_raises_on_invalid_date :
  now brokenClock 0 = InvalidDate
  /\ specWeather 0 [] (Some brokenClock) = Weather.cloudy
  /\ analyze 0 {| emotions := []; memo := None; time := Some brokenClock |}
     = ThrowRangeError
  /\ ~ weatherByHourThenEmotion 0 [] None (Some brokenClock).
Proof.
  split; [vm_compute; reflexivity |]. split; [vm_compute; reflexivity |].
  split; [vm_compute; reflexivity |].
  intros (r & E & _). vm_compute in E. discriminate E.
Qed.

(** Claim C10 as stated fails on a time source that yields an invalid
    date: [toISOString] raises, and [annotate] returns nothing. *)
Lemma annotate_raises_on_invalid_date :
  now brokenClock 0 = InvalidDate
  /\ annotate 0 {| ai_data := tt; ai_time := Some brokenClock |}
     = ThrowRangeError
  /\ ~ annotateKeepsData 0 {| ai_data := tt; ai_time := Some brokenClock |}.
Proof.
  split; [vm_compute; reflexivity |]. split; [vm_compute; reflexivity |].
  intros (r & E & _). vm_compute in E. discriminate E.
Qed.

(** *** The time adapter *)

Lemma now_returns_frozen_instant_witness :
  freezeTo frozenConfig = Some (FString "2025-10-24T07:00:00.000Z")
  /\ wfFreezeTo (FString "2025-10-24T07:00:00.000Z")
  /\ forall clock,
       now (adapter_time (fst (createTimeAdapter frozenConfig (emptyWorld 0)))) clock
       = Valid 1761289200000.
Proof.
  split; [reflexivity |]. split; [exact I |].
  intros clock.
  rewrite (proj1 (now_returns_frozen_instant frozenConfig
                    (FString "2025-10-24T07:00:00.000Z") (emptyWorld 0)
                    eq_refl ltac:(discriminate) I) clock).
  vm_compute. reflexivity.
Defined.

Lemma subscribe_witness :
  let a := fst (createTimeAdapter tickingConfig (emptyWorld 0)) in
  let w := snd (createTimeAdapter tickingConfig (emptyWorld 0)) in
  mode tickingConfig <> Some snapshot /\ mode tickingConfig <> Some off
  /\ running a w
  /\ calls (subscribe a 7%nat w) = [(7%nat, Valid 0)].
Proof.
  cbv zeta. split; [discriminate |]. split; [discriminate |].
  destruct (subscribe_notifies_once_unsubscribe_removes_one
              tickingConfig (emptyWorld 0) 7%nat
              ltac:(discriminate) ltac:(discriminate)) as (_ & R & K).
  split; [exact R |]. exact (proj1 (K _ R)).
Defined.

(** Two subscribers, the first unsubscribes, the timer fires a second
    later: only the second is notified. *)
Lemma unsubscribe_example :
  let a := fst (createTimeAdapter tickingConfig (emptyWorld 0)) in
  let w := snd (createTimeAdapter tickingConfig (emptyWorld 0)) in
  calls (tick a (advance 1000 (unsubscribe a 7%nat (subscribe a 8%nat (subscribe a 7%nat w)))))
  = [(7%nat, Valid 0); (8%nat, Valid 0); (8%nat, Valid 1000)].
Proof. vm_compute. reflexivity. Qed.

(** *** The facade *)

Lemma boot_reachable clock :
  Reachable (fst (boot clock)) (snd (boot clock)).
Proof. apply R_boot. Qed.

Lemma off_feature_witness :
  let sw := configure allOff (boot 0) in
  Reachable (fst sw) (snd sw)
  /\ mode (resolveTimeConfig (config (fst sw)) input) = Some off
  /\ timeMap (fst sw) input = None.
Proof.
  cbv zeta.
  assert (R : Reachable (fst (configure allOff (boot 0))) (snd (configure allOff (boot 0)))).
  { rewrite (surjective_pairing (boot 0)). apply R_configure, R_boot. }
  assert (M : mode (resolveTimeConfig (config (fst (configure allOff (boot 0)))) input)
              = Some off) by (vm_compute; reflexivity).
  split; [exact R |]. split; [exact M |].
  exact (proj1 (off_feature_runs_without_adapter _ _ input R M)).
Defined.

(** Claim C2 as stated fails for the [input] feature switched off:
    [buildEntry] returns an entry without [created_at], not one stamped
    from the wall clock. *)
Lemma off_input_has_no_timestamp :
  let sw := configure allOff (boot 0) in
  Reachable (fst sw) (snd sw)
  /\ mode (resolveTimeConfig (config (fst sw)) input) = Some off
  /\ ~ offSubstitutesWallClock input (fst sw) (snd sw).
Proof.
  cbv zeta. split; [rewrite (surjective_pairing (boot 0)); apply R_configure, R_boot |].
  split; [vm_compute; reflexivity |].
  intros [_ K].
  destruct (K {| InputCore.bp_emotions := []; InputCore.bp_memo := None |})
    as (e & E & C).
  vm_compute in E. injection E as <-. discriminate C.
Qed.



End Examples.

(** ** mywebCore: the current ranges and how the ranges fit together *)

Module PeriodFacts.
Import ES ESFacts JsDate JsDateFacts MyWebCore MyWebFacts.

Section Host.
Context `{HostEnv}.

Lemma supportedSpan_range t :
  supportedSpan t = true ->
  supportedRef t = true
  /\ - maxTime + 100 * msPerDay <= t <= maxTime - 100 * msPerDay
  /\ MakeFullYear (YearFromTime (LocalTime t)) = YearFromTime (LocalTime t).
Proof.
  unfold supportedSpan. intros S. apply andb_prop in S as [S Hi].
  apply Z.leb_le in Hi. split; [exact S |].
  destruct (supportedRef_range t S) as [R Y]. split; [lia |].
  apply MakeFullYear_plain. lia.
Qed.

(** The time value of local midnight of day [d] and of its last
    millisecond. *)
Lemma last_ms_of_day d :
  UTC (MakeDate d (MakeTime 23 59 59 999)) = UTC (MakeDate (d + 1) 0) - 1.
Proof. rewrite MakeTime_last. unfold UTC, MakeDate, msPerDay. lia. Qed.

Lemma Day_local_last_ms d :
  Day (LocalTime (UTC (MakeDate d (MakeTime 23 59 59 999)))) = d.
Proof. rewrite LocalTime_UTC. apply Day_MakeDate. apply MakeTime_bound; lia. Qed.

(** *** The week *)

Lemma endOfWeekSaturday_valid t :
  - maxTime + 9 * msPerDay <= t <= maxTime - 9 * msPerDay ->
  MakeFullYear (YearFromTime (LocalTime t)) = YearFromTime (LocalTime t) ->
  MakeFullYear (YearFromDay (Day (LocalTime t) - WeekDay (LocalTime t)))
  = YearFromDay (Day (LocalTime t) - WeekDay (LocalTime t)) ->
  endOfWeekSaturday (Valid t)
  = Valid (UTC (MakeDate (Day (LocalTime t) - WeekDay (LocalTime t) + 6)
                         (MakeTime 23 59 59 999))).
Proof.
  intros R Q Qs. unfold endOfWeekSaturday. cbv zeta.
  assert (R9 : - maxTime + 9 * msPerDay <= t <= maxTime)
    by (unfold msPerDay, maxTime in *; lia).
  rewrite (startOfWeekSunday_valid t R9 Q).
  pose proof (Day_bounds (LocalTime t)) as B. pose proof LocalTZA_bound as TZ.
  pose proof (WeekDay_bound (LocalTime t)) as W.
  set (sun := Day (LocalTime t) - WeekDay (LocalTime t)) in *.
  destruct (local_midnight_fields sun) as [D1 _].
  unfold nadd. getters.
  rewrite new_Date7_local by (unfold YearFromTime; rewrite D1; exact Qs).
  rewrite D1.
  replace (sun - DateFromTime (LocalTime (UTC (MakeDate sun 0)))
           + (DateFromTime (LocalTime (UTC (MakeDate sun 0))) + 6))
    with (sun + 6) by lia.
  apply TimeClip_valid. rewrite MakeTime_last.
  subst sun. unfold UTC, MakeDate, LocalTime, msPerDay, maxTime in *. lia.
Qed.

(** The current weekly range, from the Sunday on or before the reference
    day. *)
Lemma current_weekly_range_plain t :
  - maxTime + 9 * msPerDay <= t <= maxTime - 9 * msPerDay ->
  MakeFullYear (YearFromTime (LocalTime t)) = YearFromTime (LocalTime t) ->
  MakeFullYear (YearFromDay (Day (LocalTime t) - WeekDay (LocalTime t)))
  = YearFromDay (Day (LocalTime t) - WeekDay (LocalTime t)) ->
  getCurrentWeeklyRangeContaining (Valid t)
  = {| start := Valid (UTC (MakeDate (Day (LocalTime t) - WeekDay (LocalTime t)) 0));
       end_ := Valid (UTC (MakeDate (Day (LocalTime t) - WeekDay (LocalTime t) + 6)
                                    (MakeTime 23 59 59 999))) |}.
Proof.
  intros R Q Qs.
  assert (R9 : - maxTime + 9 * msPerDay <= t <= maxTime)
    by (unfold msPerDay, maxTime in *; lia).
  unfold getCurrentWeeklyRangeContaining.
  rewrite (startOfWeekSunday_valid t R9 Q), (endOfWeekSaturday_valid t R Q Qs).
  reflexivity.
Qed.

Lemma current_weekly_range_value t :
  supportedSpan t = true ->
  getCurrentWeeklyRangeContaining (Valid t)
  = {| start := Valid (UTC (MakeDate (Day (LocalTime t) - WeekDay (LocalTime t)) 0));
       end_ := Valid (UTC (MakeDate (Day (LocalTime t) - WeekDay (LocalTime t) + 6)
                                    (MakeTime 23 59 59 999))) |}.
Proof.
  intros S. destruct (supportedSpan_range t S) as (Sr & R & Q).
  pose proof (WeekDay_bound (LocalTime t)) as W.
  apply current_weekly_range_plain; [unfold msPerDay, maxTime in *; lia | exact Q |].
  apply (plain_year_before t); [exact Sr | lia].
Qed.

(** The completed weekly range, from the same Sunday. *)
Lemma completed_weekly_range_value t :
  supportedRef t = true ->
  getCompletedWeeklyRangeFrom (Valid t)
  = {| start := Valid (UTC (MakeDate (Day (LocalTime t) - WeekDay (LocalTime t) - 7) 0));
       end_ := Valid (UTC (MakeDate (Day (LocalTime t) - WeekDay (LocalTime t) - 1)
                                    (MakeTime 23 59 59 999))) |}.
Proof.
  intros S. pose proof (supportedRef_range t S) as [R Y].
  pose proof (Day_bounds (LocalTime t)) as B. pose proof LocalTZA_bound as TZ.
  pose proof (WeekDay_bound (LocalTime t)) as W.
  set (sun := Day (LocalTime t) - WeekDay (LocalTime t)).
  assert (Q : MakeFullYear (YearFromTime (LocalTime t)) = YearFromTime (LocalTime t))
    by (apply (plain_year_before t); [exact S | lia]).
  assert (R9 : - maxTime + 9 * msPerDay <= t <= maxTime)
    by (unfold msPerDay, maxTime in *; lia).
  assert (E0 : startOfWeekSunday (Valid t) = Valid (UTC (MakeDate sun 0)))
    by (apply startOfWeekSunday_valid; assumption).
  set (e := UTC (MakeDate (sun - 1) (MakeTime 23 59 59 999))).
  assert (Ev : e = UTC (MakeDate sun 0) - 1).
  { subst e. rewrite last_ms_of_day. replace (sun - 1 + 1) with sun by lia. reflexivity. }
  assert (De : Day (LocalTime e) = sun - 1) by apply Day_local_last_ms.
  assert (Re : - maxTime + 9 * msPerDay <= e <= maxTime).
  { rewrite Ev. subst sun. unfold UTC, MakeDate, LocalTime, msPerDay, maxTime in *. lia. }
  assert (Ee : new_Date_of_num (nsub (getTime (Valid (UTC (MakeDate sun 0)))) (Some 1))
               = Valid e).
  { unfold new_Date_of_num, nsub, getTime. rewrite <- Ev. apply TimeClip_valid.
    unfold msPerDay, maxTime in *. lia. }
  assert (Qe : MakeFullYear (YearFromTime (LocalTime e)) = YearFromTime (LocalTime e)).
  { unfold YearFromTime. rewrite De. apply (plain_year_before t); [exact S |].
    subst sun. lia. }
  set (t2 := UTC (MakeDate (sun - 1) 0)).
  assert (E2 : new_Date3 (getFullYear (Valid e)) (getMonth (Valid e)) (getDate (Valid e))
               = Valid t2).
  { unfold new_Date3. rewrite midnight_of_fields; [rewrite De; reflexivity | | exact Qe].
    unfold msPerDay, maxTime in *. lia. }
  destruct (local_midnight_fields (sun - 1)) as [D2 T2]. fold t2 in D2, T2.
  assert (R2 : - maxTime + 9 * msPerDay <= t2 <= maxTime).
  { subst t2 sun. unfold UTC, MakeDate, LocalTime, msPerDay, maxTime in *. lia. }
  assert (Q2 : MakeFullYear (YearFromTime (LocalTime t2)) = YearFromTime (LocalTime t2))
    by (rewrite (YearFromTime_Day _ _ (eq_trans D2 (eq_sym De))); exact Qe).
  assert (W2 : WeekDay (LocalTime t2) = 6).
  { unfold WeekDay. rewrite D2. subst sun. unfold WeekDay.
    Z.to_euclidean_division_equations. lia. }
  assert (E3 : startOfWeekSunday (Valid t2) = Valid (UTC (MakeDate (sun - 7) 0))).
  { rewrite startOfWeekSunday_valid by assumption. rewrite D2, W2.
    replace (sun - 1 - 6) with (sun - 7) by lia. reflexivity. }
  unfold getCompletedWeeklyRangeFrom. cbv zeta. rewrite E0, Ee, E2, E3. reflexivity.
Qed.


(** The Sunday on or before a day is the same for the days of one week. *)
Lemma week_start_unique sun d :
  (sun + 4) mod 7 = 0 -> sun <= d <= sun + 6 -> d - (d + 4) mod 7 = sun.
Proof. intros. zdiv. Qed.

Lemma week_start_sunday d : (d - (d + 4) mod 7 + 4) mod 7 = 0.
Proof. zdiv. Qed.

(** The local day of an instant between two local midnights. *)
Lemma Day_between a b t :
  UTC (MakeDate a 0) <= t <= UTC (MakeDate b (MakeTime 23 59 59 999)) ->
  a <= Day (LocalTime t) <= b.
Proof.
  rewrite MakeTime_last. unfold UTC, LocalTime, MakeDate, Day, msPerDay. intros. zdiv.
Qed.

Lemma between_of_Day t :
  UTC (MakeDate (Day (LocalTime t)) 0) <= t
  <= UTC (MakeDate (Day (LocalTime t)) (MakeTime 23 59 59 999)).
Proof.
  rewrite MakeTime_last. unfold UTC, LocalTime, MakeDate, Day, msPerDay. zdiv.
Qed.

(** *** The month *)

(** Day 0 of the month after is the last day of the month, across the turn
    of the year too. *)
Lemma MakeDay_next_month y m :
  0 <= m <= 11 -> MakeDay y (m + 1) 0 = MakeDay y m (DaysInMonth y m).
Proof.
  intros Hm. destruct (Z.eq_dec m 11) as [-> | Hne].
  - rewrite (MakeDay_plain y 11) by lia. unfold MakeDay. cbv zeta.
    change ((11 + 1) / 12) with 1. change ((11 + 1) mod 12) with 0.
    rewrite DayFromYear_succ.
    destruct (leapDays_cases y) as [[L D] | [L D]]; rewrite D;
      cbn [monthStart DaysInMonth]; rewrite L; lia.
  - rewrite !MakeDay_plain by lia. rewrite DaysInMonth_monthStart by lia. lia.
Qed.

Lemma DaysInMonth_bound y m : 0 <= m <= 11 -> 28 <= DaysInMonth y m <= 31.
Proof.
  intros Hm. rewrite DaysInMonth_monthStart by exact Hm.
  assert (Hl : 0 <= leapDays y <= 1)
    by (destruct (leapDays_cases y) as [[-> _] | [-> _]]; lia).
  pose proof (monthStart_mono (leapDays y) m Hl Hm). lia.
Qed.

(** The date of an instant is a date of its month. *)
Lemma DateFromTime_in_month t :
  1 <= DateFromTime t <= DaysInMonth (YearFromTime t) (MonthFromTime t).
Proof.
  pose proof (MonthFromTime_bound t) as Mb.
  pose proof (DayWithinYear_bound t) as B.
  rewrite DaysInMonth_monthStart by exact Mb.
  unfold DateFromTime. rewrite InLeapYear_leapDays.
  unfold MonthFromTime in *. rewrite InLeapYear_leapDays in *.
  destruct (leapDays_cases (YearFromTime t)) as [[-> E] | [-> E]]; rewrite E in B;
    unfold monthOfDay;
    repeat match goal with |- context [?a <? ?b] => destruct (Z.ltb_spec a b) end;
    simpl; lia.
Qed.

Lemma startOfMonth_valid t :
  - maxTime + 33 * msPerDay <= t <= maxTime ->
  MakeFullYear (YearFromTime (LocalTime t)) = YearFromTime (LocalTime t) ->
  startOfMonth (Valid t)
  = Valid (UTC (MakeDate (Day (LocalTime t) - DateFromTime (LocalTime t) + 1) 0)).
Proof.
  intros R Q. pose proof (Day_bounds (LocalTime t)) as B. pose proof LocalTZA_bound as TZ.
  pose proof (DateFromTime_bound (LocalTime t)) as Db.
  unfold startOfMonth. getters. rewrite new_Date7_local by exact Q.
  apply TimeClip_valid.
  unfold UTC, MakeDate, MakeTime, LocalTime, msPerDay, maxTime in *. lia.
Qed.

Lemma endOfMonth_valid t :
  - maxTime + 33 * msPerDay <= t <= maxTime - 33 * msPerDay ->
  MakeFullYear (YearFromTime (LocalTime t)) = YearFromTime (LocalTime t) ->
  endOfMonth (Valid t)
  = Valid (UTC (MakeDate (Day (LocalTime t) - DateFromTime (LocalTime t)
                          + DaysInMonth (YearFromTime (LocalTime t))
                                        (MonthFromTime (LocalTime t)))
                         (MakeTime 23 59 59 999))).
Proof.
  intros R Q. pose proof (Day_bounds (LocalTime t)) as B. pose proof LocalTZA_bound as TZ.
  pose proof (DateFromTime_bound (LocalTime t)) as Db.
  pose proof (MonthFromTime_bound (LocalTime t)) as Mb.
  pose proof (DaysInMonth_bound (YearFromTime (LocalTime t)) (MonthFromTime (LocalTime t)) Mb)
    as Dm.
  unfold endOfMonth, nadd. getters. unfold new_Date7. rewrite Q.
  rewrite MakeDay_next_month by exact Mb. rewrite MakeDay_of_fields.
  apply TimeClip_valid. rewrite MakeTime_last.
  unfold UTC, MakeDate, LocalTime, msPerDay, maxTime in *. lia.
Qed.

Lemma current_monthly_range_plain t :
  - maxTime + 33 * msPerDay <= t <= maxTime - 33 * msPerDay ->
  MakeFullYear (YearFromTime (LocalTime t)) = YearFromTime (LocalTime t) ->
  getCurrentMonthlyRangeContaining (Valid t)
  = {| start := Valid (UTC (MakeDate (Day (LocalTime t) - DateFromTime (LocalTime t) + 1) 0));
       end_ := Valid (UTC (MakeDate (Day (LocalTime t) - DateFromTime (LocalTime t)
                                     + DaysInMonth (YearFromTime (LocalTime t))
                                                   (MonthFromTime (LocalTime t)))
                                    (MakeTime 23 59 59 999))) |}.
Proof.
  intros R Q.
  assert (R0 : - maxTime + 33 * msPerDay <= t <= maxTime)
    by (unfold msPerDay, maxTime in *; lia).
  unfold getCurrentMonthlyRangeContaining.
  rewrite (startOfMonth_valid t R0 Q), (endOfMonth_valid t R Q). reflexivity.
Qed.

Lemma current_monthly_range_value t :
  supportedSpan t = true ->
  getCurrentMonthlyRangeContaining (Valid t)
  = {| start := Valid (UTC (MakeDate (Day (LocalTime t) - DateFromTime (LocalTime t) + 1) 0));
       end_ := Valid (UTC (MakeDate (Day (LocalTime t) - DateFromTime (LocalTime t)
                                     + DaysInMonth (YearFromTime (LocalTime t))
                                                   (MonthFromTime (LocalTime t)))
                                    (MakeTime 23 59 59 999))) |}.
Proof.
  intros S. destruct (supportedSpan_range t S) as (Sr & R & Q).
  apply current_monthly_range_plain; [unfold msPerDay, maxTime in *; lia | exact Q].
Qed.

(** The completed monthly range: it ends with the last millisecond before
    the first of the month of the reference instant, an instant of a plain
    year, and starts with the first of the month of that instant. *)
Lemma completed_monthly_range_value t :
  supportedRef t = true ->
  let e := UTC (MakeDate (Day (LocalTime t) - DateFromTime (LocalTime t))
                         (MakeTime 23 59 59 999)) in
  getCompletedMonthlyRangeFrom (Valid t)
  = {| start := Valid (UTC (MakeDate (Day (LocalTime e) - DateFromTime (LocalTime e) + 1) 0));
       end_ := Valid e |}
  /\ - maxTime + 33 * msPerDay <= e <= t
  /\ Day (LocalTime e) = Day (LocalTime t) - DateFromTime (LocalTime t)
  /\ MakeFullYear (YearFromTime (LocalTime e)) = YearFromTime (LocalTime e).
Proof.
  intros S. cbv zeta. pose proof (supportedRef_range t S) as [R Y].
  pose proof (Day_bounds (LocalTime t)) as B. pose proof LocalTZA_bound as TZ.
  pose proof (DateFromTime_bound (LocalTime t)) as Db.
  set (d0 := Day (LocalTime t) - DateFromTime (LocalTime t)).
  assert (Q : MakeFullYear (YearFromTime (LocalTime t)) = YearFromTime (LocalTime t))
    by (apply (plain_year_before t); [exact S | lia]).
  assert (R0 : - maxTime + 33 * msPerDay <= t <= maxTime)
    by (unfold msPerDay, maxTime in *; lia).
  set (e := UTC (MakeDate d0 (MakeTime 23 59 59 999))).
  assert (Ev : e = UTC (MakeDate (d0 + 1) 0) - 1) by apply last_ms_of_day.
  assert (De : Day (LocalTime e) = d0) by apply Day_local_last_ms.
  assert (Re : - maxTime + 33 * msPerDay <= e <= t).
  { rewrite Ev. subst d0. unfold UTC, MakeDate, LocalTime, msPerDay, maxTime in *. lia. }
  assert (Qe : MakeFullYear (YearFromTime (LocalTime e)) = YearFromTime (LocalTime e)).
  { unfold YearFromTime. rewrite De. apply (plain_year_before t); [exact S |].
    subst d0. lia. }
  assert (Re' : - maxTime + 33 * msPerDay <= e <= maxTime) by lia.
  split; [| split; [exact Re | split; [exact De | exact Qe]]].
  unfold getCompletedMonthlyRangeFrom. cbv zeta.
  rewrite (startOfMonth_valid t R0 Q). fold d0.
  assert (Ee : new_Date_of_num (nsub (getTime (Valid (UTC (MakeDate (d0 + 1) 0)))) (Some 1))
               = Valid e).
  { unfold new_Date_of_num, nsub, getTime. rewrite <- Ev. apply TimeClip_valid.
    unfold msPerDay, maxTime in *. lia. }
  rewrite Ee, (startOfMonth_valid e Re' Qe). reflexivity.
Qed.


(** *** Properties of the ranges *)

(** Property X1. The current weekly range holds its reference instant: it runs
    from a local Sunday 00:00:00.000 at or before the instant to the Saturday
    23:59:59.999 at or after it, seven days less a millisecond later. *)
Theorem current_weekly_range_contains t :
  supportedSpan t = true ->
  exists s e : Z,
    getCurrentWeeklyRangeContaining (Valid t) = {| start := Valid s; end_ := Valid e |}
    /\ s <= t <= e
    /\ e - s = 7 * msPerDay - 1
    /\ getDay (Valid s) = Some 0
    /\ clockFields (Valid s) = [Some 0; Some 0; Some 0; Some 0]
    /\ getDay (Valid e) = Some 6
    /\ clockFields (Valid e) = [Some 23; Some 59; Some 59; Some 999].
Proof.
  intros S. rewrite (current_weekly_range_value t S).
  pose proof (WeekDay_bound (LocalTime t)) as W.
  pose proof (between_of_Day t) as B.
  pose proof (week_start_sunday (Day (LocalTime t))) as Su.
  unfold WeekDay in *.
  set (sun := Day (LocalTime t) - (Day (LocalTime t) + 4) mod 7) in *.
  eexists _, _. split; [reflexivity |].
  split; [| split; [| split; [| split; [| split]]]].
  - rewrite MakeTime_last in *. unfold UTC, MakeDate, msPerDay in *. subst sun. lia.
  - rewrite MakeTime_last. unfold UTC, MakeDate, msPerDay. lia.
  - unfold getDay, local_field, WeekDay.
    destruct (local_midnight_fields sun) as [-> _]. f_equal. exact Su.
  - apply clockFields_midnight.
  - unfold getDay, local_field, WeekDay. rewrite Day_local_last_ms. f_equal.
    revert Su. generalize sun. intros. zdiv.
  - apply clockFields_MakeDate; lia.
Qed.

(** Property X2. The current monthly range holds its reference instant: it
    runs from 00:00:00.000 of the first day to 23:59:59.999 of the last day of
    the local calendar month of the instant. *)
Theorem current_monthly_range_contains t :
  supportedSpan t = true ->
  let y := YearFromTime (LocalTime t) in
  let m := MonthFromTime (LocalTime t) in
  exists s e : Z,
    getCurrentMonthlyRangeContaining (Valid t) = {| start := Valid s; end_ := Valid e |}
    /\ s <= t <= e
    /\ localFields (Valid s) = [Some y; Some m; Some 1; Some 0; Some 0; Some 0; Some 0]
    /\ localFields (Valid e)
       = [Some y; Some m; Some (DaysInMonth y m); Some 23; Some 59; Some 59; Some 999].
Proof.
  intros S. cbv zeta. rewrite (current_monthly_range_value t S).
  pose proof (between_of_Day t) as B.
  pose proof (MonthFromTime_bound (LocalTime t)) as Mb.
  pose proof (DateFromTime_in_month (LocalTime t)) as Db.
  pose proof (MakeDay_of_fields (LocalTime t) 1) as D1.
  pose proof (MakeDay_of_fields (LocalTime t)
                (DaysInMonth (YearFromTime (LocalTime t)) (MonthFromTime (LocalTime t))))
    as Dn.
  set (y := YearFromTime (LocalTime t)) in *. set (m := MonthFromTime (LocalTime t)) in *.
  pose proof (DaysInMonth_bound y m Mb) as Dm.
  eexists _, _. split; [reflexivity |]. split; [| split].
  - rewrite MakeTime_last in *. unfold UTC, MakeDate, msPerDay in *. lia.
  - rewrite <- D1. replace 0 with (MakeTime 0 0 0 0) at 1 by reflexivity.
    apply localFields_of_MakeDay; lia.
  - rewrite <- Dn. apply localFields_of_MakeDay; lia.
Qed.

(** Property X3. The completed weekly range at an instant is the current
    weekly range of the instant seven days earlier. *)
Theorem completed_week_is_current_week_before t :
  supportedSpan t = true ->
  getCompletedWeeklyRangeFrom (Valid t)
  = getCurrentWeeklyRangeContaining (Valid (t - 7 * msPerDay)).
Proof.
  intros S. destruct (supportedSpan_range t S) as (Sr & R & Q).
  pose proof (WeekDay_bound (LocalTime t)) as W.
  assert (Dp : Day (LocalTime (t - 7 * msPerDay)) = Day (LocalTime t) - 7)
    by (unfold Day, LocalTime, msPerDay; zdiv).
  assert (Wp : WeekDay (LocalTime (t - 7 * msPerDay)) = WeekDay (LocalTime t))
    by (unfold WeekDay; rewrite Dp; zdiv).
  rewrite (completed_weekly_range_value t Sr).
  rewrite current_weekly_range_plain.
  - rewrite Dp, Wp.
    replace (Day (LocalTime t) - 7 - WeekDay (LocalTime t))
      with (Day (LocalTime t) - WeekDay (LocalTime t) - 7) by lia.
    replace (Day (LocalTime t) - WeekDay (LocalTime t) - 7 + 6)
      with (Day (LocalTime t) - WeekDay (LocalTime t) - 1) by lia.
    reflexivity.
  - unfold msPerDay, maxTime in *. lia.
  - unfold YearFromTime. rewrite Dp. apply (plain_year_before t); [exact Sr | lia].
  - rewrite Dp, Wp. apply (plain_year_before t); [exact Sr | lia].
Qed.

(** Property X4. The completed monthly range at an instant ends one
    millisecond before the current monthly range of the instant starts, and it
    is the current monthly range of its own last instant. *)
Theorem completed_month_is_current_month_of_its_end t :
  supportedSpan t = true ->
  exists e : Z,
    end_ (getCompletedMonthlyRangeFrom (Valid t)) = Valid e
    /\ start (getCurrentMonthlyRangeContaining (Valid t)) = Valid (e + 1)
    /\ e < t
    /\ getCurrentMonthlyRangeContaining (Valid e) = getCompletedMonthlyRangeFrom (Valid t).
Proof.
  intros S. destruct (supportedSpan_range t S) as (Sr & R & Q).
  destruct (completed_monthly_range_value t Sr) as (V & Re & De & Qe).
  pose proof (between_of_Day t) as B.
  pose proof (DateFromTime_bound (LocalTime t)) as Db.
  set (e := UTC (MakeDate (Day (LocalTime t) - DateFromTime (LocalTime t))
                          (MakeTime 23 59 59 999))) in *.
  exists e. rewrite V, (current_monthly_range_value t S). cbn [start end_].
  split; [reflexivity |]. split; [| split].
  - f_equal. subst e. rewrite last_ms_of_day. lia.
  - subst e. rewrite MakeTime_last in *. unfold UTC, MakeDate, msPerDay in *. lia.
  - rewrite current_monthly_range_plain;
      [| unfold msPerDay, maxTime in *; lia | exact Qe].
    f_equal. f_equal.
    (* the last day of the month of [e] is the day of [e] *)
    pose proof (MonthFromTime_bound (LocalTime t)) as Mb.
    pose proof (MakeDay_prev_month (YearFromTime (LocalTime t))
                  (MonthFromTime (LocalTime t)) Mb) as (P & Pm & Pd).
    rewrite MakeDay_of_fields in P.
    set (py := if MonthFromTime (LocalTime t) =? 0
               then YearFromTime (LocalTime t) - 1 else YearFromTime (LocalTime t)) in *.
    set (pm := if MonthFromTime (LocalTime t) =? 0
               then 11 else MonthFromTime (LocalTime t) - 1) in *.
    destruct (fields_of_MakeDay py pm (DaysInMonth py pm) (LocalTime e))
      as (Ye & Me & Dd); [lia | lia | rewrite De; lia |].
    rewrite Ye, Me, Dd. subst e. f_equal. rewrite De. f_equal. lia.
Qed.

(** Property X5. Every instant of a current weekly range has that range as its
    current weekly range, and the same completed weekly range. *)
Theorem weekly_ranges_constant_over_week t t' s e :
  supportedSpan t = true -> supportedSpan t' = true ->
  getCurrentWeeklyRangeContaining (Valid t) = {| start := Valid s; end_ := Valid e |} ->
  s <= t' <= e ->
  getCurrentWeeklyRangeContaining (Valid t') = getCurrentWeeklyRangeContaining (Valid t)
  /\ getCompletedWeeklyRangeFrom (Valid t') = getCompletedWeeklyRangeFrom (Valid t).
Proof.
  intros S S' V I.
  destruct (supportedSpan_range t S) as (Sr & _). destruct (supportedSpan_range t' S') as (Sr' & _).
  rewrite (current_weekly_range_value t S) in V |- *.
  rewrite (current_weekly_range_value t' S').
  rewrite (completed_weekly_range_value t Sr), (completed_weekly_range_value t' Sr').
  injection V as <- <-.
  apply Day_between in I.
  pose proof (week_start_sunday (Day (LocalTime t))) as Su.
  unfold WeekDay in *.
  rewrite (week_start_unique _ (Day (LocalTime t')) Su I). split; reflexivity.
Qed.

(** Property X6. Every instant of a current monthly range has that range as
    its current monthly range, and the same completed monthly range. *)
Theorem monthly_ranges_constant_over_month t t' s e :
  supportedSpan t = true -> supportedSpan t' = true ->
  getCurrentMonthlyRangeContaining (Valid t) = {| start := Valid s; end_ := Valid e |} ->
  s <= t' <= e ->
  getCurrentMonthlyRangeContaining (Valid t') = getCurrentMonthlyRangeContaining (Valid t)
  /\ getCompletedMonthlyRangeFrom (Valid t') = getCompletedMonthlyRangeFrom (Valid t).
Proof.
  intros S S' V I.
  destruct (supportedSpan_range t S) as (Sr & _). destruct (supportedSpan_range t' S') as (Sr' & _).
  rewrite (current_monthly_range_value t S) in V |- *.
  rewrite (current_monthly_range_value t' S').
  destruct (completed_monthly_range_value t Sr) as (-> & _).
  destruct (completed_monthly_range_value t' Sr') as (-> & _).
  injection V as <- <-.
  apply Day_between in I.
  pose proof (MonthFromTime_bound (LocalTime t)) as Mb.
  pose proof (DaysInMonth_bound (YearFromTime (LocalTime t)) (MonthFromTime (LocalTime t)) Mb)
    as Dm.
  pose proof (MakeDay_of_fields (LocalTime t)
                (Day (LocalTime t') - (Day (LocalTime t) - DateFromTime (LocalTime t))))
    as Md.
  destruct (fields_of_MakeDay (YearFromTime (LocalTime t)) (MonthFromTime (LocalTime t))
              (Day (LocalTime t') - (Day (LocalTime t) - DateFromTime (LocalTime t)))
              (LocalTime t'))
    as (Ye & Me & Dd); [exact Mb | lia | rewrite Md; lia |].
  rewrite Ye, Me, Dd.
  replace (Day (LocalTime t')
           - (Day (LocalTime t') - (Day (LocalTime t) - DateFromTime (LocalTime t))))
    with (Day (LocalTime t) - DateFromTime (LocalTime t)) by lia.
  split; reflexivity.
Qed.


(** Property X8. [startOfDay] and [endOfDay] bracket their argument: they
    return the first and the last millisecond of its local day, and applied to
    their own results they return them again. *)
Theorem day_bounds_bracket t :
  supportedSpan t = true ->
  exists s e : Z,
    startOfDay (Valid t) = Valid s /\ endOfDay (Valid t) = Valid e
    /\ s <= t <= e /\ e - s = msPerDay - 1
    /\ Day (LocalTime s) = Day (LocalTime t) /\ Day (LocalTime e) = Day (LocalTime t)
    /\ clockFields (Valid s) = [Some 0; Some 0; Some 0; Some 0]
    /\ clockFields (Valid e) = [Some 23; Some 59; Some 59; Some 999]
    /\ startOfDay (Valid s) = Valid s /\ endOfDay (Valid e) = Valid e.
Proof.
  intros S. destruct (supportedSpan_range t S) as (Sr & R & Q).
  pose proof (between_of_Day t) as B. pose proof LocalTZA_bound as TZ.
  pose proof (Day_bounds (LocalTime t)) as Db.
  set (d := Day (LocalTime t)) in *.
  assert (End : forall u,
            - maxTime + 2 * msPerDay <= u <= maxTime - 2 * msPerDay ->
            MakeFullYear (YearFromTime (LocalTime u)) = YearFromTime (LocalTime u) ->
            endOfDay (Valid u)
            = Valid (UTC (MakeDate (Day (LocalTime u)) (MakeTime 23 59 59 999)))).
  { intros u Ru Qu. unfold endOfDay. getters. rewrite new_Date7_local by exact Qu.
    replace (Day (LocalTime u) - DateFromTime (LocalTime u) + DateFromTime (LocalTime u))
      with (Day (LocalTime u)) by lia.
    apply TimeClip_valid. pose proof (Day_bounds (LocalTime u)).
    rewrite MakeTime_last. unfold UTC, MakeDate, LocalTime, msPerDay, maxTime in *. lia. }
  destruct (local_midnight_fields d) as [Ds _].
  pose proof (Day_local_last_ms d) as De.
  exists (UTC (MakeDate d 0)), (UTC (MakeDate d (MakeTime 23 59 59 999))).
  assert (R2 : - maxTime + 2 * msPerDay <= t <= maxTime)
    by (unfold msPerDay, maxTime in *; lia).
  split; [exact (startOfDay_valid t R2 Q) |].
  split; [apply End; [unfold msPerDay, maxTime in *; lia | exact Q] |].
  split; [exact B |].
  split; [rewrite MakeTime_last; unfold UTC, MakeDate, msPerDay; lia |].
  split; [exact Ds |]. split; [exact De |].
  split; [apply clockFields_midnight |].
  split; [apply clockFields_MakeDate; lia |]. split.
  - rewrite startOfDay_valid.
    + rewrite Ds. reflexivity.
    + subst d. unfold UTC, MakeDate, LocalTime, msPerDay, maxTime in *. lia.
    + rewrite (YearFromTime_Day _ _ Ds). exact Q.
  - rewrite End.
    + rewrite De. reflexivity.
    + rewrite MakeTime_last. subst d.
      unfold UTC, MakeDate, LocalTime, msPerDay, maxTime in *. lia.
    + rewrite (YearFromTime_Day _ _ De). exact Q.
Qed.

End Host.
End PeriodFacts.

(** ** The ranges at concrete instants *)

Module PeriodExamples.
Import ES JsDate MyWebCore PeriodFacts.

(** Sunday 26 October 2025, 07:00 in Japan: the current week runs from that
    Sunday 00:00:00.000 to Saturday 1 November 23:59:59.999. *)
Lemma current_weekly_range_witness :
  supportedSpan (H := jst) 1761429600000 = true
  /\ exists s e : Z,
       getCurrentWeeklyRangeContaining (H := jst) (Valid 1761429600000)
       = {| start := Valid s; end_ := Valid e |}
       /\ s <= 1761429600000 <= e.
Proof.
  split; [vm_compute; reflexivity |].
  destruct (current_weekly_range_contains (H := jst) 1761429600000)
    as (s & e & V & I & _); [vm_compute; reflexivity |].
  exists s, e. split; [exact V | exact I].
Defined.

(** 1 March 2024, 07:00 in Japan. *)
Lemma current_monthly_range_witness :
  supportedSpan (H := jst) 1709244000000 = true
  /\ exists s e : Z,
       getCurrentMonthlyRangeContaining (H := jst) (Valid 1709244000000)
       = {| start := Valid s; end_ := Valid e |}
       /\ s <= 1709244000000 <= e.
Proof.
  split; [vm_compute; reflexivity |].
  destruct (current_monthly_range_contains (H := jst) 1709244000000)
    as (s & e & V & I & _); [vm_compute; reflexivity |].
  exists s, e. split; [exact V | exact I].
Defined.

(** The current month of 15 February 2024, a leap year, ends on the 29th. *)
Lemma current_monthly_range_leap_february :
  localFields (H := jst)
    (end_ (getCurrentMonthlyRangeContaining (H := jst)
             (new_Date7 (H := jst) (Some 2024) (Some 1) (Some 15)
                        (Some 12) (Some 0) (Some 0) (Some 0))))
  = [Some 2024; Some 1; Some 29; Some 23; Some 59; Some 59; Some 999].
Proof. vm_compute. reflexivity. Qed.

Lemma completed_week_is_current_week_before_witness :
  supportedSpan (H := jst) 1761429600000 = true
  /\ getCompletedWeeklyRangeFrom (H := jst) (Valid 1761429600000)
     = getCurrentWeeklyRangeContaining (H := jst) (Valid (1761429600000 - 7 * msPerDay)).
Proof.
  split; [vm_compute; reflexivity |].
  apply (completed_week_is_current_week_before (H := jst) 1761429600000).
  vm_compute; reflexivity.
Defined.

Lemma completed_month_is_current_month_witness :
  supportedSpan (H := jst) 1709244000000 = true
  /\ exists e : Z,
       end_ (getCompletedMonthlyRangeFrom (H := jst) (Valid 1709244000000)) = Valid e
       /\ getCurrentMonthlyRangeContaining (H := jst) (Valid e)
          = getCompletedMonthlyRangeFrom (H := jst) (Valid 1709244000000).
Proof.
  split; [vm_compute; reflexivity |].
  destruct (completed_month_is_current_month_of_its_end (H := jst) 1709244000000)
    as (e & E & _ & _ & C); [vm_compute; reflexivity |].
  exists e. split; [exact E | exact C].
Defined.

(** Wednesday 29 October 2025, 07:00 in Japan, lies in the week of Sunday
    26 October. *)
Lemma weekly_ranges_constant_witness :
  supportedSpan (H := jst) 1761429600000 = true
  /\ supportedSpan (H := jst) 1761688800000 = true
  /\ getCurrentWeeklyRangeContaining (H := jst) (Valid 1761429600000)
     = {| start := Valid 1761404400000; end_ := Valid 1762009199999 |}
  /\ 1761404400000 <= 1761688800000 <= 1762009199999
  /\ getCurrentWeeklyRangeContaining (H := jst) (Valid 1761688800000)
     = getCurrentWeeklyRangeContaining (H := jst) (Valid 1761429600000).
Proof.
  split; [vm_compute; reflexivity |]. split; [vm_compute; reflexivity |].
  split; [vm_compute; reflexivity |]. split; [lia |].
  apply (weekly_ranges_constant_over_week (H := jst) 1761429600000 1761688800000
           1761404400000 1762009199999);
    [vm_compute; reflexivity | vm_compute; reflexivity | vm_compute; reflexivity | lia].
Defined.

(** 11 March 2024, 07:00 in Japan, lies in the month of 1 March. *)
Lemma monthly_ranges_constant_witness :
  supportedSpan (H := jst) 1709244000000 = true
  /\ supportedSpan (H := jst) 1710108000000 = true
  /\ getCurrentMonthlyRangeContaining (H := jst) (Valid 1709244000000)
     = {| start := Valid 1709218800000; end_ := Valid 1711897199999 |}
  /\ 1709218800000 <= 1710108000000 <= 1711897199999
  /\ getCompletedMonthlyRangeFrom (H := jst) (Valid 1710108000000)
     = getCompletedMonthlyRangeFrom (H := jst) (Valid 1709244000000).
Proof.
  split; [vm_compute; reflexivity |]. split; [vm_compute; reflexivity |].
  split; [vm_compute; reflexivity |]. split; [lia |].
  apply (monthly_ranges_constant_over_month (H := jst) 1709244000000 1710108000000
           1709218800000 1711897199999);
    [vm_compute; reflexivity | vm_compute; reflexivity | vm_compute; reflexivity | lia].
Defined.


Lemma day_bounds_bracket_witness :
  supportedSpan (H := jst) 1761429600000 = true
  /\ exists s e : Z,
       startOfDay (H := jst) (Valid 1761429600000) = Valid s
       /\ endOfDay (H := jst) (Valid 1761429600000) = Valid e
       /\ s <= 1761429600000 <= e.
Proof.
  split; [vm_compute; reflexivity |].
  destruct (day_bounds_bracket (H := jst) 1761429600000)
    as (s & e & Es & Ee & I & _); [vm_compute; reflexivity |].
  exists s, e. auto.
Defined.

End PeriodExamples.

(** ** flowerCore: the numbers of the flower *)

Module FlowerMore.
Import ES JsDate Types FlowerCore FlowerSpec FlowerFacts.

Section Host.
Context `{HostEnv}.

(** The flower [analyze] computes, from the labels present and the number
    of emotions. *)
Lemma analyze_flower clock args r :
  analyze clock args = Normal r ->
  let es := emotions args in
  let joy := presentb joy es in
  let sad := presentb sadness es in
  let anger := presentb anger es in
  let anxiety := presentb anxiety es in
  let calm := presentb calm es in
  flower r
  = {| toneColor :=
         {| h := if joy then 50 else if sad then 220 else if anger then 0
                 else if anxiety then 200 else if calm then 120 else 200;
            s := if joy || anger then 0.70 else if sad then 0.45
                 else if anxiety then 0.55 else if calm then 0.35 else 0.5;
            l := if calm then 0.70 else if joy then 0.60 else if sad then 0.45
                 else if anger then 0.45 else 0.55 |};
       shape :=
         {| spread :=
              Qmin 1 (inject_Z ((if joy then 1 else 0) + (if calm then 1 else 0)) * 0.6
                      + (if (3 <=? Z.of_nat (length es))%Z then 0.2 else 0)) |};
       animation :=
         {| sway := if anxiety then 0.8 else if calm then 0.2 else 0.5;
            breathAmplitude := if joy then 0.20 else if sad then 0.10 else 0.15;
            bloomSpeed := if joy then 1.0 else if sad then 0.6 else if anxiety then 0.7
                          else if anger then 0.8 else 0.9 |} |}%Q.
Proof.
  unfold analyze. cbv zeta.
  destruct (isoOrUndefined _); [| discriminate].
  intros E. injection E as <-. cbn [flower].
  rewrite !truthy_flag, length_map.
  rewrite (includes_presentb FlowerSpec.joy), (includes_presentb sadness),
    (includes_presentb FlowerSpec.anger), (includes_presentb FlowerSpec.anxiety),
    (includes_presentb FlowerSpec.calm).
  reflexivity.
Qed.

Ltac qcompare :=
  first [apply Qle_bool_iff; vm_compute; reflexivity
        | apply Qlt_alt; vm_compute; reflexivity
        | apply Qeq_bool_iff; vm_compute; reflexivity].

(** Property X9. Every number of the flower lies in its range: the hue in
    0..360, the bloom speed above 0 and at most 1, and every other number in
    0..1. *)
Theorem analyze_outputs_in_range clock args r :
  analyze clock args = Normal r ->
  let tone := toneColor (flower r) in
  let anim := animation (flower r) in
  (0 <= h tone <= 360 /\ 0 <= s tone <= 1 /\ 0 <= l tone <= 1
   /\ 0 <= FlowerCore.spread (shape (flower r)) <= 1
   /\ 0 <= sway anim <= 1 /\ 0 <= breathAmplitude anim <= 1
   /\ 0 < bloomSpeed anim <= 1)%Q.
Proof.
  intros E. cbv zeta. rewrite (analyze_flower clock args r E). cbv zeta.
  cbn [toneColor shape animation h s l FlowerCore.spread sway breathAmplitude bloomSpeed].
  destruct (presentb joy (emotions args)), (presentb sadness (emotions args)),
    (presentb anger (emotions args)), (presentb anxiety (emotions args)),
    (presentb calm (emotions args)),
    (3 <=? Z.of_nat (length (emotions args)))%Z;
    repeat split; qcompare.
Qed.

(** Property X10. The flower opens with joy and calm: the spread is at least
    0.6 exactly when joy or calm is present, and it is 1 exactly when both
    are. *)
Theorem analyze_spread_thresholds clock args r :
  analyze clock args = Normal r ->
  let sp := FlowerCore.spread (shape (flower r)) in
  ((0.6 <= sp)%Q <-> present joy (emotions args) \/ present calm (emotions args))
  /\ ((sp == 1)%Q <-> present joy (emotions args) /\ present calm (emotions args)).
Proof.
  intros E. cbv zeta. rewrite (analyze_flower clock args r E). cbv zeta.
  cbn [shape FlowerCore.spread].
  rewrite <- !presentb_present.
  rewrite <- Qle_bool_iff, <- Qeq_bool_iff.
  destruct (presentb joy (emotions args)), (presentb calm (emotions args)),
    (3 <=? Z.of_nat (length (emotions args)))%Z;
    vm_compute; intuition discriminate.
Qed.

Lemma presentb_ext x es es' :
  (present x es <-> present x es') -> presentb x es = presentb x es'.
Proof.
  rewrite <- !presentb_present.
  destruct (presentb x es), (presentb x es'); intuition congruence.
Qed.

(** Property X11. [analyze] depends on its emotions only through which of the
    five labels occur and whether there are at least three entries: the order,
    the strengths, repetitions, other labels and the memo change nothing. *)
Theorem analyze_depends_on_labels_and_count clock es es' memo memo' tm :
  (forall x, present x es <-> present x es') ->
  ((3 <= length es)%nat <-> (3 <= length es')%nat) ->
  analyze clock {| emotions := es; memo := memo; time := tm |}
  = analyze clock {| emotions := es'; memo := memo'; time := tm |}.
Proof.
  intros P L. unfold analyze. cbv zeta. cbn [emotions time].
  rewrite !length_map.
  rewrite !(includes_presentb joy), !(includes_presentb sadness),
    !(includes_presentb anger), !(includes_presentb anxiety), !(includes_presentb calm).
  rewrite (presentb_ext joy es es' (P joy)), (presentb_ext sadness es es' (P sadness)),
    (presentb_ext anger es es' (P anger)), (presentb_ext anxiety es es' (P anxiety)),
    (presentb_ext calm es es' (P calm)).
  replace (3 <=? Z.of_nat (length es)) with (3 <=? Z.of_nat (length es')); [reflexivity |].
  destruct (Z.leb_spec 3 (Z.of_nat (length es))), (Z.leb_spec 3 (Z.of_nat (length es')));
    try reflexivity; lia.
Qed.

(** Property X12. [annotate] and [analyze] read the same time source alike:
    each of them raises exactly when the source yields an invalid date, so
    they raise on the same inputs; where they return they give the same
    timestamp; the time band and the timestamp are left out exactly when no
    time source is given; and a time band of night goes with the weather
    night. *)
Theorem annotate_and_analyze_agree {T : Type} clock (d : T) es memo tm :
  (annotate clock {| ai_data := d; ai_time := tm |} = ThrowRangeError
   <-> reading clock tm = Some InvalidDate)
  /\ (analyze clock {| emotions := es; memo := memo; time := tm |} = ThrowRangeError
      <-> reading clock tm = Some InvalidDate)
  /\ match annotate clock {| ai_data := d; ai_time := tm |},
           analyze clock {| emotions := es; memo := memo; time := tm |} with
     | Normal a, Normal r =>
         an_annotated_at a = annotated_at r
         /\ (timeBand a = None <-> tm = None)
         /\ (an_annotated_at a = None <-> tm = None)
         /\ (timeBand a = Some TimeBand.night ->
             climate r = Some {| weather := Weather.night |})
     | ThrowRangeError, ThrowRangeError => reading clock tm = Some InvalidDate
     | _, _ => False
     end.
Proof.
  split; [| split; [apply (analyze_throws clock {| emotions := es; memo := memo; time := tm |}) |]].
  - unfold annotate, reading. cbv zeta. cbn [ai_time ai_data].
    destruct tm as [tm |]; cbn [hourOf isoOrUndefined].
    + destruct (now tm clock) as [t |]; cbn [toISOString]; split; congruence.
    + split; discriminate.
  - unfold annotate, analyze, reading. cbv zeta. cbn [ai_time ai_data time emotions].
    destruct tm as [tm |]; cbn [hourOf isoOrUndefined].
    + destruct (now tm clock) as [t |]; cbn [toISOString getHours local_field lt_num ge_num];
        [| reflexivity].
      cbn [an_annotated_at annotated_at timeBand climate].
      split; [reflexivity |]. split; [split; discriminate |]. split; [split; discriminate |].
      destruct (HourFromTime (LocalTime t) <? 5) eqn:E5; [reflexivity |].
      destruct (HourFromTime (LocalTime t) <? 11); [discriminate |].
      destruct (HourFromTime (LocalTime t) <? 17); discriminate.
    + cbn. repeat split; discriminate.
Qed.

End Host.
End FlowerMore.

(** ** The flower at concrete inputs *)

Module FlowerExamples.
Import ES JsDate Types FlowerCore FlowerSpec Inputs FlowerMore.

#[local] Existing Instance jst.

Lemma analyze_outputs_in_range_witness :
  exists r,
    analyze 0 joySadnessCalm = Normal r
    /\ (0 <= FlowerCore.spread (shape (flower r)) <= 1)%Q.
Proof.
  eexists. split; [reflexivity |].
  exact (proj1 (proj2 (proj2 (proj2
           (analyze_outputs_in_range 0 joySadnessCalm _ eq_refl))))).
Defined.

(** Joy, sadness and calm together: the spread is capped at 1. *)
Lemma analyze_spread_thresholds_witness :
  exists r,
    analyze 0 joySadnessCalm = Normal r
    /\ (FlowerCore.spread (shape (flower r)) == 1)%Q.
Proof.
  eexists. split; [reflexivity |].
  apply (proj2 (analyze_spread_thresholds 0 joySadnessCalm _ eq_refl)).
  split; unfold present; cbn; auto.
Defined.

(** Strong joy, a label outside the five and joy again give the flower of
    three plain emotions that have joy among them. *)
Lemma analyze_depends_on_labels_and_count_witness :
  analyze 0
    {| emotions := [ {| type_ := labelText joy; strength := Some strong |};
                     {| type_ := "joy"; strength := None |}; emotion joy ];
       memo := Some "memo"; time := None |}
  = analyze 0
      {| emotions := [ {| type_ := "a"; strength := None |}; emotion joy;
                       {| type_ := "b"; strength := Some weak |};
                       {| type_ := "c"; strength := None |} ];
         memo := None; time := None |}.
Proof.
  apply analyze_depends_on_labels_and_count.
  - intros x. rewrite <- !FlowerFacts.presentb_present. destruct x; vm_compute; tauto.
  - cbn. lia.
Defined.

End FlowerExamples.

(** ** types.ts: tiers, modes and permissions *)

Module SubscriptionFacts.
Import Subscription.

(** Property X13. The permissions grow with the tier: light is allowed on
    every tier, what the free tier allows the plus tier allows, what the plus
    tier allows the premium tier allows, and the premium tier allows every
    mode; standard is refused on the free tier only and deep is allowed on the
    premium tier only. *)
Theorem permissions_grow_with_tier :
  (forall tier, isMyProfileModeAllowed tier light = true)
  /\ (forall mode, isMyProfileModeAllowed free mode = true ->
                   isMyProfileModeAllowed plus mode = true)
  /\ (forall mode, isMyProfileModeAllowed plus mode = true ->
                   isMyProfileModeAllowed premium mode = true)
  /\ (forall mode, isMyProfileModeAllowed premium mode = true)
  /\ (forall tier, isMyProfileModeAllowed tier standard = true <-> tier <> free)
  /\ (forall tier, isMyProfileModeAllowed tier deep = true <-> tier = premium).
Proof.
  split; [intros []; reflexivity |].
  split; [intros []; vm_compute; congruence |].
  split; [intros []; vm_compute; congruence |].
  split; [intros []; reflexivity |].
  split; intros []; vm_compute; split; congruence.
Qed.

Section Host.
Context `{StringEnv}.

Lemma tierText_letters t : lowerLetters (tierText t) = true.
Proof. destruct t; reflexivity. Qed.

Lemma modeText_letters m : lowerLetters (modeText m) = true.
Proof. destruct m; reflexivity. Qed.

Lemma normalizeSubscriptionTier_canonical t fb :
  normalizeSubscriptionTier (Some (tierText t)) fb = t.
Proof.
  unfold normalizeSubscriptionTier. cbv zeta.
  rewrite (trim_letters _ (tierText_letters t)),
    (toLowerCase_letters _ (tierText_letters t)).
  destruct t; reflexivity.
Qed.

Lemma normalizeMyProfileMode_canonical m fb :
  normalizeMyProfileMode (Some (modeText m)) fb = m.
Proof.
  unfold normalizeMyProfileMode. cbv zeta.
  rewrite (trim_letters _ (modeText_letters m)),
    (toLowerCase_letters _ (modeText_letters m)).
  destruct m; reflexivity.
Qed.

(** Property X14. The normalizers land on the canonical names and stay there:
    a canonical name is its own normal form whatever the fallback, so
    normalizing twice is normalizing once; a missing value gives the fallback,
    free and light when none is passed; and the fallback matters only when it
    is the result. *)
Theorem normalizers_are_idempotent :
  (forall raw fb fb',
     normalizeSubscriptionTier (Some (tierText (normalizeSubscriptionTier raw fb))) fb'
     = normalizeSubscriptionTier raw fb)
  /\ (forall raw fb fb',
        normalizeMyProfileMode (Some (modeText (normalizeMyProfileMode raw fb))) fb'
        = normalizeMyProfileMode raw fb)
  /\ (forall fb, normalizeSubscriptionTier None fb = match fb with Some f => f | None => free end)
  /\ (forall fb, normalizeMyProfileMode None fb = match fb with Some f => f | None => light end)
  /\ (forall raw fb fb',
        normalizeSubscriptionTier raw fb = normalizeSubscriptionTier raw fb'
        \/ (normalizeSubscriptionTier raw fb = match fb with Some f => f | None => free end
            /\ normalizeSubscriptionTier raw fb' = match fb' with Some f => f | None => free end))
  /\ (forall raw fb fb',
        normalizeMyProfileMode raw fb = normalizeMyProfileMode raw fb'
        \/ (normalizeMyProfileMode raw fb = match fb with Some f => f | None => light end
            /\ normalizeMyProfileMode raw fb' = match fb' with Some f => f | None => light end)).
Proof.
  split; [intros; apply normalizeSubscriptionTier_canonical |].
  split; [intros; apply normalizeMyProfileMode_canonical |].
  split.
  { intros fb. unfold normalizeSubscriptionTier. cbv zeta.
    rewrite (trim_letters "" eq_refl). destruct fb; reflexivity. }
  split.
  { intros fb. unfold normalizeMyProfileMode. cbv zeta.
    rewrite (trim_letters "" eq_refl). destruct fb; reflexivity. }
  split.
  - intros raw fb fb'. unfold normalizeSubscriptionTier. cbv zeta.
    repeat match goal with
           | |- context [if ?b then _ else _] => destruct b
           end; auto; destruct fb, fb'; auto.
  - intros raw fb fb'. unfold normalizeMyProfileMode. cbv zeta.
    repeat match goal with
           | |- context [if ?b then _ else _] => destruct b
           end; auto; destruct fb, fb'; auto.
Qed.

End Host.

(** On the ASCII host: the names in any case and with blanks around them,
    the Japanese labels, and strings that are neither. *)
Lemma normalizers_examples :
  normalizeSubscriptionTier (H := asciiStrings) (Some "  Premium ") None = premium
  /\ normalizeSubscriptionTier (H := asciiStrings) (Some "プラス") None = plus
  /\ normalizeSubscriptionTier (H := asciiStrings) (Some "無課金") (Some premium) = free
  /\ normalizeSubscriptionTier (H := asciiStrings) (Some "gold") None = free
  /\ normalizeSubscriptionTier (H := asciiStrings) (Some "gold") (Some plus) = plus
  /\ normalizeSubscriptionTier (H := asciiStrings) (Some "   ") (Some plus) = plus
  /\ normalizeMyProfileMode (H := asciiStrings) (Some "DEEP") None = deep
  /\ normalizeMyProfileMode (H := asciiStrings) (Some "スタンダード") None = standard
  /\ normalizeMyProfileMode (H := asciiStrings) (Some "full") None = light.
Proof. vm_compute. repeat split. Qed.

End SubscriptionFacts.

(** ** timeService.ts: creation, disposal and the listener set *)

Module AdapterMore.
Import ES JsDate JsDateFacts Types TimeService AdapterSpec MashOSSpec RunSpec.
Import TimeServiceFacts WorldFacts.

Section Host.
Context `{HostEnv}.

(** *** Creation *)

(** What [createTimeAdapter] does to the world. *)
Lemma createTimeAdapter_effect cfg w :
  let (a, w') := createTimeAdapter cfg w in
  ad_id a = next_adapter w /\ ad_cfg a = cfg
  /\ next_adapter w' = S (next_adapter w) /\ wall w' = wall w /\ calls w' = calls w
  /\ if ad_interval a
     then mode cfg <> Some snapshot /\ mode cfg <> Some off
          /\ timers w'
             = <[next_timer w := {| tm_owner := next_adapter w;
                                    tm_interval := periodOf cfg |}]> (timers w)
          /\ next_timer w' = S (next_timer w)
          /\ closures w'
             = <[next_adapter w := {| listeners := []; timer := Some (next_timer w) |}]>
                 (closures w)
     else (mode cfg = Some snapshot \/ mode cfg = Some off)
          /\ timers w' = timers w /\ next_timer w' = next_timer w
          /\ closures w' = closures w.
Proof.
  unfold createTimeAdapter, periodOf. cbv zeta.
  destruct (mode cfg) as [[| |] |]; cbn [ad_id ad_cfg ad_interval];
    try (repeat split; auto; fail).
  - unfold start_timer, stop, set_closure, setInterval. cbn.
    rewrite !lookup_insert_eq. cbn. rewrite !lookup_insert_eq. cbn.
    rewrite insert_insert_eq. repeat split; discriminate.
  - unfold start_timer, stop, set_closure, setInterval. cbn.
    rewrite !lookup_insert_eq. cbn. rewrite !lookup_insert_eq. cbn.
    rewrite insert_insert_eq. repeat split; discriminate.
Qed.

(** Property X15. In interval mode, or with no mode at all,
    [createTimeAdapter] starts exactly one timer of the host, with the period
    [intervalMs] as given, whatever its value, or 60000 when none is given,
    and with no listener; in snapshot and in off mode it starts no timer and
    builds an adapter without [subscribe] and [__dispose]; it touches nothing
    else. *)
Theorem createTimeAdapter_starts_one_timer cfg w :
  let a := fst (createTimeAdapter cfg w) in
  let w' := snd (createTimeAdapter cfg w) in
  (ad_interval a = true <-> mode cfg <> Some snapshot /\ mode cfg <> Some off)
  /\ (ad_interval a = true ->
      timers w'
      = <[next_timer w := {| tm_owner := ad_id a;
                             tm_interval := match intervalMs cfg with
                                            | Some n => n
                                            | None => 60000
                                            end |}]> (timers w)
      /\ closures w'
         = <[ad_id a := {| listeners := []; timer := Some (next_timer w) |}]> (closures w))
  /\ (ad_interval a = false -> timers w' = timers w /\ closures w' = closures w)
  /\ wall w' = wall w /\ calls w' = calls w.
Proof.
  cbv zeta. pose proof (createTimeAdapter_effect cfg w) as E.
  destruct (createTimeAdapter cfg w) as [a w']. cbn [fst snd].
  destruct E as (Ia & _ & _ & Wl & Cl & K). rewrite Ia.
  destruct (ad_interval a).
  - destruct K as (Sn & Of & T & _ & C).
    split; [split; auto |]. split; [intros _; split; [exact T | exact C] |].
    split; [discriminate | auto].
  - destruct K as (M & T & _ & C).
    split; [split; [discriminate | intros [Sn Of]; destruct M; contradiction] |].
    split; [discriminate |]. split; auto.
Qed.

(** *** Disposal *)

(** Property X16. After [__dispose] the timer the adapter held is cleared and
    a firing of it notifies nobody; disposing again changes nothing; the
    listeners stay registered; and a later [subscribe] still adds its
    callback to the listeners and invokes it once, although a firing of the
    timer still notifies nobody. *)
Theorem dispose_stops_notifications a w s :
  closures w !! ad_id a = Some s ->
  let w' := dispose (ad_id a) w in
  closures w' !! ad_id a = Some {| listeners := listeners s; timer := None |}
  /\ (forall id, timer s = Some id -> timers w' !! id = None)
  /\ tick a w' = w'
  /\ dispose (ad_id a) w' = w'
  /\ calls w' = calls w /\ wall w' = wall w
  /\ (forall cb,
        calls (tick a (subscribe a cb w'))
        = calls w ++ [(cb, now (adapter_time a) (wall w))])
  /\ (forall cb,
        closures (subscribe a cb w') !! ad_id a
        = Some {| listeners := set_add cb (listeners s); timer := None |}
        /\ registered a cb (subscribe a cb w')
        /\ (forall fn, registered a fn w -> registered a fn (subscribe a cb w'))
        /\ calls (subscribe a cb w')
           = calls w ++ [(cb, now (adapter_time a) (wall w))]
        /\ tick a (subscribe a cb w') = subscribe a cb w').
Proof.
  intros C. cbv zeta. unfold dispose.
  pose proof (stop_closure_self (ad_id a) w s C) as C'.
  destruct (stop_frame (ad_id a) w) as (Wl & _ & _ & Cl).
  split; [exact C' |]. split.
  { intros id T. unfold stop. rewrite C, T. cbn. apply lookup_delete_eq. }
  split; [unfold tick; rewrite C'; reflexivity |].
  split; [unfold stop at 1; rewrite C'; reflexivity |].
  split; [exact Cl |]. split; [exact Wl |].
  split.
  - intros cb.
    destruct (subscribe_effect a cb _ _ C') as (L1 & C1 & _ & _). cbv zeta in *.
    unfold tick. rewrite C1. cbn [timer]. rewrite L1, Cl, Wl. reflexivity.
  - intros cb.
    destruct (subscribe_effect a cb _ _ C') as (L1 & C1 & _ & _). cbv zeta in *.
    cbn [listeners timer] in C1.
    split; [exact C1 |]. split.
    { exists {| listeners := set_add cb (listeners s); timer := None |}.
      split; [exact C1 |]. cbn [listeners]. apply set_add_In. right. reflexivity. }
    split.
    { intros fn (s0 & C0 & I0). rewrite C in C0. injection C0 as <-.
      exists {| listeners := set_add cb (listeners s); timer := None |}.
      split; [exact C1 |]. cbn [listeners]. apply set_add_In. left. exact I0. }
    split; [rewrite L1, Cl, Wl; reflexivity |].
    unfold tick. rewrite C1. reflexivity.
Qed.

(** *** The listeners are a set *)

Lemma set_add_NoDup cb l : NoDup l -> NoDup (set_add cb l).
Proof.
  intros N. unfold set_add. destruct (existsb (Nat.eqb cb) l) eqn:E; [exact N |].
  apply NoDup_app. split; [exact N |]. split; [| apply NoDup_singleton].
  intros x Hx Hc. apply list_elem_of_singleton in Hc. subst x.
  assert (existsb (Nat.eqb cb) l = true); [| congruence].
  apply existsb_exists. exists cb. split; [| apply Nat.eqb_refl].
  apply list_elem_of_In. exact Hx.
Qed.

Lemma set_add_member cb l : In cb l -> set_add cb l = l.
Proof.
  intros I. unfold set_add.
  assert (E : existsb (Nat.eqb cb) l = true).
  { apply existsb_exists. exists cb. split; [exact I | apply Nat.eqb_refl]. }
  rewrite E. reflexivity.
Qed.

Lemma set_delete_NoDup cb l : NoDup l -> NoDup (set_delete cb l).
Proof.
  intros N. unfold set_delete. induction N as [| x l Hx N IH]; cbn; [constructor |].
  destruct (negb (cb =? x)%nat); [| exact IH].
  constructor; [| exact IH]. intros Hc. apply Hx.
  apply list_elem_of_In. apply list_elem_of_In in Hc. apply filter_In in Hc. tauto.
Qed.

(** Property X17. Subscribing a callback that is registered already invokes it
    once more and registers nothing: the listeners stay without repetition, a
    tick invokes the callback once, and one call of the unsubscribe closure
    removes it. *)
Theorem subscribing_twice_registers_once a cb w s id :
  closures w !! ad_id a = Some s -> NoDup (listeners s) ->
  timer s = Some id -> is_Some (timers w !! id) ->
  let w2 := subscribe a cb (subscribe a cb w) in
  calls w2 = calls w ++ [(cb, now (adapter_time a) (wall w));
                         (cb, now (adapter_time a) (wall w))]
  /\ closures w2 !! ad_id a
     = Some {| listeners := set_add cb (listeners s); timer := Some id |}
  /\ NoDup (set_add cb (listeners s))
  /\ (exists fired,
        calls (tick a w2) = calls w2 ++ fired
        /\ count_occ Nat.eq_dec (map fst fired) cb = 1%nat)
  /\ (forall s3, closures (unsubscribe a cb w2) !! ad_id a = Some s3 ->
                 ~ In cb (listeners s3)).
Proof.
  intros C N T R. cbv zeta.
  destruct (subscribe_effect a cb w s C) as (L1 & C1 & T1 & W1). cbv zeta in *.
  destruct (subscribe_effect a cb _ _ C1) as (L2 & C2 & T2 & W2). cbv zeta in *.
  cbn [listeners timer] in C2.
  assert (M : In cb (set_add cb (listeners s))) by (apply set_add_In; auto).
  rewrite (set_add_member cb _ M), T in C2.
  pose proof (set_add_NoDup cb _ N) as N'.
  split; [rewrite L2, L1, W1, <- app_assoc; reflexivity |].
  split; [exact C2 |]. split; [exact N' |]. split.
  - eexists. split.
    + apply (tick_effect a _ _ id C2); [reflexivity | rewrite T2, T1; exact R].
    + cbn [listeners]. rewrite map_map. cbn. rewrite map_id.
      apply NoDup_count_occ'; [apply NoDup_ListNoDup; exact N' | exact M].
  - intros s3 C3.
    destruct (unsubscribe_effect a cb _ _ C2) as (_ & C3' & _). cbv zeta in C3'.
    rewrite C3' in C3. injection C3 as <-. cbn [listeners].
    intros I. apply set_delete_In in I. tauto.
Qed.

End Host.
End AdapterMore.

(** ** The time adapter at concrete inputs *)

Module AdapterExamples.
Import JsDate Types TimeService AdapterSpec MashOS Inputs AdapterMore.

#[local] Existing Instance jst.

(** A subscriber of a disposed adapter is registered and hears of its
    subscription, and of nothing later. *)
Lemma dispose_stops_notifications_witness :
  let a := fst (createTimeAdapter tickingConfig (emptyWorld 0)) in
  let w := snd (createTimeAdapter tickingConfig (emptyWorld 0)) in
  closures w !! ad_id a = Some {| listeners := []; timer := Some 1%nat |}
  /\ calls (tick a (subscribe a 7%nat (dispose (ad_id a) w)))
     = calls w ++ [(7%nat, now (adapter_time a) (wall w))]
  /\ registered a 7%nat (subscribe a 7%nat (dispose (ad_id a) w)).
Proof.
  cbv zeta.
  assert (C : closures (snd (createTimeAdapter tickingConfig (emptyWorld 0)))
                !! ad_id (fst (createTimeAdapter tickingConfig (emptyWorld 0)))
              = Some {| listeners := []; timer := Some 1%nat |})
    by (vm_compute; reflexivity).
  split; [exact C |].
  destruct (dispose_stops_notifications
              (fst (createTimeAdapter tickingConfig (emptyWorld 0)))
              (snd (createTimeAdapter tickingConfig (emptyWorld 0)))
              {| listeners := []; timer := Some 1%nat |} C)
    as (_ & _ & _ & _ & _ & _ & K1 & K2).
  split; [exact (K1 7%nat) | exact (proj1 (proj2 (K2 7%nat)))].
Defined.

Lemma subscribing_twice_witness :
  let a := fst (createTimeAdapter tickingConfig (emptyWorld 0)) in
  let w := snd (createTimeAdapter tickingConfig (emptyWorld 0)) in
  closures w !! ad_id a = Some {| listeners := []; timer := Some 1%nat |}
  /\ NoDup (listeners {| listeners := []; timer := Some 1%nat |})
  /\ is_Some (timers w !! 1%nat)
  /\ calls (subscribe a 7%nat (subscribe a 7%nat w)) = [(7%nat, Valid 0); (7%nat, Valid 0)]
  /\ calls (tick a (subscribe a 7%nat (subscribe a 7%nat w)))
     = [(7%nat, Valid 0); (7%nat, Valid 0); (7%nat, Valid 0)].
Proof.
  cbv zeta. split; [vm_compute; reflexivity |]. split; [constructor |].
  split; [vm_compute; eauto |].
  destruct (subscribing_twice_registers_once
              (fst (createTimeAdapter tickingConfig (emptyWorld 0))) 7%nat
              (snd (createTimeAdapter tickingConfig (emptyWorld 0)))
              {| listeners := []; timer := Some 1%nat |} 1%nat
              ltac:(vm_compute; reflexivity) ltac:(constructor) eq_refl
              ltac:(vm_compute; eauto)) as (L & _).
  split; [exact L |]. vm_compute. reflexivity.
Defined.

End AdapterExamples.

(** ** The facade in every run: timers, listeners and the time source *)

Module RunFacts.
Import JsDate Types TimeService AdapterSpec MashOS MashOSSpec RunSpec Runs.
Import TimeServiceFacts MergeFacts WorldFacts RebuildFacts FacadeFacts AdapterMore.

Section Host.
Context `{HostEnv}.

(** *** Steps that leave the timers alone *)

Lemma subscribe_sameTimers a cb w : sameTimers w (subscribe a cb w).
Proof.
  unfold sameTimers, subscribe. destruct (closures w !! ad_id a) as [s |] eqn:C; [| auto].
  cbn. repeat split. intros n. destruct (decide (ad_id a = n)) as [<- | Hne].
  - rewrite lookup_insert_eq, C. reflexivity.
  - rewrite lookup_insert_ne by exact Hne. reflexivity.
Qed.

Lemma unsubscribe_sameTimers a cb w : sameTimers w (unsubscribe a cb w).
Proof.
  unfold sameTimers, unsubscribe. destruct (closures w !! ad_id a) as [s |] eqn:C; [| auto].
  cbn. repeat split. intros n. destruct (decide (ad_id a = n)) as [<- | Hne].
  - rewrite lookup_insert_eq, C. reflexivity.
  - rewrite lookup_insert_ne by exact Hne. reflexivity.
Qed.

Lemma tick_sameTimers a w : sameTimers w (tick a w).
Proof.
  unfold sameTimers, tick. destruct (closures w !! ad_id a) as [s |]; [| auto].
  destruct (timer s) as [id |]; [| auto]. destruct (timers w !! id); auto.
Qed.

Lemma advance_sameTimers clock w : sameTimers w (advance clock w).
Proof. unfold sameTimers. auto. Qed.

Lemma sameTimers_closure w w' n s :
  sameTimers w w' -> closures w' !! n = Some s ->
  exists s0, closures w !! n = Some s0 /\ timer s0 = timer s.
Proof.
  intros (_ & _ & _ & K) C. specialize (K n). rewrite C in K.
  destruct (closures w !! n) as [s0 |]; [| discriminate].
  exists s0. cbn in K. split; congruence.
Qed.

Lemma sameTimers_sym w w' : sameTimers w w' -> sameTimers w' w.
Proof. intros (A & B & C & D). unfold sameTimers. auto. Qed.

Lemma RunInv_sameTimers st w w' : sameTimers w w' -> RunInv st w -> RunInv st w'.
Proof.
  intros Sm [CT AF AD DH TD]. pose proof Sm as (Tm & Nt & Na & _). split.
  - intros n s id C T. destruct (sameTimers_closure w w' n s Sm C) as (s0 & C0 & T0).
    rewrite Nt, Tm. apply (CT n s0 id C0). congruence.
  - intros f a E. rewrite Na. exact (AF f a E).
  - exact AD.
  - exact DH.
  - rewrite Tm. exact TD.
Qed.

Lemma running_sameTimers a w w' : sameTimers w w' -> running a w -> running a w'.
Proof.
  intros Sm (s & id & tmr & C & T & R). pose proof Sm as (Tm & _).
  destruct (sameTimers_closure w' w (ad_id a) s (sameTimers_sym _ _ Sm) C) as (s' & C' & T').
  exists s', id, tmr. rewrite Tm. split; [exact C' |]. split; [congruence | exact R].
Qed.

(** *** The first loop *)

Lemma stop_closureTimers n w : closureTimers w -> closureTimers (stop n w).
Proof.
  intros CT m s id C T. destruct (stop_frame n w) as (_ & _ & Nt & _). rewrite Nt.
  destruct (decide (m = n)) as [-> | Hne].
  - destruct (closures w !! n) as [s0 |] eqn:C0.
    + rewrite (stop_closure_self n w s0 C0) in C. injection C as <-. discriminate T.
    + unfold stop in C |- *. rewrite C0 in C |- *. congruence.
  - rewrite stop_closure_other in C by exact Hne.
    destruct (CT m s id C T) as [Lt Ow]. split; [exact Lt |].
    intros tmr L. apply Ow. exact (stop_timers n w id tmr L).
Qed.

Lemma dispose_loop_timers st w id tmr :
  timers (snd (fold_left disposeStep FEATURES (st, w))) !! id = Some tmr ->
  timers w !! id = Some tmr.
Proof.
  revert id tmr.
  apply (fold_features disposeStep
           (fun sw => forall id tmr, timers (snd sw) !! id = Some tmr ->
                                     timers w !! id = Some tmr)
           (fun _ _ => True)); [| auto | auto | cbn; auto].
  intros [st0 w0] f T0. cbn [snd] in *. unfold disposeStep.
  destruct (disposers st0 f) as [a |]; [| auto]. cbn [snd]. unfold dispose.
  intros id tmr L. apply T0. exact (stop_timers a w0 id tmr L).
Qed.

Lemma dispose_loop_closureTimers st w :
  closureTimers w -> closureTimers (snd (fold_left disposeStep FEATURES (st, w))).
Proof.
  intros CT.
  apply (fold_features disposeStep (fun sw => closureTimers (snd sw))
           (fun _ _ => True)); [| auto | auto | exact CT].
  intros [st0 w0] f C0. cbn [snd] in *. unfold disposeStep.
  destruct (disposers st0 f) as [a |]; [| exact C0]. cbn [snd]. unfold dispose.
  apply stop_closureTimers. exact C0.
Qed.

(** After the first loop no timer is left, if every timer belonged to the
    adapter of a disposer. *)
Lemma dispose_loop_no_timers st w :
  WorldInv w ->
  (forall id tmr, timers w !! id = Some tmr ->
                  exists f, disposers st f = Some (tm_owner tmr)) ->
  forall id, timers (snd (fold_left disposeStep FEATURES (st, w))) !! id = None.
Proof.
  intros WI TD id.
  destruct (dispose_loop st w WI) as (W1 & _ & _ & _ & _ & _ & S1).
  destruct (timers (snd (fold_left disposeStep FEATURES (st, w))) !! id) as [tmr |] eqn:L;
    [| reflexivity].
  exfalso. destruct (TD id tmr (dispose_loop_timers st w id tmr L)) as (f & Df).
  exact (stopped_noTimerOf _ _ W1 (S1 f _ Df) id tmr L eq_refl).
Qed.

(** *** The second loop *)

Lemma rebuildStep_WorldInv sw f : WorldInv (snd sw) -> WorldInv (snd (rebuildStep sw f)).
Proof.
  destruct sw as [st w]. cbn [snd]. intros WI. unfold rebuildStep. cbv zeta.
  pose proof (createTimeAdapter_WorldInv (resolveTimeConfig (config st) f) w WI) as WI'.
  destruct (createTimeAdapter (resolveTimeConfig (config st) f) w) as [a w'].
  destruct (mode (resolveTimeConfig (config st) f)) as [[| |] |]; assumption.
Qed.

Lemma rebuildStep_disposers_other sw f g :
  f <> g -> disposers (fst (rebuildStep sw g)) f = disposers (fst sw) f.
Proof.
  destruct sw as [st w]. cbn [fst]. intros Hne. unfold rebuildStep. cbv zeta.
  destruct (createTimeAdapter (resolveTimeConfig (config st) g) w) as [a w'].
  destruct (mode (resolveTimeConfig (config st) g)) as [[| |] |]; cbn [fst disposers];
    try reflexivity; (destruct (ad_interval a); [apply upd_other; congruence | reflexivity]).
Qed.

Lemma rebuildStep_config sw f : config (fst (rebuildStep sw f)) = config (fst sw).
Proof.
  destruct sw as [st w]. cbn [fst]. unfold rebuildStep. cbv zeta.
  destruct (createTimeAdapter (resolveTimeConfig (config st) f) w) as [a w'].
  destruct (mode (resolveTimeConfig (config st) f)) as [[| |] |]; reflexivity.
Qed.

Lemma rebuildStep_RunInv sw f :
  WorldInv (snd sw) -> RunInv (fst sw) (snd sw) -> disposers (fst sw) f = None ->
  RunInv (fst (rebuildStep sw f)) (snd (rebuildStep sw f)).
Proof.
  destruct sw as [st w]. cbn [fst snd]. intros [CA TO] [CT AF AD DH TD] Dn.
  unfold rebuildStep. cbv zeta.
  assert (Off : RunInv {| config := config st; timeMap := upd f None (timeMap st);
                          disposers := disposers st |} w).
  { split; cbn [config timeMap disposers].
    - exact CT.
    - intros g a. destruct (decide (f = g)) as [<- | Hne];
        [rewrite upd_same; discriminate | rewrite upd_other by exact Hne; apply AF].
    - intros g g' a b.
      destruct (decide (f = g)) as [<- | Hg]; [rewrite upd_same; discriminate |].
      destruct (decide (f = g')) as [<- | Hg']; [rewrite upd_same; discriminate |].
      rewrite !upd_other by assumption. apply AD.
    - intros g n Dg. assert (Hne : f <> g) by congruence.
      rewrite upd_other by exact Hne. exact (DH g n Dg).
    - exact TD. }
  pose proof (createTimeAdapter_effect (resolveTimeConfig (config st) f) w) as E.
  destruct (createTimeAdapter (resolveTimeConfig (config st) f) w) as [a w'].
  destruct E as (Ia & Ic & Nx & _ & _ & K).
  assert (Fresh : forall g b, upd f (Some a) (timeMap st) g = Some b ->
                              (ad_id b < next_adapter w')%nat).
  { intros g b. destruct (decide (f = g)) as [<- | Hne].
    - rewrite upd_same. intros E. injection E as <-. lia.
    - rewrite upd_other by exact Hne. intros E. specialize (AF g b E). lia. }
  assert (Distinct : forall g g' b b',
             upd f (Some a) (timeMap st) g = Some b ->
             upd f (Some a) (timeMap st) g' = Some b' -> ad_id b = ad_id b' -> g = g').
  { intros g g' b b'.
    destruct (decide (f = g)) as [<- | Hg], (decide (f = g')) as [<- | Hg'];
      rewrite ?upd_same, ?upd_other by assumption; [reflexivity | | |].
    - intros E E' Eq. injection E as <-. specialize (AF g' b' E'). lia.
    - intros E E' Eq. injection E' as <-. specialize (AF g b E). lia.
    - apply AD. }
  assert (On : RunInv {| config := config st; timeMap := upd f (Some a) (timeMap st);
                         disposers := if ad_interval a
                                      then upd f (Some (ad_id a)) (disposers st)
                                      else disposers st |} w').
  { destruct (ad_interval a) eqn:Iv.
    - destruct K as (_ & _ & Tm & Nt & Cl).
      split; cbn [config timeMap disposers]; [| exact Fresh | exact Distinct | |].
      + intros n s id C T. rewrite Cl in C. rewrite Nt, Tm.
        destruct (decide (n = next_adapter w)) as [-> | Hne].
        * rewrite lookup_insert_eq in C. injection C as <-. cbn in T. injection T as <-.
          split; [lia |]. intros tmr L. rewrite lookup_insert_eq in L. injection L as <-.
          reflexivity.
        * rewrite lookup_insert_ne in C by congruence.
          destruct (CT n s id C T) as [Lt Ow]. split; [lia |].
          intros tmr L. rewrite lookup_insert_ne in L by lia. apply Ow. exact L.
      + intros g n. destruct (decide (f = g)) as [<- | Hne].
        * rewrite !upd_same. intros E. injection E as <-. exists a. auto.
        * rewrite !upd_other by exact Hne. apply DH.
      + intros id tmr L. rewrite Tm in L.
        destruct (decide (id = next_timer w)) as [-> | Hne].
        * rewrite lookup_insert_eq in L. injection L as <-. cbn [tm_owner tm_interval].
          exists f. rewrite upd_same, Ia. auto.
        * rewrite lookup_insert_ne in L by congruence.
          destruct (TD id tmr L) as (g & Dg & P). exists g.
          assert (Hg : f <> g) by congruence. rewrite upd_other by exact Hg. auto.
    - destruct K as (_ & Tm & Nt & Cl).
      split; cbn [config timeMap disposers]; [| exact Fresh | exact Distinct | |].
      + unfold closureTimers. rewrite Cl, Nt, Tm. exact CT.
      + intros g n Dg. assert (Hne : f <> g) by congruence.
        rewrite upd_other by exact Hne. exact (DH g n Dg).
      + rewrite Tm. exact TD. }
  destruct (mode (resolveTimeConfig (config st) f)) as [[| |] |]; assumption.
Qed.

Lemma rebuild_loop_RunInv st w :
  WorldInv w -> RunInv st w -> (forall f, disposers st f = None) ->
  RunInv (fst (fold_left rebuildStep FEATURES (st, w)))
         (snd (fold_left rebuildStep FEATURES (st, w))).
Proof.
  intros W0 R0 D0. unfold FEATURES. cbn [fold_left].
  set (s1 := rebuildStep (st, w) input).
  assert (W1 : WorldInv (snd s1)) by (apply rebuildStep_WorldInv; exact W0).
  assert (R1 : RunInv (fst s1) (snd s1))
    by (apply rebuildStep_RunInv; [exact W0 | exact R0 | apply D0]).
  assert (Dm : disposers (fst s1) myweb = None)
    by (subst s1; rewrite rebuildStep_disposers_other by discriminate; apply D0).
  assert (Df : disposers (fst s1) flower = None)
    by (subst s1; rewrite rebuildStep_disposers_other by discriminate; apply D0).
  set (s2 := rebuildStep s1 myweb).
  assert (W2 : WorldInv (snd s2)) by (apply rebuildStep_WorldInv; exact W1).
  assert (R2 : RunInv (fst s2) (snd s2))
    by (apply rebuildStep_RunInv; assumption).
  assert (Df2 : disposers (fst s2) flower = None)
    by (subst s2; rewrite rebuildStep_disposers_other by discriminate; exact Df).
  apply rebuildStep_RunInv; assumption.
Qed.

(** A rebuild establishes the bookkeeping from what is left of it when
    only the configuration has been replaced. *)
Lemma rebuildTimeAdapters_RunInv st w :
  WorldInv w -> closureTimers w ->
  (forall f a, timeMap st f = Some a -> (ad_id a < next_adapter w)%nat) ->
  (forall f g a b, timeMap st f = Some a -> timeMap st g = Some b ->
                   ad_id a = ad_id b -> f = g) ->
  (forall id tmr, timers w !! id = Some tmr ->
                  exists f, disposers st f = Some (tm_owner tmr)) ->
  RunInv (fst (rebuildTimeAdapters (st, w))) (snd (rebuildTimeAdapters (st, w))).
Proof.
  intros WI CT AF AD TD. unfold rebuildTimeAdapters.
  destruct (dispose_loop st w WI) as (W1 & C1 & T1 & N1 & _ & D1 & _).
  pose proof (dispose_loop_closureTimers st w CT) as CT1.
  pose proof (dispose_loop_no_timers st w WI TD) as NT.
  destruct (fold_left disposeStep FEATURES (st, w)) as [st1 w1]. cbn [fst snd] in *.
  apply rebuild_loop_RunInv; [exact W1 | | exact D1].
  split.
  - exact CT1.
  - rewrite T1, N1. exact AF.
  - rewrite T1. exact AD.
  - intros f n E. rewrite D1 in E. discriminate.
  - intros id tmr L. rewrite NT in L. discriminate.
Qed.

(** *** The bookkeeping holds in every run *)

Lemma reachable_RunInv st w : Reachable st w -> RunInv st w.
Proof.
  intros R. pose proof (reachable_inv st w R) as Inv. revert Inv.
  induction R as [clock | st w next R IH | st w clock R IH | st w a R IH
                 | st w a cb R IH | st w a cb R IH]; intros Inv.
  - unfold boot. apply rebuildTimeAdapters_RunInv.
    + apply emptyWorld_WorldInv.
    + intros n s id C. cbn in C. rewrite lookup_empty in C. discriminate.
    + discriminate.
    + discriminate.
    + intros id tmr L. cbn in L. rewrite lookup_empty in L. discriminate.
  - destruct (reachable_inv st w R) as [WI SI]. specialize (IH (conj WI SI)).
    destruct IH as [CT AF AD DH TD].
    rewrite configure_unfold. apply rebuildTimeAdapters_RunInv; cbn [timeMap disposers].
    + exact WI.
    + exact CT.
    + exact AF.
    + exact AD.
    + intros id tmr L. destruct (TD id tmr L) as (f & Df & _). eauto.
  - apply (RunInv_sameTimers st w); [apply advance_sameTimers |].
    apply IH. exact (reachable_inv st w R).
  - apply (RunInv_sameTimers st w); [apply tick_sameTimers |].
    apply IH. exact (reachable_inv st w R).
  - apply (RunInv_sameTimers st w); [apply subscribe_sameTimers |].
    apply IH. exact (reachable_inv st w R).
  - apply (RunInv_sameTimers st w); [apply unsubscribe_sameTimers |].
    apply IH. exact (reachable_inv st w R).
Qed.


(** What a rebuild establishes for every feature, in terms of the
    configuration. *)
Lemma rebuildTimeAdapters_features st w :
  WorldInv w -> (forall f n, disposers st f = Some n -> (n < next_adapter w)%nat) ->
  let st' := fst (rebuildTimeAdapters (st, w)) in
  let w' := snd (rebuildTimeAdapters (st, w)) in
  config st' = config st
  /\ forall f,
       match mode (resolveTimeConfig (config st) f) with
       | Some off => timeMap st' f = None
       | _ =>
           exists a,
             timeMap st' f = Some a /\ ad_cfg a = resolveTimeConfig (config st) f
             /\ (ad_interval a = true -> running a w')
       end.
Proof.
  intros WI DA. cbv zeta.
  destruct (rebuildTimeAdapters_result st w WI DA) as (Cf & _ & _ & _ & _ & Q).
  split; [exact Cf |]. intros f. specialize (Q f).
  destruct (mode (resolveTimeConfig (config st) f)) as [[| |] |]; try exact Q;
    destruct Q as (a & Ta & Ca & _ & Ra); exists a;
    (split; [exact Ta |]); (split; [exact Ca |]); intros E; exact (proj2 (Ra E)).
Qed.

(** In every run a feature whose resolved mode is not off holds an adapter
    built from its resolved configuration, and the interval adapters the
    features hold are running. *)
Lemma reachable_adapters st w :
  Reachable st w ->
  forall f,
    match mode (resolveTimeConfig (config st) f) with
    | Some off => timeMap st f = None
    | _ =>
        exists a,
          timeMap st f = Some a /\ ad_cfg a = resolveTimeConfig (config st) f
          /\ (ad_interval a = true -> running a w)
    end.
Proof.
  assert (Keep : forall st w w',
             sameTimers w w' ->
             (forall f,
                match mode (resolveTimeConfig (config st) f) with
                | Some off => timeMap st f = None
                | _ =>
                    exists a,
                      timeMap st f = Some a /\ ad_cfg a = resolveTimeConfig (config st) f
                      /\ (ad_interval a = true -> running a w)
                end) ->
             forall f,
               match mode (resolveTimeConfig (config st) f) with
               | Some off => timeMap st f = None
               | _ =>
                   exists a,
                     timeMap st f = Some a /\ ad_cfg a = resolveTimeConfig (config st) f
                     /\ (ad_interval a = true -> running a w')
               end).
  { intros st0 w0 w' Sm K f. specialize (K f).
    destruct (mode (resolveTimeConfig (config st0) f)) as [[| |] |]; try exact K;
      destruct K as (a & Ta & Ca & Ra); exists a;
      (split; [exact Ta |]); (split; [exact Ca |]);
      intros E; apply (running_sameTimers a w0 w' Sm); auto. }
  induction 1 as [clock | st w next R IH | st w clock R IH | st w a R IH
                 | st w a cb R IH | st w a cb R IH].
  - unfold boot.
    destruct (rebuildTimeAdapters_features
                {| config := initialConfig; timeMap := fun _ => None;
                   disposers := fun _ => None |} (emptyWorld clock)
                (emptyWorld_WorldInv clock)) as (Cf & Q); [discriminate |].
    rewrite Cf. exact Q.
  - destruct (reachable_inv st w R) as [WI SI]. rewrite configure_unfold.
    destruct (rebuildTimeAdapters_features
                {| config := mergeConfig (config st) next; timeMap := timeMap st;
                   disposers := disposers st |} w WI) as (Cf & Q);
      [exact (disposers_allocated st w SI) |].
    rewrite Cf. exact Q.
  - exact (Keep st w _ (advance_sameTimers clock w) IH).
  - exact (Keep st w _ (tick_sameTimers a w) IH).
  - exact (Keep st w _ (subscribe_sameTimers a cb w) IH).
  - exact (Keep st w _ (unsubscribe_sameTimers a cb w) IH).
Qed.

Lemma reachable_running st w f a :
  Reachable st w -> timeMap st f = Some a -> ad_interval a = true -> running a w.
Proof.
  intros R Ta Iv. pose proof (reachable_adapters st w R f) as K.
  destruct (mode (resolveTimeConfig (config st) f)) as [[| |] |];
    try (rewrite Ta in K; discriminate);
    destruct K as (b & Tb & _ & Rb); assert (a = b) as -> by congruence; auto.
Qed.

(** Property X18. In every run the timers of the host and the interval
    adapters the features hold correspond one to one: every running timer is
    the timer of the interval adapter some feature holds and has the period of
    that feature's resolved configuration, 60000 ms when it gives none; every
    interval adapter a feature holds has such a timer running; and no feature
    has two. *)
Theorem timers_match_interval_adapters st w :
  Reachable st w ->
  (forall id tmr, timers w !! id = Some tmr -> exists f, timerOfFeature st w f id tmr)
  /\ (forall f a, timeMap st f = Some a -> ad_interval a = true ->
        exists id tmr, timers w !! id = Some tmr /\ timerOfFeature st w f id tmr)
  /\ (forall f id1 id2 tmr1 tmr2,
        timerOfFeature st w f id1 tmr1 -> timerOfFeature st w f id2 tmr2 -> id1 = id2)
  /\ (forall f g id tmr,
        timerOfFeature st w f id tmr -> timerOfFeature st w g id tmr -> f = g).
Proof.
  intros R. destruct (reachable_inv st w R) as [[CA TO] SI].
  destruct (reachable_RunInv st w R) as [CT AF AD DH TD].
  assert (P1 : forall id tmr, timers w !! id = Some tmr ->
                              exists f, timerOfFeature st w f id tmr).
  { intros id tmr L. destruct (TD id tmr L) as (f & Df & P).
    destruct (DH f _ Df) as (a & Ta & Ia & Iv).
    destruct (TO id tmr L) as (_ & s & C & T).
    exists f, a, s. rewrite Ia. auto 10. }
  split; [exact P1 |]. split; [| split].
  - intros f a Ta Iv.
    destruct (reachable_running st w f a R Ta Iv) as (s & id & tmr & C & T & L).
    exists id, tmr. split; [exact L |].
    destruct (CT _ s id C T) as [_ Ow]. specialize (Ow tmr L).
    destruct (TD id tmr L) as (g & Dg & P).
    destruct (DH g _ Dg) as (b & Tb & Ib & _).
    assert (g = f) as -> by (apply (AD g f b a); congruence).
    exists a, s. auto 10.
  - intros f id1 id2 tmr1 tmr2 (a1 & s1 & Ta1 & _ & _ & _ & C1 & T1)
      (a2 & s2 & Ta2 & _ & _ & _ & C2 & T2).
    assert (a1 = a2) as -> by congruence. congruence.
  - intros f g id tmr (a1 & s1 & Ta1 & _ & O1 & _) (a2 & s2 & Ta2 & _ & O2 & _).
    apply (AD f g a1 a2); congruence.
Qed.

(** *** The listeners *)

Lemma stop_listenersDistinct n w : listenersDistinct w -> listenersDistinct (stop n w).
Proof.
  intros D m s C. destruct (decide (m = n)) as [-> | Hne].
  - destruct (closures w !! n) as [s0 |] eqn:C0.
    + rewrite (stop_closure_self n w s0 C0) in C. injection C as <-. exact (D n s0 C0).
    + unfold stop in C. rewrite C0 in C. congruence.
  - rewrite stop_closure_other in C by exact Hne. exact (D m s C).
Qed.

Lemma createTimeAdapter_listenersDistinct cfg w :
  listenersDistinct w -> listenersDistinct (snd (createTimeAdapter cfg w)).
Proof.
  intros D. pose proof (createTimeAdapter_effect cfg w) as E.
  destruct (createTimeAdapter cfg w) as [a w']. cbn [snd].
  destruct E as (_ & _ & _ & _ & _ & K). destruct (ad_interval a).
  - destruct K as (_ & _ & _ & _ & C). intros m s L. rewrite C in L.
    destruct (decide (m = next_adapter w)) as [-> | Hne].
    + rewrite lookup_insert_eq in L. injection L as <-. constructor.
    + rewrite lookup_insert_ne in L by congruence. exact (D m s L).
  - destruct K as (_ & _ & _ & C). intros m s L. rewrite C in L. exact (D m s L).
Qed.

Lemma rebuildTimeAdapters_listenersDistinct sw :
  listenersDistinct (snd sw) -> listenersDistinct (snd (rebuildTimeAdapters sw)).
Proof.
  intros D. unfold rebuildTimeAdapters.
  apply (fold_features rebuildStep (fun sw => listenersDistinct (snd sw))
           (fun _ _ => True)); [| auto | auto |].
  - intros [st w] f D0. cbn [snd] in *. unfold rebuildStep. cbv zeta.
    pose proof (createTimeAdapter_listenersDistinct
                  (resolveTimeConfig (config st) f) w D0) as D'.
    destruct (createTimeAdapter (resolveTimeConfig (config st) f) w) as [a w'].
    destruct (mode (resolveTimeConfig (config st) f)) as [[| |] |]; assumption.
  - apply (fold_features disposeStep (fun sw => listenersDistinct (snd sw))
             (fun _ _ => True)); [| auto | auto | exact D].
    intros [st w] f D0. cbn [snd] in *. unfold disposeStep.
    destruct (disposers st f) as [a |]; [| exact D0].
    cbn [snd]. apply stop_listenersDistinct. exact D0.
Qed.

Lemma reachable_listenersDistinct st w : Reachable st w -> listenersDistinct w.
Proof.
  induction 1 as [clock | st w next R IH | st w clock R IH | st w a R IH
                 | st w a cb R IH | st w a cb R IH].
  - unfold boot.
    apply (rebuildTimeAdapters_listenersDistinct
             ({| config := initialConfig; timeMap := fun _ => None;
                 disposers := fun _ => None |}, emptyWorld clock)).
    intros n s C. cbn in C. rewrite lookup_empty in C. discriminate.
  - rewrite configure_unfold.
    apply (rebuildTimeAdapters_listenersDistinct
             ({| config := mergeConfig (config st) next; timeMap := timeMap st;
                 disposers := disposers st |}, w)).
    exact IH.
  - exact IH.
  - intros n s C. apply (IH n s). revert C. unfold tick.
    destruct (closures w !! ad_id a) as [s0 |]; [| auto].
    destruct (timer s0) as [id |]; [| auto]. destruct (timers w !! id); auto.
  - intros n s C. unfold subscribe in C.
    destruct (closures w !! ad_id a) as [s0 |] eqn:C0; [| exact (IH n s C)].
    cbn in C. destruct (decide (ad_id a = n)) as [<- | Hne].
    + rewrite lookup_insert_eq in C. injection C as <-. cbn.
      apply set_add_NoDup. exact (IH _ _ C0).
    + rewrite lookup_insert_ne in C by exact Hne. exact (IH n s C).
  - intros n s C. unfold unsubscribe in C.
    destruct (closures w !! ad_id a) as [s0 |] eqn:C0; [| exact (IH n s C)].
    cbn in C. destruct (decide (ad_id a = n)) as [<- | Hne].
    + rewrite lookup_insert_eq in C. injection C as <-. cbn.
      apply set_delete_NoDup. exact (IH _ _ C0).
    + rewrite lookup_insert_ne in C by exact Hne. exact (IH n s C).
Qed.

(** *** The listeners in the runs of the time service *)

Lemma subscribe_listenersDistinct a cb w :
  listenersDistinct w -> listenersDistinct (subscribe a cb w).
Proof.
  intros D n s C. unfold subscribe in C.
  destruct (closures w !! ad_id a) as [s0 |] eqn:C0; [| exact (D n s C)].
  cbn in C. destruct (decide (ad_id a = n)) as [<- | Hne].
  - rewrite lookup_insert_eq in C. injection C as <-. cbn.
    apply set_add_NoDup. exact (D _ _ C0).
  - rewrite lookup_insert_ne in C by exact Hne. exact (D n s C).
Qed.

Lemma unsubscribe_listenersDistinct a cb w :
  listenersDistinct w -> listenersDistinct (unsubscribe a cb w).
Proof.
  intros D n s C. unfold unsubscribe in C.
  destruct (closures w !! ad_id a) as [s0 |] eqn:C0; [| exact (D n s C)].
  cbn in C. destruct (decide (ad_id a = n)) as [<- | Hne].
  - rewrite lookup_insert_eq in C. injection C as <-. cbn.
    apply set_delete_NoDup. exact (D _ _ C0).
  - rewrite lookup_insert_ne in C by exact Hne. exact (D n s C).
Qed.

Lemma tick_closures a w : closures (tick a w) = closures w.
Proof.
  unfold tick. destruct (closures w !! ad_id a) as [s0 |]; [| reflexivity].
  destruct (timer s0) as [id |]; [| reflexivity]. destruct (timers w !! id); reflexivity.
Qed.

Lemma adapterRun_listenersDistinct held w : AdapterRun held w -> listenersDistinct w.
Proof.
  induction 1 as [clock | held w cfg R IH | held w a cb R IH I | held w a cb R IH I
                 | held w a R IH I | held w a R IH I | held w clock R IH].
  - intros n s C. cbn in C. rewrite lookup_empty in C. discriminate.
  - apply createTimeAdapter_listenersDistinct. exact IH.
  - apply subscribe_listenersDistinct. exact IH.
  - apply unsubscribe_listenersDistinct. exact IH.
  - apply stop_listenersDistinct. exact IH.
  - intros n s C. rewrite tick_closures in C. exact (IH n s C).
  - exact IH.
Qed.

(** A firing of the timer of [a] where no listener is listed twice. *)
Lemma tick_fires_listeners a w :
  listenersDistinct w ->
  exists fired,
    calls (tick a w) = calls w ++ fired
    /\ NoDup (map fst fired)
    /\ (forall p, In p fired -> snd p = now (adapter_time a) (wall w))
    /\ (forall cb, In cb (map fst fired) -> registered a cb w)
    /\ (running a w -> forall cb, registered a cb w -> In cb (map fst fired)).
Proof.
  intros D.
  assert (Nil : exists fired : list (Callback * Date),
            calls w = calls w ++ fired /\ NoDup (map fst fired)
            /\ (forall p, In p fired -> snd p = now (adapter_time a) (wall w))
            /\ (forall cb, In cb (map fst fired) -> registered a cb w)).
  { exists []. rewrite app_nil_r. split; [reflexivity |]. split; [constructor |].
    split; intros ? []. }
  unfold tick. destruct (closures w !! ad_id a) as [s |] eqn:C.
  - destruct (timer s) as [id |] eqn:T.
    + destruct (timers w !! id) as [tmr |] eqn:L.
      * eexists. split; [reflexivity |]. rewrite map_map. cbn. rewrite map_id.
        split; [exact (D _ _ C) |]. split; [| split].
        -- intros p Hp. apply in_map_iff in Hp as (fn & <- & _). reflexivity.
        -- intros cb Hc. exists s. auto.
        -- intros _ cb (s' & C' & Hc). congruence.
      * destruct Nil as (fired & E & N & P & Q). exists fired.
        split; [exact E |]. split; [exact N |]. split; [exact P |]. split; [exact Q |].
        intros (s' & id' & tmr' & C' & T' & L'). congruence.
    + destruct Nil as (fired & E & N & P & Q). exists fired.
      split; [exact E |]. split; [exact N |]. split; [exact P |]. split; [exact Q |].
      intros (s' & id' & tmr' & C' & T' & L'). congruence.
  - destruct Nil as (fired & E & N & P & Q). exists fired.
    split; [exact E |]. split; [exact N |]. split; [exact P |]. split; [exact Q |].
    intros (s' & id' & tmr' & C' & T' & L'). congruence.
Qed.

(** Property X19. In every run of a program that creates time adapters and
    subscribes to them, a firing of the timer of an adapter invokes each
    callback registered with the adapter once, all with the same instant, the
    adapter's [now ()], and invokes nothing else; while the timer runs,
    every registered callback is invoked. *)
Theorem tick_notifies_each_listener_once held w a :
  AdapterRun held w -> In a held ->
  exists fired,
    calls (tick a w) = calls w ++ fired
    /\ NoDup (map fst fired)
    /\ (forall p, In p fired -> snd p = now (adapter_time a) (wall w))
    /\ (forall cb, In cb (map fst fired) -> registered a cb w)
    /\ (running a w -> forall cb, registered a cb w -> In cb (map fst fired)).
Proof.
  intros R _. apply tick_fires_listeners. exact (adapterRun_listenersDistinct held w R).
Qed.

(** *** Rebuilding invokes no callback *)

Lemma rebuildTimeAdapters_calls sw : calls (snd (rebuildTimeAdapters sw)) = calls (snd sw).
Proof.
  unfold rebuildTimeAdapters.
  apply (fold_features rebuildStep (fun s => calls (snd s) = calls (snd sw))
           (fun _ _ => True)); [| auto | auto |].
  - intros [st w] f E. cbn [snd] in *. unfold rebuildStep. cbv zeta.
    pose proof (createTimeAdapter_effect (resolveTimeConfig (config st) f) w) as K.
    destruct (createTimeAdapter (resolveTimeConfig (config st) f) w) as [a w'].
    destruct K as (_ & _ & _ & _ & Cl & _).
    destruct (mode (resolveTimeConfig (config st) f)) as [[| |] |]; cbn [snd]; congruence.
  - apply (fold_features disposeStep (fun s => calls (snd s) = calls (snd sw))
             (fun _ _ => True)); [| auto | auto | reflexivity].
    intros [st w] f E. cbn [snd] in *. unfold disposeStep.
    destruct (disposers st f) as [a |]; [| exact E]. cbn [snd]. unfold dispose.
    destruct (stop_frame a w) as (_ & _ & _ & Cl). congruence.
Qed.

(** *** The listeners in the runs of the facade *)

Lemma stop_noListeners n w : noListeners w -> noListeners (stop n w).
Proof.
  intros D m s C. destruct (decide (m = n)) as [-> | Hne].
  - destruct (closures w !! n) as [s0 |] eqn:C0.
    + rewrite (stop_closure_self n w s0 C0) in C. injection C as <-. exact (D n s0 C0).
    + unfold stop in C. rewrite C0 in C. congruence.
  - rewrite stop_closure_other in C by exact Hne. exact (D m s C).
Qed.

Lemma createTimeAdapter_noListeners cfg w :
  noListeners w -> noListeners (snd (createTimeAdapter cfg w)).
Proof.
  intros D. pose proof (createTimeAdapter_effect cfg w) as E.
  destruct (createTimeAdapter cfg w) as [a w']. cbn [snd].
  destruct E as (_ & _ & _ & _ & _ & K). destruct (ad_interval a).
  - destruct K as (_ & _ & _ & _ & C). intros m s L. rewrite C in L.
    destruct (decide (m = next_adapter w)) as [-> | Hne].
    + rewrite lookup_insert_eq in L. injection L as <-. reflexivity.
    + rewrite lookup_insert_ne in L by congruence. exact (D m s L).
  - destruct K as (_ & _ & _ & C). intros m s L. rewrite C in L. exact (D m s L).
Qed.

Lemma rebuildTimeAdapters_noListeners sw :
  noListeners (snd sw) -> noListeners (snd (rebuildTimeAdapters sw)).
Proof.
  intros D. unfold rebuildTimeAdapters.
  apply (fold_features rebuildStep (fun sw => noListeners (snd sw))
           (fun _ _ => True)); [| auto | auto |].
  - intros [st w] f D0. cbn [snd] in *. unfold rebuildStep. cbv zeta.
    pose proof (createTimeAdapter_noListeners
                  (resolveTimeConfig (config st) f) w D0) as D'.
    destruct (createTimeAdapter (resolveTimeConfig (config st) f) w) as [a w'].
    destruct (mode (resolveTimeConfig (config st) f)) as [[| |] |]; assumption.
  - apply (fold_features disposeStep (fun sw => noListeners (snd sw))
             (fun _ _ => True)); [| auto | auto | exact D].
    intros [st w] f D0. cbn [snd] in *. unfold disposeStep.
    destruct (disposers st f) as [a |]; [| exact D0].
    cbn [snd]. apply stop_noListeners. exact D0.
Qed.

(** Where no adapter has a listener a firing changes nothing. *)
Lemma tick_noListeners a w : noListeners w -> tick a w = w.
Proof.
  intros D. unfold tick. destruct (closures w !! ad_id a) as [s |] eqn:C; [| reflexivity].
  destruct (timer s) as [id |]; [| reflexivity].
  destruct (timers w !! id); [| reflexivity].
  rewrite (D _ _ C). unfold log_calls. cbn [map]. rewrite app_nil_r.
  destruct w; reflexivity.
Qed.

Lemma facadeRun_reachable st w : FacadeRun st w -> Reachable st w.
Proof.
  induction 1; [apply R_boot | apply R_configure | apply R_advance | apply R_tick];
    assumption.
Qed.

Lemma facadeRun_quiet st w : FacadeRun st w -> noListeners w /\ calls w = [].
Proof.
  induction 1 as [clock | st w next R [N Cl] | st w clock R [N Cl] | st w a R [N Cl]].
  - unfold boot. split.
    + apply (rebuildTimeAdapters_noListeners
               ({| config := initialConfig; timeMap := fun _ => None;
                   disposers := fun _ => None |}, emptyWorld clock)).
      intros n s C. cbn in C. rewrite lookup_empty in C. discriminate.
    + rewrite rebuildTimeAdapters_calls. reflexivity.
  - rewrite configure_unfold. split.
    + apply (rebuildTimeAdapters_noListeners
               ({| config := mergeConfig (config st) next; timeMap := timeMap st;
                   disposers := disposers st |}, w)).
      exact N.
    + rewrite rebuildTimeAdapters_calls. exact Cl.
  - split; [exact N | exact Cl].
  - rewrite (tick_noListeners a w N). split; [exact N | exact Cl].
Qed.

(** Property X20. The facade never notifies anybody.  In every run of the
    facade by its own operations no adapter has a listener, no callback has
    been invoked, and a firing of any timer changes nothing; yet every
    interval adapter a feature holds has its timer running. *)
Theorem facade_notifies_nobody st w :
  FacadeRun st w ->
  calls w = []
  /\ (forall a cb, ~ registered a cb w)
  /\ (forall a, tick a w = w)
  /\ (forall f a, timeMap st f = Some a -> ad_interval a = true ->
        running a w
        /\ exists id, closures w !! ad_id a = Some {| listeners := []; timer := Some id |}).
Proof.
  intros R. destruct (facadeRun_quiet st w R) as [N Cl].
  split; [exact Cl |]. split; [| split].
  - intros a cb (s & C & I). rewrite (N _ _ C) in I. destruct I.
  - intros a. apply tick_noListeners. exact N.
  - intros f a Ta Iv.
    pose proof (reachable_running st w f a (facadeRun_reachable st w R) Ta Iv) as Rn.
    split; [exact Rn |].
    destruct Rn as (s & id & tmr & C & T & _). exists id. rewrite C. f_equal.
    pose proof (N _ _ C) as L. destruct s as [l t]. cbn in T, L. subst. reflexivity.
Qed.

(** *** The time source of the facade *)

(** Property X21. In every run the operations of a feature read the feature's
    resolved configuration as it is now: with the mode off there is no time
    source, whatever [freezeTo] says, and otherwise the time source is
    [resolveNow (freezeTo ?? null)] of the resolved configuration. So
    [input.buildEntry] stamps that instant and raises exactly when it is the
    invalid date, the [myweb] operations work on it, and the [flower]
    operations are the core functions on it. *)
Theorem facade_reads_current_configuration st w :
  Reachable st w ->
  let source f :=
    match mode (resolveTimeConfig (config st) f) with
    | Some off => None
    | _ => Some {| now := baseNow (resolveTimeConfig (config st) f) |}
    end in
  (forall f, timeOf st f = source f)
  /\ mywebNow st w
     = match source myweb with
       | Some tm => now tm (wall w)
       | None => Valid (wall w)
       end
  /\ (let d := match source myweb with
                | Some tm => now tm (wall w)
                | None => Valid (wall w)
                end in
      isWeeklyReportNow st w = MyWebCore.isWeeklyReportTrigger d
      /\ isMonthlyReportNow st w = MyWebCore.isMonthlyReportTrigger d
      /\ completedWeeklyRangeForNow st w = MyWebCore.getCompletedWeeklyRangeFrom d
      /\ completedMonthlyRangeForNow st w = MyWebCore.getCompletedMonthlyRangeFrom d
      /\ currentWeeklyRange st w = MyWebCore.getCurrentWeeklyRangeContaining d
      /\ currentMonthlyRange st w = MyWebCore.getCurrentMonthlyRangeContaining d)
  /\ (forall payload,
        input_buildEntry payload st w
        = match source input with
          | None =>
              Normal {| emotions := InputCore.bp_emotions payload;
                        memo := InputCore.bp_memo payload; created_at := None |}
          | Some tm =>
              match now tm (wall w) with
              | Valid t =>
                  Normal {| emotions := InputCore.bp_emotions payload;
                            memo := InputCore.bp_memo payload;
                            created_at := Some (isoString t) |}
              | InvalidDate => ThrowRangeError
              end
          end)
  /\ (forall (T : Type) (d : T),
        flower_annotate d st w
        = FlowerCore.annotate (wall w)
            {| FlowerCore.ai_data := d; FlowerCore.ai_time := source flower |})
  /\ (forall es memo,
        flower_analyze es memo st w
        = FlowerCore.analyze (wall w)
            {| FlowerCore.emotions := es; FlowerCore.memo := memo;
               FlowerCore.time := source flower |}).
Proof.
  intros R. cbv zeta.
  assert (S : forall f,
             timeOf st f
             = match mode (resolveTimeConfig (config st) f) with
               | Some off => None
               | _ => Some {| now := baseNow (resolveTimeConfig (config st) f) |}
               end).
  { intros f. pose proof (reachable_adapters st w R f) as K. unfold timeOf.
    destruct (mode (resolveTimeConfig (config st) f)) as [[| |] |];
      try (rewrite K; reflexivity);
      destruct K as (a & -> & Ca & _); cbn; unfold adapter_time; rewrite Ca; reflexivity. }
  assert (N : mywebNow st w
              = match match mode (resolveTimeConfig (config st) myweb) with
                      | Some off => None
                      | _ => Some {| now := baseNow (resolveTimeConfig (config st) myweb) |}
                      end with
                | Some tm => now tm (wall w)
                | None => Valid (wall w)
                end)
    by (unfold mywebNow; rewrite S; reflexivity).
  split; [exact S |]. split; [exact N |]. split; [| split; [| split]].
  - unfold isWeeklyReportNow, isMonthlyReportNow, completedWeeklyRangeForNow,
      completedMonthlyRangeForNow, currentWeeklyRange, currentMonthlyRange.
    rewrite N. repeat split.
  - intros payload. unfold input_buildEntry, InputCore.buildEntry. cbn [InputCore.bo_time].
    rewrite S.
    destruct (mode (resolveTimeConfig (config st) input)) as [[| |] |]; try reflexivity;
      cbn [now]; destruct (baseNow _ _); reflexivity.
  - intros T d. unfold flower_annotate. rewrite S. reflexivity.
  - intros es memo. unfold flower_analyze. rewrite S. reflexivity.
Qed.

End Host.
End RunFacts.

(** ** Runs from concrete configurations *)

Module RunExamples.
Import JsDate Types TimeService AdapterSpec MashOS MashOSSpec RunSpec Runs.
Import Inputs ConfigExample RunFacts.

#[local] Existing Instance jst.

Lemma example_reachable :
  Reachable (fst (configure mashOSConfigExample (boot 0)))
            (snd (configure mashOSConfigExample (boot 0))).
Proof. rewrite (surjective_pairing (boot 0)). apply R_configure, R_boot. Qed.

(** With the configuration of [config.example.ts] the feature [myweb]
    holds an interval adapter, and its timer runs with a period of a
    minute. *)
Lemma timers_match_interval_adapters_witness :
  let sw := configure mashOSConfigExample (boot 0) in
  Reachable (fst sw) (snd sw)
  /\ exists a id tmr,
       timeMap (fst sw) myweb = Some a /\ ad_interval a = true
       /\ timers (snd sw) !! id = Some tmr
       /\ timerOfFeature (fst sw) (snd sw) myweb id tmr.
Proof.
  cbv zeta. split; [exact example_reachable |].
  destruct (timers_match_interval_adapters _ _ example_reachable) as (_ & K & _).
  destruct (timeMap (fst (configure mashOSConfigExample (boot 0))) myweb) as [a |] eqn:Ta;
    [| vm_compute in Ta; discriminate Ta].
  assert (Iv : ad_interval a = true) by (vm_compute in Ta; injection Ta as <-; reflexivity).
  destruct (K myweb a Ta Iv) as (id & tmr & L & P).
  exists a, id, tmr. auto.
Defined.

(** An interval adapter with the subscribers 7 and 8, the first of them
    subscribed twice: a firing of the timer invokes both, once each. *)
Lemma tick_notifies_each_listener_once_witness :
  let a := fst (createTimeAdapter tickingConfig (emptyWorld 0)) in
  let w := subscribe a 7%nat
             (subscribe a 8%nat
                (subscribe a 7%nat (snd (createTimeAdapter tickingConfig (emptyWorld 0))))) in
  AdapterRun [a] w /\ In a [a]
  /\ running a w /\ registered a 7%nat w /\ registered a 8%nat w
  /\ exists fired,
       calls (tick a w) = calls w ++ fired
       /\ NoDup (map fst fired)
       /\ In 7%nat (map fst fired) /\ In 8%nat (map fst fired)
       /\ forall p, In p fired -> snd p = Valid 0.
Proof.
  cbv zeta.
  set (a := fst (createTimeAdapter tickingConfig (emptyWorld 0))).
  set (w := subscribe a 7%nat
              (subscribe a 8%nat
                 (subscribe a 7%nat (snd (createTimeAdapter tickingConfig (emptyWorld 0)))))).
  assert (I : In a [a]) by (left; reflexivity).
  assert (R : AdapterRun [a] w).
  { unfold w. do 3 (apply AR_subscribe; [| exact I]). unfold a.
    apply (AR_create [] (emptyWorld 0) tickingConfig), AR_start. }
  assert (C : closures w !! ad_id a = Some {| listeners := [7%nat; 8%nat]; timer := Some 1%nat |})
    by (vm_compute; reflexivity).
  assert (T : timers w !! 1%nat = Some {| tm_owner := 0%nat; tm_interval := 60000 |})
    by (vm_compute; reflexivity).
  assert (Rn : running a w) by (eexists _, _, _; split; [exact C |]; split; [reflexivity | exact T]).
  assert (R7 : registered a 7%nat w) by (eexists; split; [exact C |]; cbn; auto).
  assert (R8 : registered a 8%nat w) by (eexists; split; [exact C |]; cbn; auto).
  split; [exact R |]. split; [exact I |]. split; [exact Rn |].
  split; [exact R7 |]. split; [exact R8 |].
  destruct (tick_notifies_each_listener_once [a] w a R I) as (fired & E & N & P & _ & K).
  exists fired. split; [exact E |]. split; [exact N |].
  split; [exact (K Rn _ R7) |]. split; [exact (K Rn _ R8) |].
  intros p Hp. rewrite (P p Hp). vm_compute. reflexivity.
Defined.

Lemma example_facadeRun :
  FacadeRun (fst (configure mashOSConfigExample (boot 0)))
            (snd (configure mashOSConfigExample (boot 0))).
Proof. rewrite (surjective_pairing (boot 0)). apply F_configure, F_boot. Qed.

(** With the configuration of [config.example.ts] the feature [myweb]
    holds an interval adapter whose timer runs, and a firing of it changes
    nothing. *)
Lemma facade_notifies_nobody_witness :
  let sw := configure mashOSConfigExample (boot 0) in
  FacadeRun (fst sw) (snd sw)
  /\ calls (snd sw) = []
  /\ exists a,
       timeMap (fst sw) myweb = Some a /\ ad_interval a = true
       /\ running a (snd sw) /\ tick a (snd sw) = snd sw
       /\ forall cb, ~ registered a cb (snd sw).
Proof.
  cbv zeta. split; [exact example_facadeRun |].
  destruct (facade_notifies_nobody _ _ example_facadeRun) as (Cl & Ng & Tk & Rn).
  split; [exact Cl |].
  destruct (timeMap (fst (configure mashOSConfigExample (boot 0))) myweb) as [a |] eqn:Ta;
    [| vm_compute in Ta; discriminate Ta].
  assert (Iv : ad_interval a = true) by (vm_compute in Ta; injection Ta as <-; reflexivity).
  exists a. split; [reflexivity |]. split; [exact Iv |].
  split; [exact (proj1 (Rn myweb a Ta Iv)) |]. split; [exact (Tk a) |]. exact (Ng a).
Defined.

Lemma facade_reads_current_configuration_witness :
  Reachable (fst (boot 0)) (snd (boot 0))
  /\ forall f,
       timeOf (fst (boot 0)) f
       = match mode (resolveTimeConfig (config (fst (boot 0))) f) with
         | Some off => None
         | _ => Some {| now := baseNow (resolveTimeConfig (config (fst (boot 0))) f) |}
         end.
Proof.
  split; [apply R_boot |].
  exact (proj1 (facade_reads_current_configuration _ _ (R_boot 0))).
Defined.

End RunExamples.

(** ** The facade under an invalid instant *)

Module InvalidInstant.
Import JsDate Types TimeService AdapterSpec MashOS MashOSSpec RunSpec.
Import FacadeFacts RunFacts.

Section Host.
Context `{HostEnv}.

(** Property X22. A feature that is not switched off and whose resolved
    configuration freezes it to the invalid date, as an unparseable string
    does: in every run the [myweb] operations return without raising, the
    triggers false and the ranges with the invalid date at both ends, while
    [input.buildEntry], [flower.annotate] and [flower.analyze] raise a
    RangeError. *)
Theorem invalid_instant_in_the_facade st w f :
  Reachable st w ->
  mode (resolveTimeConfig (config st) f) <> Some off ->
  baseNow (resolveTimeConfig (config st) f) (wall w) = InvalidDate ->
  match f with
  | myweb =>
      isWeeklyReportNow st w = false /\ isMonthlyReportNow st w = false
      /\ completedWeeklyRangeForNow st w
         = {| MyWebCore.start := InvalidDate; MyWebCore.end_ := InvalidDate |}
      /\ completedMonthlyRangeForNow st w
         = {| MyWebCore.start := InvalidDate; MyWebCore.end_ := InvalidDate |}
      /\ currentWeeklyRange st w
         = {| MyWebCore.start := InvalidDate; MyWebCore.end_ := InvalidDate |}
      /\ currentMonthlyRange st w
         = {| MyWebCore.start := InvalidDate; MyWebCore.end_ := InvalidDate |}
  | input => forall payload, input_buildEntry payload st w = ThrowRangeError
  | flower =>
      (forall (T : Type) (d : T), flower_annotate d st w = ThrowRangeError)
      /\ (forall es memo, flower_analyze es memo st w = ThrowRangeError)
  end.
Proof.
  intros R M B. pose proof (reachable_adapters st w R f) as K.
  assert (S : timeOf st f = Some {| now := baseNow (resolveTimeConfig (config st) f) |}).
  { unfold timeOf.
    destruct (mode (resolveTimeConfig (config st) f)) as [[| |] |]; try congruence;
      destruct K as (a & -> & Ca & _); cbn; unfold adapter_time; rewrite Ca; reflexivity. }
  destruct f.
  - intros payload. unfold input_buildEntry, InputCore.buildEntry. cbn [InputCore.bo_time].
    rewrite S. cbn [now]. rewrite B. reflexivity.
  - assert (N : mywebNow st w = InvalidDate)
      by (unfold mywebNow; rewrite S; cbn [now]; exact B).
    unfold isWeeklyReportNow, isMonthlyReportNow, completedWeeklyRangeForNow,
      completedMonthlyRangeForNow, currentWeeklyRange, currentMonthlyRange.
    rewrite N. repeat split.
  - split.
    + intros T d. unfold flower_annotate, FlowerCore.annotate. cbn [FlowerCore.ai_time].
      rewrite S. cbv zeta. cbn [now]. rewrite B. reflexivity.
    + intros es memo. unfold flower_analyze, FlowerCore.analyze. cbn [FlowerCore.time].
      rewrite S. cbv zeta. cbn [now]. rewrite B. reflexivity.
Qed.

End Host.

#[local] Existing Instance jst.

Lemma invalid_instant_witness :
  let sw := configure MoreInputs.frozenToNonsense (boot 0) in
  Reachable (fst sw) (snd sw)
  /\ mode (resolveTimeConfig (config (fst sw)) input) <> Some off
  /\ baseNow (resolveTimeConfig (config (fst sw)) input) (wall (snd sw)) = InvalidDate
  /\ forall payload, input_buildEntry payload (fst sw) (snd sw) = ThrowRangeError.
Proof.
  cbv zeta.
  assert (R : Reachable (fst (configure MoreInputs.frozenToNonsense (boot 0)))
                        (snd (configure MoreInputs.frozenToNonsense (boot 0))))
    by (rewrite (surjective_pairing (boot 0)); apply R_configure, R_boot).
  assert (M : mode (resolveTimeConfig
                      (config (fst (configure MoreInputs.frozenToNonsense (boot 0)))) input)
              <> Some off) by (vm_compute; discriminate).
  assert (B : baseNow (resolveTimeConfig
                         (config (fst (configure MoreInputs.frozenToNonsense (boot 0)))) input)
                (wall (snd (configure MoreInputs.frozenToNonsense (boot 0))))
              = InvalidDate) by (vm_compute; reflexivity).
  split; [exact R |]. split; [exact M |]. split; [exact B |].
  exact (invalid_instant_in_the_facade _ _ input R M B).
Defined.

(** The [myweb] feature under the same configuration: no trigger, and the
    completed week has no dates. *)
Lemma invalid_instant_myweb_example :
  let sw := configure MoreInputs.frozenToNonsense (boot 0) in
  isWeeklyReportNow (fst sw) (snd sw) = false
  /\ completedWeeklyRangeForNow (fst sw) (snd sw)
     = {| MyWebCore.start := InvalidDate; MyWebCore.end_ := InvalidDate |}.
Proof. vm_compute. split; reflexivity. Qed.

End InvalidInstant.

(** ** The facade: what configure does to the configuration *)

Module MergeMore.
Import JsDate Types TimeService AdapterSpec MashOS MashOSSpec RunSpec.
Import TimeServiceFacts MergeFacts WorldFacts RebuildFacts FacadeFacts RunFacts.

Lemma MashOSConfig_ext (a b : MashOSConfig) :
  default a = default b -> perFeature a = perFeature b -> a = b.
Proof. destruct a, b. cbn. intros -> ->. reflexivity. Qed.

Lemma jsonFreezeTo_idem f : jsonFreezeTo (jsonFreezeTo f) = jsonFreezeTo f.
Proof. destruct f as [| [t |] | s | n]; reflexivity. Qed.

Lemma jsonTimeConfig_idem tc : jsonTimeConfig (jsonTimeConfig tc) = jsonTimeConfig tc.
Proof.
  unfold jsonTimeConfig. cbn. f_equal.
  destruct (freezeTo tc) as [f |]; cbn; [rewrite jsonFreezeTo_idem |]; reflexivity.
Qed.

(** Merging [v] a second time into the JSON copy of the result changes
    nothing, when the entry merged into was a JSON copy. *)
Lemma spread_json_idem x v :
  jsonTimeConfig x = x ->
  spread (jsonTimeConfig (spread x v)) v = spread x v.
Proof.
  intros Jx. unfold spread, jsonTimeConfig in *. cbn.
  destruct x as [xm xi xf], v as [vm vi vf]. cbn in *.
  injection Jx as Jf. f_equal.
  - destruct vm; reflexivity.
  - destruct vi; reflexivity.
  - destruct vf; [reflexivity | exact Jf].
Qed.

Lemma orEmpty_json o : jsonTimeConfig (orEmpty (jsonTimeConfig <$> o)) = orEmpty (jsonTimeConfig <$> o).
Proof. destruct o as [tc |]; cbn; [apply jsonTimeConfig_idem | reflexivity]. Qed.

Lemma mergeConfig_idem base next :
  mergeConfig (mergeConfig base next) next = mergeConfig base next.
Proof.
  apply MashOSConfig_ext.
  - rewrite (mergeConfig_default (mergeConfig base next) next), (mergeConfig_default base next).
    destruct (partialDefault next) as [d |].
    + apply spread_json_idem, jsonTimeConfig_idem.
    + apply jsonTimeConfig_idem.
  - apply map_eq. intros k.
    rewrite (mergeConfig_entry (mergeConfig base next) next k), (mergeConfig_entry base next k).
    destruct (partialEntry next k) as [v |].
    + cbn. f_equal. apply spread_json_idem, orEmpty_json.
    + destruct (perFeature base !! k) as [tc |]; cbn; [| reflexivity].
      rewrite jsonTimeConfig_idem. reflexivity.
Qed.

Section Host.
Context `{HostEnv}.

Lemma disposeStep_config sw f : config (fst (disposeStep sw f)) = config (fst sw).
Proof.
  destruct sw as [st w]. unfold disposeStep. destruct (disposers st f); reflexivity.
Qed.

Lemma rebuildTimeAdapters_config sw : config (fst (rebuildTimeAdapters sw)) = config (fst sw).
Proof.
  unfold rebuildTimeAdapters.
  apply (fold_features rebuildStep (fun s => config (fst s) = config (fst sw))
           (fun _ _ => True)); [| auto | auto |].
  - intros s f E. rewrite rebuildStep_config. exact E.
  - apply (fold_features disposeStep (fun s => config (fst s) = config (fst sw))
             (fun _ _ => True)); [| auto | auto | reflexivity].
    intros s f E. rewrite disposeStep_config. exact E.
Qed.

(** Property X23. Configuring twice with the same partial configuration gives
    the configuration that configuring once gives: [mergeConfig] is idempotent
    in its second argument, from every configuration, and so is the
    configuration [configure] leaves, from every state. *)
Theorem configure_twice_same_configuration base next sw :
  mergeConfig (mergeConfig base next) next = mergeConfig base next
  /\ config (fst (configure next (configure next sw)))
     = config (fst (configure next sw)).
Proof.
  split; [apply mergeConfig_idem |].
  destruct sw as [st w].
  rewrite (surjective_pairing (configure next (st, w))).
  rewrite !configure_unfold.
  rewrite rebuildTimeAdapters_config. cbn [fst config].
  rewrite !rebuildTimeAdapters_config. cbn [fst config].
  apply mergeConfig_idem.
Qed.


(** Property X24. A [Date] given as [freezeTo] lives in the configuration
    until the next [configure], whose JSON copy turns it into its ISO string,
    or into [null] if it is the invalid date. So for a feature the next
    partial configuration leaves alone, an adapter frozen to a valid [Date] is
    afterwards frozen to what the host parses that string as, the same instant
    if the host reads it back, and an adapter frozen to the invalid date,
    whose [now ()] was the invalid date, afterwards reads the wall clock. *)
Theorem date_freeze_through_configure c f d next clock :
  freezeTo (resolveTimeConfig c f) = Some (FDate d) ->
  partialEntry next (featureKey f) = None ->
  is_Some (perFeature c !! featureKey f) \/ partialDefault next = None ->
  baseNow (resolveTimeConfig c f) clock = new_Date_of_num (getTime d)
  /\ baseNow (resolveTimeConfig (mergeConfig c next) f) clock
     = match d with
       | Valid t => new_Date_of_string (isoString t)
       | InvalidDate => Valid clock
       end
  /\ (forall t, d = Valid t -> Date_parse (isoString t) = Some t ->
                baseNow (resolveTimeConfig (mergeConfig c next) f) clock = Valid t).
Proof.
  intros F A C.
  destruct (mergeConfig_absent_feature c next f A) as [_ K]. specialize (K C).
  assert (After : baseNow (resolveTimeConfig (mergeConfig c next) f) clock
                  = match d with
                    | Valid t => new_Date_of_string (isoString t)
                    | InvalidDate => Valid clock
                    end).
  { rewrite K. unfold baseNow, jsonTimeConfig. cbn [freezeTo]. rewrite F.
    destruct d; reflexivity. }
  split; [unfold baseNow; rewrite F; reflexivity |]. split; [exact After |].
  intros t -> P. rewrite After. unfold new_Date_of_string, new_Date_of_num. rewrite P.
  apply JsDateFacts.TimeClip_valid. exact (Date_parse_range _ _ P).
Qed.

(** *** Keys that name no feature *)

Lemma sameAdapters_fold (step : State * World -> Feature -> State * World) :
  (forall st st' w f,
     sameAdapters st st' ->
     sameAdapters (fst (step (st, w) f)) (fst (step (st', w) f))
     /\ snd (step (st, w) f) = snd (step (st', w) f)) ->
  forall l st st' w,
    sameAdapters st st' ->
    sameAdapters (fst (fold_left step l (st, w))) (fst (fold_left step l (st', w)))
    /\ snd (fold_left step l (st, w)) = snd (fold_left step l (st', w)).
Proof.
  intros Hs l. induction l as [| f l IH]; intros st st' w Sm; [cbn; auto |].
  cbn [fold_left]. destruct (Hs st st' w f Sm) as [Sm1 Ew].
  rewrite (surjective_pairing (step (st, w) f)), (surjective_pairing (step (st', w) f)).
  rewrite <- Ew. apply IH. exact Sm1.
Qed.

Lemma disposeStep_sameAdapters st st' w f :
  sameAdapters st st' ->
  sameAdapters (fst (disposeStep (st, w) f)) (fst (disposeStep (st', w) f))
  /\ snd (disposeStep (st, w) f) = snd (disposeStep (st', w) f).
Proof.
  intros (Tm & Dp & Rs). unfold disposeStep. rewrite <- Dp.
  destruct (disposers st f) as [a |]; cbn [fst snd].
  - split; [| reflexivity]. unfold sameAdapters. cbn [timeMap disposers config].
    rewrite Dp. auto.
  - split; [| reflexivity]. unfold sameAdapters. auto.
Qed.

Lemma rebuildStep_sameAdapters st st' w f :
  sameAdapters st st' ->
  sameAdapters (fst (rebuildStep (st, w) f)) (fst (rebuildStep (st', w) f))
  /\ snd (rebuildStep (st, w) f) = snd (rebuildStep (st', w) f).
Proof.
  intros (Tm & Dp & Rs). unfold rebuildStep. cbv zeta. rewrite <- (Rs f).
  destruct (createTimeAdapter (resolveTimeConfig (config st) f) w) as [a w'].
  destruct (mode (resolveTimeConfig (config st) f)) as [[| |] |]; cbn [fst snd];
    (split; [| reflexivity]); unfold sameAdapters; cbn [timeMap disposers config];
    rewrite Tm, Dp; auto.
Qed.

Lemma rebuildTimeAdapters_sameAdapters st st' w :
  sameAdapters st st' ->
  sameAdapters (fst (rebuildTimeAdapters (st, w))) (fst (rebuildTimeAdapters (st', w)))
  /\ snd (rebuildTimeAdapters (st, w)) = snd (rebuildTimeAdapters (st', w)).
Proof.
  intros Sm. unfold rebuildTimeAdapters.
  destruct (sameAdapters_fold disposeStep disposeStep_sameAdapters FEATURES st st' w Sm)
    as [Sm1 Ew].
  rewrite (surjective_pairing (fold_left disposeStep FEATURES (st, w))),
    (surjective_pairing (fold_left disposeStep FEATURES (st', w))).
  rewrite <- Ew.
  apply (sameAdapters_fold rebuildStep rebuildStep_sameAdapters). exact Sm1.
Qed.

(** Property X25. An entry of [perFeature] under a key that names no feature
    is kept in the configuration and read by nothing: [configure] builds the
    same adapters, disposers and world, and resolves every feature to the same
    configuration, as with the partial configuration without that entry. *)
Theorem unknown_feature_key_is_ignored k v d src st w :
  (forall f, featureKey f <> k) ->
  let next :=
    {| p_time := Some {| p_default := d; p_perFeature := Some (<[k := v]> src) |} |} in
  let rest :=
    {| p_time := Some {| p_default := d; p_perFeature := Some (delete k src) |} |} in
  perFeature (config (fst (configure next (st, w)))) !! k
  = Some (spread (orEmpty (jsonTimeConfig <$> perFeature (config st) !! k)) v)
  /\ (forall f,
        resolveTimeConfig (config (fst (configure next (st, w)))) f
        = resolveTimeConfig (config (fst (configure rest (st, w)))) f)
  /\ timeMap (fst (configure next (st, w))) = timeMap (fst (configure rest (st, w)))
  /\ disposers (fst (configure next (st, w))) = disposers (fst (configure rest (st, w)))
  /\ snd (configure next (st, w)) = snd (configure rest (st, w)).
Proof.
  intros Hk. cbv zeta.
  set (next := {| p_time := Some {| p_default := d;
                                    p_perFeature := Some (<[k := v]> src) |} |}).
  set (rest := {| p_time := Some {| p_default := d;
                                    p_perFeature := Some (delete k src) |} |}).
  assert (Rs : forall f,
             resolveTimeConfig (mergeConfig (config st) next) f
             = resolveTimeConfig (mergeConfig (config st) rest) f).
  { intros f. unfold resolveTimeConfig.
    rewrite (mergeConfig_entry (config st) next), (mergeConfig_entry (config st) rest).
    rewrite (mergeConfig_default (config st) next), (mergeConfig_default (config st) rest).
    unfold partialEntry, partialDefault. cbn [p_time p_default p_perFeature next rest].
    rewrite lookup_insert_ne by (intros E; exact (Hk f (eq_sym E))).
    rewrite lookup_delete_ne by (intros E; exact (Hk f (eq_sym E))).
    reflexivity. }
  rewrite !configure_unfold.
  destruct (rebuildTimeAdapters_sameAdapters
              {| config := mergeConfig (config st) next; timeMap := timeMap st;
                 disposers := disposers st |}
              {| config := mergeConfig (config st) rest; timeMap := timeMap st;
                 disposers := disposers st |} w)
    as [(Tm & Dp & Rs') Ew].
  { unfold sameAdapters. cbn [timeMap disposers config]. auto. }
  split; [| auto].
  rewrite rebuildTimeAdapters_config. cbn [fst config].
  rewrite mergeConfig_entry. unfold partialEntry. cbn [p_time p_perFeature next].
  rewrite lookup_insert_eq. reflexivity.
Qed.

End Host.
End MergeMore.

(** ** Configurations at concrete inputs *)

Module MergeExamples.
Import JsDate Types TimeService AdapterSpec MashOS MashOSSpec RunSpec.
Import Inputs ConfigExample MergeMore.

#[local] Existing Instance jst.

(** A default frozen to the invalid date: after an empty [configure] the
    [input] feature reads the wall clock. *)
Lemma date_freeze_through_configure_witness :
  let c :=
    {| default := {| mode := Some snapshot; intervalMs := None;
                     freezeTo := Some (FDate InvalidDate) |};
       perFeature := ∅ |} in
  freezeTo (resolveTimeConfig c input) = Some (FDate InvalidDate)
  /\ partialEntry {| p_time := None |} (featureKey input) = None
  /\ baseNow (resolveTimeConfig c input) 1000 = InvalidDate
  /\ baseNow (resolveTimeConfig (mergeConfig c {| p_time := None |}) input) 1000
     = Valid 1000.
Proof.
  cbv zeta.
  assert (F : freezeTo
                (resolveTimeConfig
                   {| default := {| mode := Some snapshot; intervalMs := None;
                                    freezeTo := Some (FDate InvalidDate) |};
                      perFeature := ∅ |} input)
              = Some (FDate InvalidDate)) by (vm_compute; reflexivity).
  assert (A : partialEntry {| p_time := None |} (featureKey input) = None)
    by reflexivity.
  split; [exact F |]. split; [exact A |].
  destruct (date_freeze_through_configure _ input InvalidDate {| p_time := None |} 1000
              F A (or_intror eq_refl)) as (B & K & _).
  split; [exact B | exact K].
Defined.

(** A default frozen to the [Date] of 24 October 2025, 07:00 UTC: the
    instant survives an empty [configure] as its ISO string. *)
Lemma date_freeze_valid_example :
  let c :=
    {| default := {| mode := Some snapshot; intervalMs := None;
                     freezeTo := Some (FDate (Valid 1761289200000)) |};
       perFeature := ∅ |} in
  freezeTo (resolveTimeConfig (mergeConfig c {| p_time := None |}) input)
  = Some (FString "2025-10-24T07:00:00.000Z")
  /\ baseNow (resolveTimeConfig (mergeConfig c {| p_time := None |}) input) 1000
     = Valid 1761289200000.
Proof. vm_compute. split; reflexivity. Qed.

(** The entry [mymodel] of [config.example.ts] names no feature. *)
Lemma unknown_feature_key_witness :
  (forall f, featureKey f <> "mymodel")
  /\ timeMap (fst (configure mashOSConfigExample (boot 0)))
     = timeMap
         (fst (configure
                 {| p_time :=
                      Some {| p_default :=
                                Some {| mode := Some snapshot; intervalMs := None;
                                        freezeTo := None |};
                              p_perFeature :=
                                Some (delete "mymodel"
                                        (<["myweb" := {| mode := Some interval;
                                                         intervalMs := Some 60000;
                                                         freezeTo := None |}]>
                                         (<["input" := {| mode := Some snapshot;
                                                          intervalMs := None;
                                                          freezeTo := None |}]> ∅))) |} |}
                 (boot 0))).
Proof.
  split; [intros []; discriminate |].
  rewrite (surjective_pairing (boot 0)).
  apply (unknown_feature_key_is_ignored "mymodel"
           {| mode := Some off; intervalMs := None; freezeTo := None |}
           (Some {| mode := Some snapshot; intervalMs := None; freezeTo := None |})
           (<["myweb" := {| mode := Some interval; intervalMs := Some 60000;
                            freezeTo := None |}]>
            (<["input" := {| mode := Some snapshot; intervalMs := None;
                             freezeTo := None |}]> ∅))).
  intros []; discriminate.
Defined.

(** With the configuration of [config.example.ts] the feature [flower] is
    not switched off: it resolves to the default, mode snapshot, and holds
    an adapter; [input] holds a snapshot adapter and [myweb] an interval
    adapter with a period of a minute. *)
Lemma config_example_effect :
  let st := fst (configure mashOSConfigExample (boot 0)) in
  let w := snd (configure mashOSConfigExample (boot 0)) in
  resolveTimeConfig (config st) flower
  = {| mode := Some snapshot; intervalMs := None; freezeTo := None |}
  /\ perFeature (config st) !! "mymodel"
     = Some {| mode := Some off; intervalMs := None; freezeTo := None |}
  /\ option_map ad_interval (timeMap st input) = Some false
  /\ option_map ad_interval (timeMap st myweb) = Some true
  /\ option_map ad_interval (timeMap st flower) = Some false
  /\ map_to_list (timers w) = [(1%nat, {| tm_owner := 4%nat; tm_interval := 60000 |})].
Proof. vm_compute. repeat split. Qed.

End MergeExamples.
